(** * Movie rating app: the persistence layer and the slug helper

    A shallow embedding of [helpers/slugify.js] and [db/index.js].

    - JavaScript strings are sequences of UTF-16 code units ([text]).
    - The SQLite database is a record of tables; a table is the list of
      its rows in rowid order, which is the order of a full scan.
    - A statement either completes or throws a constraint error; a
      statement that throws leaves the database as it was.
    - [datetime('now')] is the argument [now] of the function that runs
      the statement.
    - Arguments are strings and integers; an argument is optional where
      the code tests it or gives it a default. *)

From Stdlib Require Import String Ascii DecimalString DecimalN FinFun.
From Stdlib Require Import ZArith NArith Bool Lia List Permutation Sorted.
Import ListNotations.

Set Implicit Arguments.

(** ** JavaScript strings *)

(** A string is the list of its UTF-16 code units. *)
Definition text := list N.

(** A string literal of the source, all of which are ASCII. *)
Definition lit (s : string) : text := map N_of_ascii (list_ascii_of_string s).

Fixpoint text_eqb (a b : text) : bool :=
  match a, b with
  | [], [] => true
  | x :: a', y :: b' => N.eqb x y && text_eqb a' b'
  | _, _ => false
  end.

(** Comparison of two strings unit by unit, a proper prefix first. *)
Fixpoint text_compare (a b : text) : comparison :=
  match a, b with
  | [], [] => Eq
  | [], _ :: _ => Lt
  | _ :: _, [] => Gt
  | x :: a', y :: b' =>
      match N.compare x y with
      | Eq => text_compare a' b'
      | c => c
      end
  end.

(** [`${i}`] for a non-negative integer [i]: its decimal digits. *)
Definition decimal (i : N) : text :=
  lit (NilEmpty.string_of_uint (N.to_uint i)).

(** [a || b] on strings: the empty string is the only falsy string. *)
Definition text_or (a b : text) : text :=
  match a with [] => b | _ :: _ => a end.

(** Truthiness of a possibly missing string, as in [if (imagePath)]. *)
Definition truthy_text (a : option text) : bool :=
  match a with
  | Some (_ :: _) => true
  | _ => false
  end.

(** Truthiness of a possibly missing number, as in [if (ownerId)]. *)
Definition truthy_num (a : option Z) : bool :=
  match a with
  | Some n => negb (Z.eqb n 0)
  | None => false
  end.

Definition DASH : N := 45.
Definition AMPERSAND : N := 38.

Definition is_dash (c : N) : bool := N.eqb c DASH.

(** The character class [[a-z0-9]]. *)
Definition is_alnum (c : N) : bool :=
  (N.leb 97 c && N.leb c 122) || (N.leb 48 c && N.leb c 57).

(** The character class [[\u0300-\u036f]], the combining diacritical marks. *)
Definition is_combining (c : N) : bool := N.leb 768 c && N.leb c 879.

(** ** helpers/slugify.js *)

(** [.replace(/[\u0300-\u036f]/g, '')] *)
Definition remove_combining (s : text) : text :=
  filter (fun c => negb (is_combining c)) s.

(** [.replace(/&/g, ' und ')] *)
Definition replace_ampersand (s : text) : text :=
  flat_map (fun c => if N.eqb c AMPERSAND then lit " und " else [c]) s.

(** [.replace(/[^a-z0-9]+/g, '-')]: every maximal run of characters
    outside [[a-z0-9]] becomes one dash.  [in_run] tells that the
    previous character belonged to such a run. *)
Fixpoint replace_non_alnum (in_run : bool) (s : text) : text :=
  match s with
  | [] => []
  | c :: r =>
      if is_alnum c then c :: replace_non_alnum false r
      else if in_run then replace_non_alnum true r
      else DASH :: replace_non_alnum true r
  end.

(** The alternative [^-+] of [/^-+|-+$/g]. *)
Fixpoint drop_leading_dashes (s : text) : text :=
  match s with
  | [] => []
  | c :: r => if is_dash c then drop_leading_dashes r else s
  end.

(** The alternative [-+$] of [/^-+|-+$/g]. *)
Fixpoint drop_trailing_dashes (s : text) : text :=
  match s with
  | [] => []
  | c :: r =>
      match drop_trailing_dashes r with
      | [] => if is_dash c then [] else [c]
      | r' => c :: r'
      end
  end.

(** [.replace(/^-+|-+$/g, '')] *)
Definition trim_dashes (s : text) : text :=
  drop_trailing_dashes (drop_leading_dashes s).

(** [.replace(/-{2,}/g, '-')]; [after_dash] tells that the previous
    character was a dash. *)
Fixpoint collapse_dashes (after_dash : bool) (s : text) : text :=
  match s with
  | [] => []
  | c :: r =>
      if is_dash c then
        if after_dash then collapse_dashes true r
        else c :: collapse_dashes true r
      else c :: collapse_dashes false r
  end.

Section Slugify.

(** The two built-in string methods of the JavaScript runtime that
    [slugify] calls; they are not part of the repository. *)
Variable normalizeNFKD : text -> text.
Variable toLowerCase : text -> text.

Definition slugify (input : text) : text :=
  match input with
  | [] => []
  | _ :: _ =>
      collapse_dashes false
        (trim_dashes
           (replace_non_alnum false
              (replace_ampersand
                 (toLowerCase
                    (remove_combining
                       (normalizeNFKD input))))))
  end.

End Slugify.

(** A model of the two built-ins on the letters of German and French
    text, used to run the definitions on concrete titles. *)
Definition nfkd_unit (c : N) : text :=
  match c with
  | 196 => [65; 776] | 214 => [79; 776] | 220 => [85; 776]
  | 228 => [97; 776] | 246 => [111; 776] | 252 => [117; 776]
  | 201 => [69; 769] | 233 => [101; 769]
  | 200 => [69; 768] | 232 => [101; 768]
  | 192 => [65; 768] | 224 => [97; 768]
  | _ => [c]
  end%N.

Definition nfkd_model (s : text) : text := flat_map nfkd_unit s.

Definition lower_unit (c : N) : N :=
  if (N.leb 65 c && N.leb c 90) || (N.leb 192 c && N.leb c 222 && negb (N.eqb c 215))
  then (c + 32)%N else c.

Definition lower_model (s : text) : text := map lower_unit s.

(** ** The shape of a slug *)

(** The strings [slugify] produces: letters, digits and single dashes.
    [after_dash] forbids a dash in first position. *)
Fixpoint well_dashed (after_dash : bool) (s : text) : bool :=
  match s with
  | [] => true
  | c :: r =>
      if is_dash c then negb after_dash && well_dashed true r
      else is_alnum c && well_dashed false r
  end.

Definition is_slug (s : text) : Prop :=
  well_dashed true s = true /\ drop_trailing_dashes s = s.

(** An ASCII character, and a capital letter A to Z. *)
Definition ascii_unit (c : N) : Prop := (c < 128)%N.
Definition upper_unit (c : N) : Prop := (65 <= c <= 90)%N.


(** ** SQLite values and collations *)

(** The collation NOCASE folds the 26 upper case letters of ASCII and
    nothing else ([sqlite3UpperToLower]). *)
Definition nocase_unit (c : N) : N :=
  if N.leb 65 c && N.leb c 90 then (c + 32)%N else c.

Definition nocase (s : text) : text := map nocase_unit s.

(** Two strings the unique index on the email takes for the same:
    equal but for the case of the letters A to Z. *)
Definition nocase_eqb (a b : text) : bool := text_eqb (nocase a) (nocase b).

(** SQLite keeps and compares a string as UTF-8.  A surrogate pair of
    the JavaScript string is one code point; a surrogate without its
    partner is written as U+FFFD. *)
Definition is_high_surrogate (c : N) : bool := N.leb 55296 c && N.leb c 56319.
Definition is_low_surrogate (c : N) : bool := N.leb 56320 c && N.leb c 57343.

Definition REPLACEMENT : N := 65533.

Fixpoint code_points (s : text) : list N :=
  match s with
  | [] => []
  | c :: r =>
      if is_high_surrogate c then
        match r with
        | c' :: r' =>
            if is_low_surrogate c'
            then (65536 + (c - 55296) * 1024 + (c' - 56320))%N :: code_points r'
            else REPLACEMENT :: code_points r
        | [] => [REPLACEMENT]
        end
      else if is_low_surrogate c then REPLACEMENT :: code_points r
      else c :: code_points r
  end.

Definition utf8_of_code_point (cp : N) : list N :=
  if N.ltb cp 128 then [cp]
  else if N.ltb cp 2048 then [192 + cp / 64; 128 + cp mod 64]%N
  else if N.ltb cp 65536 then
    [224 + cp / 4096; 128 + (cp / 64) mod 64; 128 + cp mod 64]%N
  else
    [240 + cp / 262144; 128 + (cp / 4096) mod 64; 128 + (cp / 64) mod 64;
     128 + cp mod 64]%N.

Definition utf8 (s : text) : list N := flat_map utf8_of_code_point (code_points s).

(** The sign of [sqlite3_strnicmp(a, b, N)], [N] being the length of
    the shorter string:
    [while (N-- > 0 && *a != 0 && UpperToLower[*a] == UpperToLower[*b]) { a++; b++; }
     return N < 0 ? 0 : UpperToLower[*a] - UpperToLower[*b];]
    The loop stops at a NUL byte of [a]. *)
Fixpoint strnicmp (a b : list N) : comparison :=
  match a, b with
  | x :: a', y :: b' =>
      if N.eqb x 0 then N.compare (nocase_unit x) (nocase_unit y)
      else
        match N.compare (nocase_unit x) (nocase_unit y) with
        | Eq => strnicmp a' b'
        | c => c
        end
  | _, _ => Eq
  end.

(** [ORDER BY ... COLLATE NOCASE], the function [nocaseCollatingFunc]:
    [sqlite3_strnicmp] on the bytes both strings have, and the
    shorter string first when that finds no difference. *)
Definition nocase_compare (s t : text) : comparison :=
  match strnicmp (utf8 s) (utf8 t) with
  | Eq => Nat.compare (length (utf8 s)) (length (utf8 t))
  | c => c
  end.

(** [x IN (...)] under the collation BINARY. *)
Definition text_in (x : text) (l : list text) : bool := existsb (text_eqb x) l.

(** [col = ?] for a nullable column: NULL equals nothing. *)
Definition column_is (col : option text) (x : text) : bool :=
  match col with
  | Some v => text_eqb v x
  | None => false
  end.

(** The sort keys of ORDER BY, most significant first. *)
Definition lex (c1 c2 : comparison) : comparison :=
  match c1 with Eq => c2 | _ => c1 end.

Definition ROLES : list text := [lit "admin"; lit "user"; lit "editor"].

Definition CATEGORIES : list text :=
  [lit "sifi"; lit "krimi"; lit "horror"; lit "komoedie"].

(** ** The schema of [migrate] *)

(** Table [users]; [email] and [password_hash] were added by ALTER
    TABLE and are nullable. *)
Record UserRow : Type := mkUser {
  u_id : Z;
  u_name : text;
  u_role : text;
  u_created_at : text;
  u_email : option text;
  u_password_hash : option text
}.

(** Table [contents]; [slug] was added by ALTER TABLE and is nullable. *)
Record ContentRow : Type := mkContent {
  c_id : Z;
  c_title : text;
  c_description : text;
  c_category : text;
  c_image_path : text;
  c_owner_id : Z;
  c_created_at : text;
  c_slug : option text
}.

(** Tables [likes] and [favorites] have the same columns. *)
Record Mark : Type := mkMark {
  m_user_id : Z;
  m_content_id : Z;
  m_created_at : text
}.

(** The database file.  [seq_users] and [seq_contents] are the rows of
    [sqlite_sequence] that AUTOINCREMENT keeps for the two tables. *)
Record Database : Type := mkDb {
  users : list UserRow;
  contents : list ContentRow;
  likes : list Mark;
  favorites : list Mark;
  seq_users : Z;
  seq_contents : Z
}.

(** The module variable [db]: [null] when better-sqlite3 is missing. *)
Definition Handle : Type := option Database.

(** The constraint that made a statement fail (SQLITE_CONSTRAINT_...). *)
Inductive Constraint : Type :=
| CHECK
| UNIQUE
| PRIMARYKEY
| FOREIGNKEY.

(** What a write statement does: the new database and [lastInsertRowid]
    or [changes], or the constraint it violated. *)
Inductive Exec : Type :=
| Changed (db : Database) (info : Z)
| Failed (e : Constraint).

(** How a call of an exported function ends.  [Loops] stands for a
    [while] loop that has used up its fuel. *)
Inductive Completion (A : Type) : Type :=
| Returns (a : A)
| Throws (e : Constraint)
| Loops.

Arguments Returns {A} a.
Arguments Throws {A} e.
Arguments Loops {A}.

(** ** Relational operators *)

Section Relational.

Variables A B : Type.

(** [l LEFT JOIN r ON on] *)
Definition left_join (on : A -> B -> bool) (l : list A) (r : list B)
  : list (A * option B) :=
  flat_map
    (fun a =>
       match filter (on a) r with
       | [] => [(a, None)]
       | m => map (fun b => (a, Some b)) m
       end) l.

(** [l JOIN r ON on] *)
Definition inner_join (on : A -> B -> bool) (l : list A) (r : list B)
  : list (A * B) :=
  flat_map (fun a => map (fun b => (a, b)) (filter (on a) r)) l.

(** ORDER BY: a stable sort; [cmp x y = Gt] puts [y] before [x]. *)
Fixpoint insert_by (cmp : A -> A -> comparison) (x : A) (l : list A) : list A :=
  match l with
  | [] => [x]
  | y :: r =>
      match cmp x y with
      | Gt => y :: insert_by cmp x r
      | _ => x :: l
      end
  end.

Definition order_by (cmp : A -> A -> comparison) (l : list A) : list A :=
  fold_right (insert_by cmp) [] l.

End Relational.

(** The distinct values of a list, in order of first occurrence. *)
Fixpoint distinct (l : list Z) : list Z :=
  match l with
  | [] => []
  | x :: r => x :: filter (fun y => negb (Z.eqb y x)) (distinct r)
  end.

Definition mark_is (userId contentId : Z) (m : Mark) : bool :=
  Z.eqb (m_user_id m) userId && Z.eqb (m_content_id m) contentId.

Definition on_content (contentId : Z) (m : Mark) : bool :=
  Z.eqb (m_content_id m) contentId.

Definition has_user (db : Database) (id : Z) : bool :=
  existsb (fun u => Z.eqb (u_id u) id) (users db).

Definition has_content (db : Database) (id : Z) : bool :=
  existsb (fun c => Z.eqb (c_id c) id) (contents db).

(** The rowid AUTOINCREMENT picks: one more than the largest rowid the
    table has ever held. *)
Definition next_rowid (seq : Z) (ids : list Z) : Z :=
  Z.max seq (fold_right Z.max 0%Z ids) + 1.

(** ** The statements of [db/index.js] *)

Definition with_users (db : Database) (l : list UserRow) (seq : Z) : Database :=
  mkDb l (contents db) (likes db) (favorites db) seq (seq_contents db).

Definition with_contents (db : Database) (l : list ContentRow) (seq : Z) : Database :=
  mkDb (users db) l (likes db) (favorites db) (seq_users db) seq.

Definition with_likes (db : Database) (l : list Mark) : Database :=
  mkDb (users db) (contents db) l (favorites db) (seq_users db) (seq_contents db).

Definition with_favorites (db : Database) (l : list Mark) : Database :=
  mkDb (users db) (contents db) (likes db) l (seq_users db) (seq_contents db).

(** The unique index [idx_users_email_nocase]: a NULL email conflicts
    with nothing. *)
Definition email_taken (rows : list UserRow) (email : option text) : bool :=
  match email with
  | None => false
  | Some e =>
      existsb
        (fun u => match u_email u with
                  | Some e0 => nocase_eqb e0 e
                  | None => false
                  end) rows
  end.

(** [INSERT INTO users (name, email, password_hash, role, created_at)
     VALUES (?, ?, ?, ?, datetime('now'))] *)
Definition sql_insert_user (name : text) (email passwordHash : option text)
    (role now : text) (db : Database) : Exec :=
  if negb (text_in role ROLES) then Failed CHECK
  else if email_taken (users db) email then Failed UNIQUE
  else
    let id := next_rowid (seq_users db) (map u_id (users db)) in
    Changed
      (with_users db (users db ++ [mkUser id name role now email passwordHash]) id)
      id.

(** [SELECT 1 FROM contents WHERE slug = ? LIMIT 1] *)
Definition slug_exists (db : Database) (s : text) : bool :=
  existsb (fun c => column_is (c_slug c) s) (contents db).

(** [INSERT INTO contents (title, description, category, image_path,
     owner_id, slug, created_at) VALUES (?, ?, ?, ?, ?, ?, datetime('now'))] *)
Definition sql_insert_content (title description category imagePath : text)
    (ownerId : Z) (slug now : text) (db : Database) : Exec :=
  if negb (text_in category CATEGORIES) then Failed CHECK
  else if slug_exists db slug then Failed UNIQUE
  else if negb (has_user db ownerId) then Failed FOREIGNKEY
  else
    let id := next_rowid (seq_contents db) (map c_id (contents db)) in
    Changed
      (with_contents db
         (contents db ++
            [mkContent id title description category imagePath ownerId now (Some slug)])
         id)
      id.

(** The row [UPDATE contents] writes for a row it touches. *)
Definition updated (id : Z) (title description category : text)
    (imagePath : option text) (c : ContentRow) : ContentRow :=
  if Z.eqb (c_id c) id then
    mkContent (c_id c) title description category
      (match imagePath with Some p => p | None => c_image_path c end)
      (c_owner_id c) (c_created_at c) (c_slug c)
  else c.

(** [UPDATE contents SET title = ?, description = ?, category = ?
     [, image_path = ?] WHERE id = ?]; the CHECK on [category] is
    evaluated for the rows the statement touches. *)
Definition sql_update_content (id : Z) (title description category : text)
    (imagePath : option text) (db : Database) : Exec :=
  let hit := filter (fun c => Z.eqb (c_id c) id) (contents db) in
  match hit with
  | [] => Changed db 0
  | _ :: _ =>
      if negb (text_in category CATEGORIES) then Failed CHECK
      else
        Changed
          (with_contents db
             (map (updated id title description category imagePath) (contents db))
             (seq_contents db))
          (Z.of_nat (List.length hit))
  end.

(** [DELETE FROM contents WHERE id = ?]; every deleted row takes its
    likes and favorites with it (ON DELETE CASCADE). *)
Definition sql_delete_content (id : Z) (db : Database) : Exec :=
  let hit := filter (fun c => Z.eqb (c_id c) id) (contents db) in
  match hit with
  | [] => Changed db 0
  | _ :: _ =>
      Changed
        (mkDb (users db)
           (filter (fun c => negb (Z.eqb (c_id c) id)) (contents db))
           (filter (fun m => negb (on_content id m)) (likes db))
           (filter (fun m => negb (on_content id m)) (favorites db))
           (seq_users db) (seq_contents db))
        (Z.of_nat (length hit))
  end.

(** [INSERT INTO likes (user_id, content_id) VALUES (?, ?)]:
    checked against the rows [table] of [likes] or [favorites]. *)
Definition insert_mark (userId contentId : Z) (now : text)
    (db : Database) (table : list Mark) : Constraint + list Mark :=
  if existsb (mark_is userId contentId) table then inl PRIMARYKEY
  else if negb (has_user db userId && has_content db contentId) then inl FOREIGNKEY
  else inr (table ++ [mkMark userId contentId now]).

(** [DELETE FROM likes WHERE user_id = ? AND content_id = ?] *)
Definition delete_mark (userId contentId : Z) (table : list Mark) : list Mark :=
  filter (fun m => negb (mark_is userId contentId m)) table.

Definition sql_insert_like (userId contentId : Z) (now : text) (db : Database) : Exec :=
  match insert_mark userId contentId now db (likes db) with
  | inl e => Failed e
  | inr l => Changed (with_likes db l) 1
  end.

Definition sql_delete_like (userId contentId : Z) (db : Database) : Exec :=
  Changed (with_likes db (delete_mark userId contentId (likes db)))
    (Z.of_nat (length (filter (mark_is userId contentId) (likes db)))).

Definition sql_insert_favorite (userId contentId : Z) (now : text) (db : Database) : Exec :=
  match insert_mark userId contentId now db (favorites db) with
  | inl e => Failed e
  | inr l => Changed (with_favorites db l) 1
  end.

Definition sql_delete_favorite (userId contentId : Z) (db : Database) : Exec :=
  Changed (with_favorites db (delete_mark userId contentId (favorites db)))
    (Z.of_nat (length (filter (mark_is userId contentId) (favorites db)))).

(** A call that runs one write statement on the open database [h]. *)
Definition run (A : Type) (h : Handle) (x : Exec) (k : Database -> Z -> A)
  : Completion A * Handle :=
  match x with
  | Changed db' info => (Returns (k db' info), Some db')
  | Failed e => (Throws e, h)
  end.

(** ** Values the exported functions return *)

(** [new Date(s)], kept as the string it was built from. *)
Inductive Date : Type := NewDate (s : text).

Record User : Type := mkUserObj {
  user_id : Z;
  user_name : text;
  user_role : text;
  user_email : option text;
  user_createdAt : Date
}.

(** The rows of [listContents] and [listContentsFiltered]. *)
Record ContentItem : Type := mkItem {
  item_id : Z;
  item_title : text;
  item_description : text;
  item_category : text;
  item_imagePath : text;
  item_slug : option text;
  item_ownerId : Z;
  item_ownerName : option text;
  item_likeCount : Z;
  item_createdAt : Date
}.

(** The result of [getContentBySlug] and [getContentById]. *)
Record ContentDetail : Type := mkDetail {
  detail_id : Z;
  detail_title : text;
  detail_description : text;
  detail_category : text;
  detail_imagePath : text;
  detail_slug : option text;
  detail_ownerId : Z;
  detail_ownerName : option text;
  detail_createdAt : Date
}.

(** The rows of [listFavoritesOfUser]. *)
Record FavoriteItem : Type := mkFavorite {
  fav_id : Z;
  fav_title : text;
  fav_description : text;
  fav_category : text;
  fav_imagePath : text;
  fav_slug : option text;
  fav_ownerName : option text;
  fav_createdAt : Date
}.

Record LikeToggle : Type := mkLikeToggle {
  liked : bool;
  count : Z
}.

Inductive SortKey : Type := Newest | MostLiked.

(** [sort === 'likes' ? ... : ...] *)
Definition sort_key (sort : text) : SortKey :=
  if text_eqb sort (lit "likes") then MostLiked else Newest.

(** ** db/index.js: helpers *)

Definition fallbackUsers : list User :=
  [ mkUserObj 1 (lit "DB") (lit "admin") None (NewDate (lit "2024-11-02"));
    mkUserObj 2 (lit "Fallback") (lit "user") None (NewDate (lit "2025-01-15"));
    mkUserObj 3 (lit "Data") (lit "editor") None (NewDate (lit "2025-07-01")) ].

(** [`${slug}-${i}`] *)
Definition suffixed (slug : text) (i : N) : text := slug ++ DASH :: decimal i.

(** [while (exists(`${slug}-${i}`)) i++; return `${slug}-${i}`] *)
Fixpoint first_free_suffix (db : Database) (slug : text) (fuel : nat) (i : N)
  : option text :=
  match fuel with
  | O => None
  | S fuel' =>
      if slug_exists db (suffixed slug i)
      then first_free_suffix db slug fuel' (N.succ i)
      else Some (suffixed slug i)
  end.

(** The loop looks at no more candidates than there are rows, plus one. *)
Definition makeUniqueContentSlug (instance : Database) (baseSlug : text)
  : option text :=
  let slug := text_or baseSlug (lit "eintrag") in
  if negb (slug_exists instance slug) then Some slug
  else first_free_suffix instance slug (S (length (contents instance))) 2.

(** [u.name AS owner_name] of [contents c LEFT JOIN users u ON u.id = c.owner_id] *)
Definition with_owner (db : Database) (rows : list ContentRow)
  : list (ContentRow * option UserRow) :=
  left_join (fun c u => Z.eqb (u_id u) (c_owner_id c)) rows (users db).

Definition owner_name (u : option UserRow) : option text := option_map u_name u.

(** ** db/index.js: users *)

Section Store.

Variable normalizeNFKD : text -> text.
Variable toLowerCase : text -> text.

Definition getAllUsers (db : Handle) : list User :=
  match db with
  | None =>
      map (fun u => mkUserObj (user_id u) (user_name u) (user_role u) None
                      (user_createdAt u)) fallbackUsers
  | Some d =>
      let rows := order_by (fun a b => Z.compare (u_id a) (u_id b)) (users d) in
      map (fun r =>
             mkUserObj (u_id r) (u_name r) (u_role r)
               (match u_email r with
                | Some ((_ :: _) as e) => Some e
                | _ => None
                end)
               (NewDate (u_created_at r))) rows
  end.

(** [insertUser(name, role = 'user')] *)
Definition insertUser (name : text) (role : option text) (now : text) (db : Handle)
  : Completion (option Z) * Handle :=
  match db with
  | None => (Returns None, None)
  | Some d =>
      let role := match role with Some r => r | None => lit "user" end in
      run db (sql_insert_user name None None role now d) (fun _ id => Some id)
  end.

(** [SELECT id, name, role, email, password_hash, created_at
     FROM users WHERE email = ?]; [.get] gives the first row. *)
Definition getUserByEmail (email : text) (db : Handle) : option UserRow :=
  match db with
  | None => None
  | Some d => find (fun u => column_is (u_email u) email) (users d)
  end.

Definition createUser (name : text) (email passwordHash : option text)
    (role : option text) (now : text) (db : Handle)
  : Completion (option Z) * Handle :=
  match db with
  | None => (Returns None, None)
  | Some d =>
      let role := match role with Some r => r | None => lit "user" end in
      run db (sql_insert_user name email passwordHash role now d)
        (fun _ id => Some id)
  end.

(** ** db/index.js: likes, read side *)

Definition getLikeCount (contentId : Z) (db : Handle) : Z :=
  match db with
  | None => 0
  | Some d => Z.of_nat (length (filter (on_content contentId) (likes d)))
  end.

Definition hasUserLiked (userId contentId : Z) (db : Handle) : bool :=
  match db with
  | None => false
  | Some d => existsb (mark_is userId contentId) (likes d)
  end.

(** ** db/index.js: contents *)

Definition listContents (db : Handle) : list ContentItem :=
  match db with
  | None => []
  | Some d =>
      let rows :=
        order_by
          (fun a b => text_compare (c_created_at (fst b)) (c_created_at (fst a)))
          (with_owner d (contents d)) in
      map (fun r =>
             let c := fst r in
             mkItem (c_id c) (c_title c) (c_description c) (c_category c)
               (c_image_path c) (c_slug c) (c_owner_id c) (owner_name (snd r))
               (Z.of_nat (List.length (filter (on_content (c_id c)) (likes d))))
               (NewDate (c_created_at c))) rows
  end.

Definition insertContent (title description category imagePath : text)
    (ownerId : Z) (now : text) (db : Handle)
  : Completion (option Z) * Handle :=
  match db with
  | None => (Returns None, None)
  | Some d =>
      let baseSlug := slugify normalizeNFKD toLowerCase title in
      match makeUniqueContentSlug d baseSlug with
      | None => (Loops, db)
      | Some slug =>
          run db
            (sql_insert_content title description category imagePath ownerId
               slug now d)
            (fun _ id => Some id)
      end
  end.

Definition detail_of (r : ContentRow * option UserRow) : ContentDetail :=
  let c := fst r in
  mkDetail (c_id c) (c_title c) (c_description c) (c_category c)
    (c_image_path c) (c_slug c) (c_owner_id c) (owner_name (snd r))
    (NewDate (c_created_at c)).

Definition getContentBySlug (slug : text) (db : Handle) : option ContentDetail :=
  match db with
  | None => None
  | Some d =>
      option_map detail_of
        (head (with_owner d
                 (filter (fun c => column_is (c_slug c) slug) (contents d))))
  end.

Definition getContentById (id : Z) (db : Handle) : option ContentDetail :=
  match db with
  | None => None
  | Some d =>
      option_map detail_of
        (head (with_owner d
                 (filter (fun c => Z.eqb (c_id c) id) (contents d))))
  end.

Definition updateContent (id : Z) (title description category : text)
    (imagePath : option text) (db : Handle) : Completion Z * Handle :=
  match db with
  | None => (Returns 0%Z, None)
  | Some d =>
      if truthy_text imagePath then
        run db (sql_update_content id title description category imagePath d)
          (fun _ changes => changes)
      else
        run db (sql_update_content id title description category None d)
          (fun _ changes => changes)
  end.

Definition deleteContentById (id : Z) (db : Handle) : Completion Z * Handle :=
  match db with
  | None => (Returns 0%Z, None)
  | Some d => run db (sql_delete_content id d) (fun _ changes => changes)
  end.

(** ** db/index.js: likes and favorites *)

Definition toggleLike (userId contentId : Z) (now : text) (db : Handle)
  : Completion LikeToggle * Handle :=
  match db with
  | None => (Returns (mkLikeToggle false 0), None)
  | Some d =>
      let liked := hasUserLiked userId contentId db in
      run db
        (if liked then sql_delete_like userId contentId d
         else sql_insert_like userId contentId now d)
        (fun d' _ => mkLikeToggle (negb liked) (getLikeCount contentId (Some d')))
  end.

Definition getUserLikedIds (userId : Z) (db : Handle) : list Z :=
  match db with
  | None => []
  | Some d =>
      distinct
        (map m_content_id (filter (fun m => Z.eqb (m_user_id m) userId) (likes d)))
  end.

Definition isFavorite (userId contentId : Z) (db : Handle) : bool :=
  match db with
  | None => false
  | Some d => existsb (mark_is userId contentId) (favorites d)
  end.

Definition toggleFavorite (userId contentId : Z) (now : text) (db : Handle)
  : Completion bool * Handle :=
  match db with
  | None => (Returns false, None)
  | Some d =>
      let fav := isFavorite userId contentId db in
      run db
        (if fav then sql_delete_favorite userId contentId d
         else sql_insert_favorite userId contentId now d)
        (fun _ _ => negb fav)
  end.

Definition listFavoritesOfUser (userId : Z) (db : Handle) : list FavoriteItem :=
  match db with
  | None => []
  | Some d =>
      let joined :=
        left_join (fun fc u => Z.eqb (u_id u) (c_owner_id (snd fc)))
          (inner_join (fun f c => Z.eqb (c_id c) (m_content_id f))
             (favorites d) (contents d))
          (users d) in
      let rows :=
        order_by
          (fun a b =>
             text_compare (m_created_at (fst (fst b))) (m_created_at (fst (fst a))))
          (filter (fun r => Z.eqb (m_user_id (fst (fst r))) userId) joined) in
      map (fun r =>
             let c := snd (fst r) in
             mkFavorite (c_id c) (c_title c) (c_description c) (c_category c)
               (c_image_path c) (c_slug c) (owner_name (snd r))
               (NewDate (c_created_at c))) rows
  end.

(** ** db/index.js: filtering and sorting *)

Definition listAuthors (db : Handle) : list (Z * text) :=
  match db with
  | None => []
  | Some d =>
      map (fun u => (u_id u, u_name u))
        (order_by (fun a b => nocase_compare (u_name a) (u_name b)) (users d))
  end.

(** [SELECT content_id, COUNT( * ) AS likeCount FROM likes GROUP BY content_id] *)
Definition like_counts (d : Database) : list (Z * Z) :=
  map (fun id => (id, Z.of_nat (length (filter (on_content id) (likes d)))))
    (distinct (map m_content_id (likes d))).

(** [COALESCE(lc.likeCount, 0)] *)
Definition coalesce_count (lc : option (Z * Z)) : Z :=
  match lc with
  | Some p => snd p
  | None => 0
  end.

Definition FilteredRow : Type := ContentRow * option UserRow * option (Z * Z).

Definition row_content (r : FilteredRow) : ContentRow := fst (fst r).
Definition row_likes (r : FilteredRow) : Z := coalesce_count (snd r).

(** [c.created_at DESC, c.id DESC] *)
Definition newest_first (a b : FilteredRow) : comparison :=
  lex (text_compare (c_created_at (row_content b)) (c_created_at (row_content a)))
      (Z.compare (c_id (row_content b)) (c_id (row_content a))).

(** [COALESCE(lc.likeCount, 0) DESC, c.created_at DESC, c.id DESC] *)
Definition most_liked_first (a b : FilteredRow) : comparison :=
  lex (Z.compare (row_likes b) (row_likes a)) (newest_first a b).

(** The object built from a row of the result. *)
Definition filtered_item (r : FilteredRow) : ContentItem :=
  let c := row_content r in
  mkItem (c_id c) (c_title c) (c_description c) (c_category c)
    (c_image_path c) (c_slug c) (c_owner_id c)
    (owner_name (snd (fst r))) (row_likes r)
    (NewDate (c_created_at c)).

Definition listContentsFiltered (category : option text) (ownerId : option Z)
    (sort : text) (db : Handle) : list ContentItem :=
  match db with
  | None => []
  | Some d =>
      let joined :=
        left_join (fun cu lc => Z.eqb (fst lc) (c_id (fst cu)))
          (with_owner d (contents d)) (like_counts d) in
      let selected :=
        filter
          (fun r =>
             (if truthy_text category
              then column_is category (c_category (row_content r))
              else true)
             &&
             (if truthy_num ownerId
              then match ownerId with
                   | Some o => Z.eqb (c_owner_id (row_content r)) o
                   | None => false
                   end
              else true))
          joined in
      let rows :=
        order_by
          (match sort_key sort with
           | MostLiked => most_liked_first
           | Newest => newest_first
           end) selected in
      map filtered_item rows
  end.

End Store.

(** ** The constraints of the schema *)

(** PRIMARY KEY of a rowid table: no rowid occurs twice. *)
Fixpoint keys_unique (ids : list Z) : bool :=
  match ids with
  | [] => true
  | x :: r => negb (existsb (Z.eqb x) r) && keys_unique r
  end.

(** [idx_users_email_nocase] *)
Fixpoint emails_unique (rows : list UserRow) : bool :=
  match rows with
  | [] => true
  | u :: r => negb (email_taken r (u_email u)) && emails_unique r
  end.

(** [idx_contents_slug_unique]; NULL slugs do not count. *)
Fixpoint slugs_unique (rows : list ContentRow) : bool :=
  match rows with
  | [] => true
  | c :: r =>
      match c_slug c with
      | Some s => negb (existsb (fun c' => column_is (c_slug c') s) r)
      | None => true
      end && slugs_unique r
  end.

(** PRIMARY KEY (user_id, content_id) *)
Fixpoint marks_keyed (rows : list Mark) : bool :=
  match rows with
  | [] => true
  | m :: r =>
      negb (existsb (mark_is (m_user_id m) (m_content_id m)) r) && marks_keyed r
  end.

(** The two FOREIGN KEYs of [likes] and of [favorites]. *)
Definition marks_refer (db : Database) (rows : list Mark) : bool :=
  forallb (fun m => has_user db (m_user_id m) && has_content db (m_content_id m)) rows.

(** Every constraint [migrate] declares holds in [db]. *)
Definition schema_holds (db : Database) : bool :=
  keys_unique (map u_id (users db))
  && forallb (fun u => text_in (u_role u) ROLES) (users db)
  && emails_unique (users db)
  && keys_unique (map c_id (contents db))
  && forallb (fun c => text_in (c_category c) CATEGORIES) (contents db)
  && forallb (fun c => has_user db (c_owner_id c)) (contents db)
  && slugs_unique (contents db)
  && marks_keyed (likes db) && marks_refer db (likes db)
  && marks_keyed (favorites db) && marks_refer db (favorites db).

(** The same constraints, one by one. *)
Record Schema (db : Database) : Prop := {
  users_keyed : keys_unique (map u_id (users db)) = true;
  users_roles : forallb (fun u => text_in (u_role u) ROLES) (users db) = true;
  users_emails : emails_unique (users db) = true;
  contents_keyed : keys_unique (map c_id (contents db)) = true;
  contents_categories :
    forallb (fun c => text_in (c_category c) CATEGORIES) (contents db) = true;
  contents_owned : forallb (fun c => has_user db (c_owner_id c)) (contents db) = true;
  contents_slugs : slugs_unique (contents db) = true;
  likes_keyed : marks_keyed (likes db) = true;
  likes_refer : marks_refer db (likes db) = true;
  favorites_keyed : marks_keyed (favorites db) = true;
  favorites_refer : marks_refer db (favorites db) = true
}.

(** ** Words of the specification *)

(** Two characters that are equal, or a capital letter A to Z and its
    small letter. *)
Definition same_letter (x y : N) : Prop :=
  x = y \/ (upper_unit x /\ y = (x + 32)%N) \/ (upper_unit y /\ x = (y + 32)%N).

(** Two strings that differ at most in the case of the letters A to Z;
    every other character, a letter with an accent too, is the same
    in both. *)
Definition ascii_case_variant (a b : text) : Prop := Forall2 same_letter a b.

(** The row [listContentsFiltered] is to return for the content [c]. *)
Definition item_of (d : Database) (c : ContentRow) : ContentItem :=
  mkItem (c_id c) (c_title c) (c_description c) (c_category c)
    (c_image_path c) (c_slug c) (c_owner_id c)
    (owner_name (find (fun u => Z.eqb (u_id u) (c_owner_id c)) (users d)))
    (getLikeCount (c_id c) (Some d))
    (NewDate (c_created_at c)).

Definition created (i : ContentItem) : text :=
  match item_createdAt i with NewDate s => s end.

(** [a] may stand before [b] in the most-liked-first order. *)
Definition liked_before (a b : ContentItem) : Prop :=
  (item_likeCount a > item_likeCount b)%Z
  \/ (item_likeCount a = item_likeCount b
      /\ (text_compare (created a) (created b) = Gt
          \/ (created a = created b /\ (item_id a >= item_id b)%Z))).

(** A small database to run the statements on. *)
Definition demo_db : Database :=
  mkDb
    [ mkUser 1 (lit "Max") (lit "admin") (lit "2024-11-02 10:00:00")
        (Some (lit "max@kino.ch")) (Some (lit "$2b$11$hash"));
      mkUser 2 (lit "Erika") (lit "user") (lit "2025-01-15 09:30:00") None None;
      mkUser 3 (lit "Sam") (lit "editor") (lit "2025-07-01 18:45:00") None None ]
    [ mkContent 1 (lit "Die Zeitmaschine!") (lit "Klassiker") (lit "sifi")
        (lit "/uploads/a.png") 2 (lit "2025-08-01 12:00:00")
        (Some (lit "die-zeitmaschine"));
      mkContent 2 (lit "Tatort") (lit "Sonntag") (lit "krimi")
        (lit "/uploads/b.png") 1 (lit "2025-08-02 12:00:00") (Some (lit "tatort"));
      mkContent 4 (lit "Es") (lit "Clown") (lit "horror")
        (lit "/uploads/c.png") 2 (lit "2025-08-02 12:00:00") (Some (lit "es")) ]
    [ mkMark 1 1 (lit "2025-08-03 08:00:00");
      mkMark 3 1 (lit "2025-08-03 09:00:00");
      mkMark 2 4 (lit "2025-08-04 09:00:00") ]
    [ mkMark 1 4 (lit "2025-08-05 09:00:00") ]
    3 4.

(** [demo_db] after a first and a second content with the same
    normalized title have been inserted. *)
Definition demo_db_1 : Database :=
  Eval vm_compute in
    match
      snd (insertContent nfkd_model lower_model (lit "Der Pate") (lit "Mafia")
             (lit "krimi") (lit "/uploads/p1.png") 2 (lit "2025-09-01 10:00:00")
             (Some demo_db))
    with
    | Some d => d
    | None => demo_db
    end.

Definition demo_db_2 : Database :=
  Eval vm_compute in
    match
      snd (insertContent nfkd_model lower_model (lit "DER PATE!") (lit "Nochmal")
             (lit "krimi") (lit "/uploads/p2.png") 3 (lit "2025-09-01 11:00:00")
             (Some demo_db_1))
    with
    | Some d => d
    | None => demo_db_1
    end.

(** The database [migrate] makes on a first start. *)
Definition empty_db : Database := mkDb [] [] [] [] 0 0.

(** ** db/index.js: the slug backfill of [migrate] *)

Definition is_space (c : N) : bool := N.eqb c 32.

Fixpoint drop_leading_spaces (s : text) : text :=
  match s with
  | [] => []
  | c :: r => if is_space c then drop_leading_spaces r else s
  end.

Fixpoint drop_trailing_spaces (s : text) : text :=
  match s with
  | [] => []
  | c :: r =>
      match drop_trailing_spaces r with
      | [] => if is_space c then [] else [c]
      | r' => c :: r'
      end
  end.

(** [TRIM(x)] of SQLite: the spaces at both ends removed. *)
Definition sql_trim (s : text) : text :=
  drop_trailing_spaces (drop_leading_spaces s).

(** [slug IS NULL OR TRIM(slug) = ''] *)
Definition needs_slug (c : ContentRow) : bool :=
  match c_slug c with
  | None => true
  | Some s => match sql_trim s with [] => true | _ :: _ => false end
  end.

(** The row [UPDATE contents SET slug = ? WHERE id = ?] writes. *)
Definition reslugged (slug : text) (id : Z) (c : ContentRow) : ContentRow :=
  if Z.eqb (c_id c) id then
    mkContent (c_id c) (c_title c) (c_description c) (c_category c)
      (c_image_path c) (c_owner_id c) (c_created_at c) (Some slug)
  else c.

(** [UPDATE contents SET slug = ? WHERE id = ?].  [indexed] tells
    whether [idx_contents_slug_unique] exists already, as it does on
    every start but the first: the statement then fails when another
    row has the slug or when it writes the slug to two rows. *)
Definition sql_update_slug (indexed : bool) (slug : text) (id : Z) (db : Database)
  : Exec :=
  let hit := filter (fun c => Z.eqb (c_id c) id) (contents db) in
  if indexed
     && (existsb (fun c => negb (Z.eqb (c_id c) id) && column_is (c_slug c) slug)
           (contents db)
         || Nat.ltb 1 (List.length hit))
  then Failed UNIQUE
  else
    Changed
      (with_contents db (map (reslugged slug id) (contents db)) (seq_contents db))
      (Z.of_nat (List.length hit)).

(** [CREATE UNIQUE INDEX IF NOT EXISTS idx_contents_slug_unique ON
    contents(slug)]: building the index fails on a slug that two rows
    have. *)
Definition sql_create_slug_index (indexed : bool) (db : Database) : Exec :=
  if indexed || slugs_unique (contents db) then Changed db 0 else Failed UNIQUE.

Section Migrate.

Variable normalizeNFKD : text -> text.
Variable toLowerCase : text -> text.

(** The body of the transaction: [for (const r of rows) ...], with
    [rows] the ids and titles read before it began. *)
Fixpoint backfill (indexed : bool) (rows : list (Z * text)) (db : Database)
  : Completion Database :=
  match rows with
  | [] => Returns db
  | (id, title) :: rest =>
      let base := slugify normalizeNFKD toLowerCase (text_or title []) in
      match makeUniqueContentSlug db base with
      | None => Loops
      | Some unique =>
          match sql_update_slug indexed unique id db with
          | Failed e => Throws e
          | Changed db' _ => backfill indexed rest db'
          end
      end
  end.

(** The part of [migrate] from "Backfill slugs for existing content"
    to "Create unique index on slug".  A transaction that throws is
    rolled back. *)
Definition migrate_slugs (indexed : bool) (db : Database)
  : Completion unit * Database :=
  let rowsNeedingSlug :=
    map (fun c => (c_id c, c_title c)) (filter needs_slug (contents db)) in
  match backfill indexed rowsNeedingSlug db with
  | Returns db' =>
      match sql_create_slug_index indexed db' with
      | Changed db'' _ => (Returns tt, db'')
      | Failed e => (Throws e, db')
      end
  | Throws e => (Throws e, db)
  | Loops => (Loops, db)
  end.

End Migrate.

(** ** db/index.js: [seedDemoOnce] *)

(** A database together with its table [app_meta] of keys and values. *)
Record Instance : Type := mkInstance {
  data : Database;
  app_meta : list (text * text)
}.

Definition DEMO_SEED_KEY : text := lit "demo_seed_v1".

(** [SELECT 1 FROM app_meta WHERE key = ? LIMIT 1] *)
Definition meta_exists (key : text) (inst : Instance) : bool :=
  existsb (fun kv => text_eqb (fst kv) key) (app_meta inst).

(** [INSERT INTO app_meta (key, value) VALUES (?, ?)]; [key] is the
    primary key. *)
Definition sql_insert_meta (key value : text) (inst : Instance)
  : Constraint + Instance :=
  if meta_exists key inst then inl PRIMARYKEY
  else inr (mkInstance (data inst) (app_meta inst ++ [(key, value)])).

(** [INSERT INTO users (name, role, created_at) VALUES (?, ?, datetime('now'))]
    inside the transaction of [seedDemoOnce]. *)
Definition seed_user (name role now : text) (inst : Instance)
  : Constraint + Instance :=
  match sql_insert_user name None None role now (data inst) with
  | Changed d _ => inr (mkInstance d (app_meta inst))
  | Failed e => inl e
  end.

(** [now1], [now2], [now3] are the readings of [datetime('now')] and
    [iso] is [new Date().toISOString()].  The transaction is rolled
    back when a statement throws. *)
Definition seedDemoOnce (now1 now2 now3 iso : text) (inst : Instance)
  : Completion unit * Instance :=
  if meta_exists DEMO_SEED_KEY inst then (Returns tt, inst)
  else
    match seed_user (lit "Max") (lit "admin") now1 inst with
    | inl e => (Throws e, inst)
    | inr i1 =>
        match seed_user (lit "Erika") (lit "user") now2 i1 with
        | inl e => (Throws e, inst)
        | inr i2 =>
            match seed_user (lit "Sam") (lit "editor") now3 i2 with
            | inl e => (Throws e, inst)
            | inr i3 =>
                match sql_insert_meta DEMO_SEED_KEY iso i3 with
                | inl e => (Throws e, inst)
                | inr i4 => (Returns tt, i4)
                end
            end
        end
    end.

(** ** Sequences of calls *)

(** A call of one of the exported functions that write. *)
Inductive Call : Type :=
| CallInsertUser (name : text) (role : option text) (now : text)
| CallCreateUser (name : text) (email passwordHash role : option text) (now : text)
| CallInsertContent (title description category imagePath : text) (ownerId : Z)
    (now : text)
| CallUpdateContent (id : Z) (title description category : text)
    (imagePath : option text)
| CallDeleteContentById (id : Z)
| CallToggleLike (userId contentId : Z) (now : text)
| CallToggleFavorite (userId contentId : Z) (now : text).

Section Calls.

Variable normalizeNFKD : text -> text.
Variable toLowerCase : text -> text.

(** The database after the call, whether it returned or threw. *)
Definition perform (c : Call) (db : Handle) : Handle :=
  match c with
  | CallInsertUser name role now => snd (insertUser name role now db)
  | CallCreateUser name email passwordHash role now =>
      snd (createUser name email passwordHash role now db)
  | CallInsertContent title description category imagePath ownerId now =>
      snd (insertContent normalizeNFKD toLowerCase title description category
             imagePath ownerId now db)
  | CallUpdateContent id title description category imagePath =>
      snd (updateContent id title description category imagePath db)
  | CallDeleteContentById id => snd (deleteContentById id db)
  | CallToggleLike userId contentId now => snd (toggleLike userId contentId now db)
  | CallToggleFavorite userId contentId now =>
      snd (toggleFavorite userId contentId now db)
  end.

Definition replay (calls : list Call) (db : Handle) : Handle :=
  fold_left (fun h c => perform c h) calls db.

End Calls.

(** ** app.js: who may edit *)

(** [req.session.user], as far as the checks read it. *)
Record SessionUser : Type := mkSessionUser {
  su_id : Z;
  su_role : text
}.

(** The Handlebars helper [canEdit(item, currentUser)]. *)
Definition canEdit (item : option ContentDetail) (currentUser : option SessionUser)
  : bool :=
  match currentUser, item with
  | Some u, Some i =>
      text_eqb (su_role u) (lit "admin") || Z.eqb (detail_ownerId i) (su_id u)
  | _, _ => false
  end.

(** What a middleware or a handler answers. *)
Inductive Response : Type :=
| ToLogin
| Forbidden
| NotFound
| Redirected
| TypeError.

(** [requireOwnerOrAdmin(req, res, next)] with [res.locals.item] and
    [req.session.user]; [next] is the rest of the handler. *)
Definition requireOwnerOrAdmin (A : Type) (item : option ContentDetail)
    (user : option SessionUser) (deny : Response -> A) (next : A) : A :=
  match user with
  | None => deny ToLogin
  | Some u =>
      if text_eqb (su_role u) (lit "admin")
         || match item with
            | Some i => Z.eqb (detail_ownerId i) (su_id u)
            | None => false
            end
      then next
      else deny Forbidden
  end.

(** [app.post('/content/:slug/delete', requireAuth, ...)], without the
    removal of the image file.  [res.locals.item.id] throws a
    TypeError when [res.locals.item] is null. *)
Definition post_content_delete (slug : text) (user : option SessionUser) (db : Handle)
  : Response * Handle :=
  match user with
  | None => (ToLogin, db)
  | Some _ =>
      match getContentBySlug slug db with
      | None => (NotFound, db)
      | Some item =>
          let locals_item := getContentById (detail_id item) db in
          requireOwnerOrAdmin locals_item user (fun r => (r, db))
            (match locals_item with
             | None => (TypeError, db)
             | Some i => (Redirected, snd (deleteContentById (detail_id i) db))
             end)
      end
  end.

(** ** app.js: the home page *)

(** [allItems.filter((i) => i.category === cat).slice(0, 3)] for every
    category, the empty groups left out. *)
Definition home_groups (allItems : list ContentItem)
  : list (text * list ContentItem) :=
  filter (fun g => match snd g with [] => false | _ :: _ => true end)
    (map (fun cat =>
            (cat, firstn 3 (filter (fun i => text_eqb (item_category i) cat) allItems)))
       CATEGORIES).

(** [[...allItems].sort((a, b) => b.likeCount - a.likeCount).slice(0, 3)] *)
Definition home_topRated (allItems : list ContentItem) : list ContentItem :=
  firstn 3
    (order_by (fun a b => Z.compare (item_likeCount b) (item_likeCount a)) allItems).

(** ** Words for the properties below *)

(** [a] may stand before [b] in the newest-first order. *)
Definition newer_before (a b : ContentItem) : Prop :=
  text_compare (created a) (created b) = Gt
  \/ (created a = created b /\ (item_id a >= item_id b)%Z).

(** The rows a category and an owner filter let through: a missing or
    empty category and a missing or zero owner filter nothing. *)
Definition selected_by (category : option text) (ownerId : option Z)
    (c : ContentRow) : bool :=
  match category with
  | None => true
  | Some [] => true
  | Some cat => text_eqb (c_category c) cat
  end
  && match ownerId with
     | Some o => Z.eqb o 0 || Z.eqb (c_owner_id c) o
     | None => true
     end.

(** The object [getAllUsers] builds from a row. *)
Definition user_of (r : UserRow) : User :=
  mkUserObj (u_id r) (u_name r) (u_role r)
    (match u_email r with
     | Some [] => None
     | email => email
     end)
    (NewDate (u_created_at r)).


(** A row that has a slug already: the backfill of [migrate] does not
    select it. *)
Definition slugged (c : ContentRow) : bool := negb (needs_slug c).

(** The row [c] with the slug [s] in place of its own. *)
Definition with_slug (c : ContentRow) (s : text) : ContentRow :=
  mkContent (c_id c) (c_title c) (c_description c) (c_category c)
    (c_image_path c) (c_owner_id c) (c_created_at c) (Some s).

(** A database from before the column [slug]: one row has a slug, two
    have none and one has a blank one. *)
Definition legacy_db : Database :=
  mkDb
    [ mkUser 1 (lit "Max") (lit "admin") (lit "2024-11-02 10:00:00") None None ]
    [ mkContent 1 (lit "Tatort") (lit "Sonntag") (lit "krimi")
        (lit "/uploads/a.png") 1 (lit "2025-08-01 12:00:00") (Some (lit "tatort"));
      mkContent 2 (lit "TATORT") (lit "Montag") (lit "krimi")
        (lit "/uploads/b.png") 1 (lit "2025-08-02 12:00:00") None;
      mkContent 3 (lit "Es") (lit "Clown") (lit "horror")
        (lit "/uploads/c.png") 1 (lit "2025-08-03 12:00:00") (Some (lit "  "));
      mkContent 5 (lit "???") (lit "Ohne Namen") (lit "sifi")
        (lit "/uploads/d.png") 1 (lit "2025-08-04 12:00:00") None ]
    [] [] 1 5.

(** The bytes before the first NUL byte. *)
Fixpoint c_string (bytes : list N) : list N :=
  match bytes with
  | [] => []
  | b :: r => if N.eqb b 0 then [] else b :: c_string r
  end.

(** What NOCASE looks at first: the UTF-8 bytes of the string before
    the first NUL byte, the letters A to Z folded. *)
Definition nocase_key (s : text) : list N := nocase (c_string (utf8 s)).

(** [a] may stand before [b] under NOCASE: the key of [a] comes first
    byte by byte, or the keys are equal and [a] has no more bytes
    than [b]. *)
Definition nocase_before (a b : text) : Prop :=
  text_compare (nocase_key a) (nocase_key b) = Lt
  \/ (nocase_key a = nocase_key b
      /\ (List.length (utf8 a) <= List.length (utf8 b))%nat).
(** * Properties *)

(** ** The slug helper *)

Lemma well_dashed_weaken s : well_dashed true s = true -> well_dashed false s = true.
Proof.
  destruct s as [|c r]; simpl; auto.
  destruct (is_dash c); simpl; auto. discriminate.
Qed.

Lemma replace_non_alnum_well_dashed s :
  forall b, well_dashed b (replace_non_alnum b s) = true.
Proof.
  induction s as [|c r IH]; intro b; simpl; auto.
  destruct (is_alnum c) eqn:Ha.
  - simpl. destruct (is_dash c) eqn:Hd.
    + unfold is_dash, is_alnum, DASH in *. apply N.eqb_eq in Hd. subst c. discriminate.
    + rewrite Ha. simpl. apply IH.
  - destruct b; [apply IH|]. simpl. apply IH.
Qed.

Lemma drop_leading_well_dashed s :
  forall b, well_dashed b s = true -> well_dashed true (drop_leading_dashes s) = true.
Proof.
  induction s as [|c r IH]; intros b H; simpl in *; auto.
  destruct (is_dash c) eqn:Hd.
  - apply andb_prop in H. destruct H as [_ H]. eauto.
  - simpl. rewrite Hd. exact H.
Qed.

Lemma drop_trailing_well_dashed s :
  forall b, well_dashed b s = true -> well_dashed b (drop_trailing_dashes s) = true.
Proof.
  induction s as [|c r IH]; intros b H; simpl in *; auto.
  destruct (is_dash c) eqn:Hd.
  - apply andb_prop in H. destruct H as [Hb H].
    specialize (IH true H).
    destruct (drop_trailing_dashes r) as [|d r'] eqn:E; auto.
    change (well_dashed b (c :: d :: r') = true).
    cbn [well_dashed] in *. rewrite Hd, Hb. exact IH.
  - apply andb_prop in H. destruct H as [Ha H].
    specialize (IH false H).
    destruct (drop_trailing_dashes r) as [|d r'] eqn:E.
    + simpl. rewrite Hd, Ha. reflexivity.
    + change (well_dashed b (c :: d :: r') = true).
      cbn [well_dashed] in *. rewrite Hd, Ha. exact IH.
Qed.

Lemma drop_trailing_idem s :
  drop_trailing_dashes (drop_trailing_dashes s) = drop_trailing_dashes s.
Proof.
  induction s as [|c r IH]; simpl; auto.
  destruct (drop_trailing_dashes r) as [|d r'] eqn:E.
  - destruct (is_dash c) eqn:Hd; simpl; auto. rewrite Hd. reflexivity.
  - change (drop_trailing_dashes (c :: d :: r') = c :: d :: r').
    cbn [drop_trailing_dashes] in *. rewrite IH. reflexivity.
Qed.

Lemma replace_non_alnum_fix s :
  forall b, well_dashed b s = true -> replace_non_alnum b s = s.
Proof.
  induction s as [|c r IH]; intros b H; simpl in *; auto.
  destruct (is_dash c) eqn:Hd.
  - apply andb_prop in H. destruct H as [Hb H].
    assert (Ha : is_alnum c = false).
    { unfold is_dash, DASH in Hd. apply N.eqb_eq in Hd. subst c. reflexivity. }
    rewrite Ha. destruct b; [discriminate|].
    unfold is_dash in Hd. apply N.eqb_eq in Hd. subst c.
    f_equal. auto.
  - apply andb_prop in H. destruct H as [Ha H]. rewrite Ha. f_equal. auto.
Qed.

Lemma collapse_dashes_fix s :
  forall b, well_dashed b s = true -> collapse_dashes b s = s.
Proof.
  induction s as [|c r IH]; intros b H; simpl in *; auto.
  destruct (is_dash c) eqn:Hd.
  - apply andb_prop in H. destruct H as [Hb H].
    destruct b; [discriminate|]. f_equal. auto.
  - apply andb_prop in H. destruct H as [_ H]. f_equal. auto.
Qed.

Lemma drop_leading_fix s :
  well_dashed true s = true -> drop_leading_dashes s = s.
Proof.
  destruct s as [|c r]; simpl; auto.
  destruct (is_dash c); simpl; auto. discriminate.
Qed.

Lemma well_dashed_units s :
  forall b, well_dashed b s = true ->
  Forall (fun c => ascii_unit c /\ ~ upper_unit c /\
                   is_combining c = false /\ N.eqb c AMPERSAND = false) s.
Proof.
  induction s as [|c r IH]; intros b H; simpl in *; constructor.
  - unfold ascii_unit, upper_unit, is_combining, AMPERSAND.
    destruct (is_dash c) eqn:Hd.
    + unfold is_dash, DASH in Hd. apply N.eqb_eq in Hd. subst c.
      repeat split; try reflexivity; lia.
    + apply andb_prop in H. destruct H as [Ha _]. unfold is_alnum in Ha.
      assert ((97 <= c <= 122)%N \/ (48 <= c <= 57)%N) as Hc.
      { apply orb_prop in Ha.
        destruct Ha as [Ha|Ha]; apply andb_prop in Ha; destruct Ha as [H1 H2];
          apply N.leb_le in H1; apply N.leb_le in H2; lia. }
      repeat split; try lia.
      * apply andb_false_iff. left. apply N.leb_gt. lia.
      * apply N.eqb_neq. lia.
  - destruct (is_dash c); apply andb_prop in H; destruct H as [_ H]; eauto.
Qed.

Lemma remove_combining_fix s :
  Forall (fun c => is_combining c = false) s -> remove_combining s = s.
Proof.
  induction 1 as [|c r Hc _ IH]; simpl; auto.
  rewrite Hc. simpl. f_equal. exact IH.
Qed.

Lemma replace_ampersand_fix s :
  Forall (fun c => N.eqb c AMPERSAND = false) s -> replace_ampersand s = s.
Proof.
  induction 1 as [|c r Hc _ IH]; simpl; auto.
  rewrite Hc. simpl. f_equal. exact IH.
Qed.

Section SlugifyFacts.

Variable normalizeNFKD : text -> text.
Variable toLowerCase : text -> text.

Local Abbreviation slug := (slugify normalizeNFKD toLowerCase).

(** Whatever the two built-ins do, the result has the shape of a slug. *)
Lemma slugify_is_slug s : is_slug (slug s).
Proof.
  unfold is_slug, slugify. destruct s as [|c r]; [split; reflexivity|].
  set (t := replace_non_alnum false _).
  assert (Ht : well_dashed true (trim_dashes t) = true).
  { unfold trim_dashes. apply drop_trailing_well_dashed.
    apply drop_leading_well_dashed with (b := false).
    apply replace_non_alnum_well_dashed. }
  rewrite (collapse_dashes_fix _ _ (well_dashed_weaken _ Ht)).
  split; [exact Ht|]. unfold trim_dashes. apply drop_trailing_idem.
Qed.

(** ASCII text has no compatibility decomposition, and lower-casing
    changes no ASCII character other than the letters A to Z. *)
Hypothesis normalizeNFKD_ascii :
  forall s, Forall ascii_unit s -> normalizeNFKD s = s.
Hypothesis toLowerCase_ascii :
  forall s, Forall (fun c => ascii_unit c /\ ~ upper_unit c) s -> toLowerCase s = s.

Lemma slugify_fix s : is_slug s -> slug s = s.
Proof.
  intros [Hw Ht]. unfold slugify. destruct s as [|c r]; [reflexivity|].
  set (s := c :: r) in *.
  pose proof (well_dashed_units _ _ Hw) as Hu.
  rewrite normalizeNFKD_ascii
    by (eapply Forall_impl; [|exact Hu]; simpl; tauto).
  rewrite remove_combining_fix
    by (eapply Forall_impl; [|exact Hu]; simpl; tauto).
  rewrite toLowerCase_ascii
    by (eapply Forall_impl; [|exact Hu]; simpl; tauto).
  rewrite replace_ampersand_fix
    by (eapply Forall_impl; [|exact Hu]; simpl; tauto).
  rewrite (replace_non_alnum_fix _ _ (well_dashed_weaken _ Hw)).
  unfold trim_dashes. rewrite (drop_leading_fix _ Hw), Ht.
  apply collapse_dashes_fix, well_dashed_weaken, Hw.
Qed.

(** C8.  [slugify] is idempotent: slugifying a slug a second time
    changes nothing, and every string that has the shape of a slug
    (letters a-z, digits, single inner dashes) is returned as it is. *)
Theorem slugify_idempotent :
  (forall s, slug (slug s) = slug s) /\ (forall s, is_slug s -> slug s = s).
Proof.
  split.
  - intro s. apply slugify_fix, slugify_is_slug.
  - exact slugify_fix.
Qed.

End SlugifyFacts.

Lemma nfkd_model_ascii s : Forall ascii_unit s -> nfkd_model s = s.
Proof.
  induction 1 as [|c r Hc _ IH]; [reflexivity|].
  unfold nfkd_model in *. simpl. rewrite IH.
  unfold ascii_unit in Hc. unfold nfkd_unit.
  destruct c as [|p]; [reflexivity|].
  do 8 (destruct p as [p|p|]; try reflexivity); exfalso; clear -Hc; lia.
Qed.

Lemma lower_model_ascii s :
  Forall (fun c => ascii_unit c /\ ~ upper_unit c) s -> lower_model s = s.
Proof.
  induction 1 as [|c r [Hc Hu] _ IH]; [reflexivity|].
  unfold lower_model in *. simpl. rewrite IH. f_equal.
  unfold lower_unit, ascii_unit, upper_unit in *.
  destruct (N.leb 65 c && N.leb c 90) eqn:E1.
  - apply andb_prop in E1. destruct E1 as [H1 H2].
    apply N.leb_le in H1. apply N.leb_le in H2. lia.
  - destruct (N.leb 192 c) eqn:E2; [|reflexivity].
    apply N.leb_le in E2. lia.
Qed.

(** The title of the scenario in the specification. *)
Lemma slugify_idempotent_witness :
  let slug := slugify nfkd_model lower_model in
  slug (lit "Die Zeitmaschine!") = lit "die-zeitmaschine"
  /\ slug (slug (lit "Die Zeitmaschine!")) = slug (lit "Die Zeitmaschine!")
  /\ slug (lit "die-zeitmaschine") = lit "die-zeitmaschine".
Proof.
  pose proof (@slugify_idempotent nfkd_model lower_model
                nfkd_model_ascii lower_model_ascii) as [H1 H2].
  split; [reflexivity|]. split; [apply H1|].
  apply H2. split; reflexivity.
Defined.

(** ** Strings *)

Lemma text_eqb_eq a : forall b, text_eqb a b = true <-> a = b.
Proof.
  induction a as [|x a IH]; intros [|y b]; simpl; split; intro H;
    try reflexivity; try discriminate.
  - apply andb_prop in H. destruct H as [H1 H2].
    apply N.eqb_eq in H1. apply IH in H2. congruence.
  - injection H as -> ->. rewrite N.eqb_refl. simpl. apply IH. reflexivity.
Qed.

Lemma text_eqb_refl a : text_eqb a a = true.
Proof. apply text_eqb_eq. reflexivity. Qed.

Lemma text_eqb_neq a b : text_eqb a b = false <-> a <> b.
Proof.
  split; intro H.
  - intro E. apply text_eqb_eq in E. congruence.
  - destruct (text_eqb a b) eqn:E; [|reflexivity].
    apply text_eqb_eq in E. contradiction.
Qed.

Lemma column_is_true col x : column_is col x = true <-> col = Some x.
Proof.
  destruct col as [v|]; simpl.
  - rewrite text_eqb_eq. split; congruence.
  - split; discriminate.
Qed.

(** ** Lists and joins *)

Lemma head_filter_find (A : Type) (f : A -> bool) (l : list A) :
  head (filter f l) = find f l.
Proof.
  induction l as [|x l IH]; simpl; [reflexivity|].
  destruct (f x); simpl; auto.
Qed.

Lemma head_left_join (A B : Type) (on : A -> B -> bool) (l : list A) (r : list B) :
  head (left_join on l r) = option_map (fun a => (a, find (on a) r)) (head l).
Proof.
  destruct l as [|a l]; simpl; [reflexivity|].
  rewrite <- head_filter_find.
  destruct (filter (on a) r) as [|b m]; reflexivity.
Qed.

Lemma filter_none (A : Type) (f : A -> bool) (l : list A) :
  existsb f l = false -> filter f l = [].
Proof.
  induction l as [|x l IH]; simpl; [reflexivity|].
  destruct (f x); simpl; [discriminate|exact IH].
Qed.

Lemma filter_all (A : Type) (f : A -> bool) (l : list A) :
  existsb f l = false -> filter (fun x => negb (f x)) l = l.
Proof.
  induction l as [|x l IH]; simpl; [reflexivity|].
  destruct (f x); simpl; [discriminate|]. intro H. f_equal. auto.
Qed.

Lemma existsb_filter_out (A : Type) (f : A -> bool) (l : list A) :
  existsb f (filter (fun x => negb (f x)) l) = false.
Proof.
  induction l as [|x l IH]; simpl; [reflexivity|].
  destruct (f x) eqn:E; simpl; [exact IH|]. rewrite E. exact IH.
Qed.

(** ** The constraints, one by one *)

Lemma schema_holds_iff db : schema_holds db = true <-> Schema db.
Proof.
  unfold schema_holds. split.
  - intro H. repeat (apply andb_prop in H; destruct H as [H ?]).
    constructor; assumption.
  - intros []. repeat (apply andb_true_intro; split); assumption.
Qed.

(** ** Without a database *)

(** C9, as the code has it.  With no database handle every exported
    function but [getAllUsers] gives its empty result and writes nothing:
    lists are empty, lookups find nothing, counts are zero, the boolean
    queries are false, inserts return null and updates report no change.
    [getAllUsers] returns the three fallback users, each with a null
    email. *)
Theorem no_database_results :
  getAllUsers None =
    [ mkUserObj 1 (lit "DB") (lit "admin") None (NewDate (lit "2024-11-02"));
      mkUserObj 2 (lit "Fallback") (lit "user") None (NewDate (lit "2025-01-15"));
      mkUserObj 3 (lit "Data") (lit "editor") None (NewDate (lit "2025-07-01")) ]
  /\ listContents None = []
  /\ (forall category ownerId sort,
        listContentsFiltered category ownerId sort None = [])
  /\ (forall userId, listFavoritesOfUser userId None = [])
  /\ listAuthors None = []
  /\ (forall userId, getUserLikedIds userId None = [])
  /\ (forall email, getUserByEmail email None = None)
  /\ (forall slug, getContentBySlug slug None = None)
  /\ (forall id, getContentById id None = None)
  /\ (forall contentId, getLikeCount contentId None = 0%Z)
  /\ (forall userId contentId, hasUserLiked userId contentId None = false)
  /\ (forall userId contentId, isFavorite userId contentId None = false)
  /\ (forall name role now, insertUser name role now None = (Returns None, None))
  /\ (forall name email passwordHash role now,
        createUser name email passwordHash role now None = (Returns None, None))
  /\ (forall nfkd lower title description category imagePath ownerId now,
        insertContent nfkd lower title description category imagePath ownerId now None
        = (Returns None, None))
  /\ (forall id title description category imagePath,
        updateContent id title description category imagePath None
        = (Returns 0%Z, None))
  /\ (forall id, deleteContentById id None = (Returns 0%Z, None))
  /\ (forall userId contentId now,
        toggleLike userId contentId now None
        = (Returns (mkLikeToggle false 0), None))
  /\ (forall userId contentId now,
        toggleFavorite userId contentId now None = (Returns false, None)).
Proof. repeat split. Qed.

(** Where the specification promises an empty list, [getAllUsers]
    returns the three fallback users. *)
Lemma getAllUsers_fallback_not_empty :
  List.length (getAllUsers None) = 3%nat /\ getAllUsers None <> [].
Proof. split; [reflexivity|discriminate]. Qed.

(** ** Updating a content *)

Lemma getContentById_find id d :
  getContentById id (Some d) =
  option_map
    (fun c => detail_of (c, find (fun u => Z.eqb (u_id u) (c_owner_id c)) (users d)))
    (find (fun c => Z.eqb (c_id c) id) (contents d)).
Proof.
  unfold getContentById, with_owner.
  rewrite head_left_join, head_filter_find.
  destruct (find _ (contents d)); reflexivity.
Qed.

Lemma find_map_stable (A : Type) (p : A -> bool) (f : A -> A) (l : list A) :
  (forall x, p (f x) = p x) ->
  find p (map f l) = option_map f (find p l).
Proof.
  intro Hp. induction l as [|x l IH]; simpl; [reflexivity|].
  rewrite Hp. destruct (p x); auto.
Qed.

Lemma Forall2_map_same (A : Type) (R : A -> A -> Prop) (f : A -> A) (l : list A) :
  (forall x, R x (f x)) -> Forall2 R l (map f l).
Proof. intro H. induction l; simpl; constructor; auto. Qed.

Lemma find_some_filter (A : Type) (p : A -> bool) (l : list A) x :
  find p l = Some x -> exists y r, filter p l = y :: r.
Proof.
  rewrite <- head_filter_find. destruct (filter p l) as [|y r]; [discriminate|].
  eauto.
Qed.

Lemma sql_update_content_hit id title description category imagePath d c :
  find (fun c => Z.eqb (c_id c) id) (contents d) = Some c ->
  text_in category CATEGORIES = true ->
  exists changes,
    sql_update_content id title description category imagePath d =
      Changed
        (with_contents d
           (map (updated id title description category imagePath) (contents d))
           (seq_contents d)) changes
    /\ (changes >= 1)%Z.
Proof.
  intros Hf Hc. unfold sql_update_content.
  destruct (find_some_filter _ _ Hf) as (y & r & E). rewrite E, Hc. simpl negb.
  cbv iota. eexists. split; [reflexivity|]. simpl List.length. lia.
Qed.

(** C4.  For a content that exists and a category of the fixed set,
    [updateContent] returns normally and the row then carries the new
    title, description and category; it carries the new image reference
    when one is supplied (a non-empty string, the test [if (imagePath)]
    of the code) and keeps the stored one otherwise. *)
Theorem updateContent_overwrites id title description category imagePath d old :
  getContentById id (Some d) = Some old ->
  text_in category CATEGORIES = true ->
  exists changes d' new,
    updateContent id title description category imagePath (Some d)
      = (Returns changes, Some d')
    /\ (changes >= 1)%Z
    /\ getContentById id (Some d') = Some new
    /\ detail_title new = title
    /\ detail_description new = description
    /\ detail_category new = category
    /\ (forall p, imagePath = Some p -> p <> [] -> detail_imagePath new = p)
    /\ (truthy_text imagePath = false -> detail_imagePath new = detail_imagePath old).
Proof.
  intros Hold Hcat. rewrite getContentById_find in Hold.
  destruct (find _ (contents d)) as [c|] eqn:Hf; [|discriminate].
  injection Hold as <-.
  assert (Hid : Z.eqb (c_id c) id = true) by (apply find_some in Hf; apply Hf).
  set (img := if truthy_text imagePath then imagePath else None).
  destruct (@sql_update_content_hit id title description category img d c Hf Hcat)
    as (changes & Hsql & Hch).
  exists changes. eexists. eexists.
  split.
  { unfold updateContent. subst img.
    destruct (truthy_text imagePath); rewrite Hsql; reflexivity. }
  split; [exact Hch|].
  rewrite getContentById_find. simpl contents. simpl users.
  rewrite find_map_stable with (f := updated id title description category img).
  2:{ intro x. unfold updated. destruct (Z.eqb (c_id x) id) eqn:E; simpl; auto. }
  rewrite Hf. simpl option_map.
  split; [reflexivity|].
  unfold updated. rewrite Hid. simpl.
  repeat split.
  - intros p -> Hp. subst img. destruct p; [contradiction|reflexivity].
  - intro Hfalse. subst img. rewrite Hfalse. reflexivity.
Qed.

Lemma updateContent_overwrites_witness :
  exists old,
    getContentById 1 (Some demo_db) = Some old
    /\ text_in (lit "krimi") CATEGORIES = true
    /\ exists changes d' new,
         updateContent 1 (lit "Die Zeitmaschine") (lit "Neu") (lit "krimi") None
           (Some demo_db) = (Returns changes, Some d')
         /\ (changes >= 1)%Z
         /\ getContentById 1 (Some d') = Some new
         /\ detail_title new = lit "Die Zeitmaschine"
         /\ detail_description new = lit "Neu"
         /\ detail_category new = lit "krimi"
         /\ (forall p, None = Some p -> p <> [] -> detail_imagePath new = p)
         /\ (truthy_text None = false ->
             detail_imagePath new = detail_imagePath old).
Proof.
  eexists. split; [reflexivity|]. split; [reflexivity|].
  apply updateContent_overwrites; reflexivity.
Defined.

(** A category outside the fixed set is rejected by the CHECK of the
    table, and an empty image reference counts as none. *)
Example updateContent_rejects_category :
  updateContent 1 (lit "T") (lit "D") (lit "drama") None (Some demo_db)
  = (Throws CHECK, Some demo_db).
Proof. reflexivity. Qed.

Example updateContent_empty_image :
  option_map detail_imagePath
    (getContentById 1
       (snd (updateContent 1 (lit "T") (lit "D") (lit "sifi") (Some []) (Some demo_db))))
  = Some (lit "/uploads/a.png").
Proof. reflexivity. Qed.

Lemma sql_update_content_cases id title description category imagePath d :
  sql_update_content id title description category imagePath d = Changed d 0
  \/ sql_update_content id title description category imagePath d = Failed CHECK
  \/ exists changes,
       sql_update_content id title description category imagePath d =
         Changed
           (with_contents d
              (map (updated id title description category imagePath) (contents d))
              (seq_contents d)) changes.
Proof.
  unfold sql_update_content.
  destruct (filter _ (contents d)); [now left|].
  destruct (text_in category CATEGORIES); simpl; [|now (right; left)].
  right; right. eexists. reflexivity.
Qed.

(** C10.  [updateContent] leaves the tables of users, likes and
    favorites alone and keeps every row of [contents] in its place with
    its id, slug, owner and creation time; a row with another id is not
    changed at all.  This holds for every argument, and also when the
    statement throws. *)
Theorem updateContent_frame id title description category imagePath d :
  exists d',
    snd (updateContent id title description category imagePath (Some d)) = Some d'
    /\ users d' = users d
    /\ likes d' = likes d
    /\ favorites d' = favorites d
    /\ Forall2
         (fun c c' =>
            c_id c' = c_id c
            /\ c_slug c' = c_slug c
            /\ c_owner_id c' = c_owner_id c
            /\ c_created_at c' = c_created_at c
            /\ (c_id c <> id -> c' = c))
         (contents d) (contents d').
Proof.
  assert (Hsame : forall l : list ContentRow,
    Forall2 (fun c c' => c_id c' = c_id c /\ c_slug c' = c_slug c
                         /\ c_owner_id c' = c_owner_id c
                         /\ c_created_at c' = c_created_at c
                         /\ (c_id c <> id -> c' = c)) l l).
  { induction l; constructor; auto; repeat split; auto. }
  assert (Hgen : forall img,
    exists d',
      snd (run (Some d) (sql_update_content id title description category img d)
             (fun _ changes => changes)) = Some d'
      /\ users d' = users d /\ likes d' = likes d /\ favorites d' = favorites d
      /\ Forall2 (fun c c' => c_id c' = c_id c /\ c_slug c' = c_slug c
                         /\ c_owner_id c' = c_owner_id c
                         /\ c_created_at c' = c_created_at c
                         /\ (c_id c <> id -> c' = c)) (contents d) (contents d')).
  { intro img.
    destruct (sql_update_content_cases id title description category img d)
      as [E|[E|[n E]]]; rewrite E; simpl.
    - exists d. auto 6.
    - exists d. auto 6.
    - eexists. split; [reflexivity|]. simpl. repeat split.
      apply Forall2_map_same. intro c. unfold updated.
      destruct (Z.eqb (c_id c) id) eqn:Hid; simpl; repeat split; auto.
      intro Hne. apply Z.eqb_eq in Hid. contradiction. }
  unfold updateContent. destruct (truthy_text imagePath); apply Hgen.
Qed.

(** ** Likes and favorites *)

Lemma mark_is_on_content userId contentId m :
  mark_is userId contentId m = true -> on_content contentId m = true.
Proof. unfold mark_is, on_content. intro H. apply andb_prop in H. apply H. Qed.

Lemma mark_is_fields userId contentId m :
  mark_is userId contentId m = true ->
  m_user_id m = userId /\ m_content_id m = contentId.
Proof.
  unfold mark_is. intro H. apply andb_prop in H. destruct H as [H1 H2].
  apply Z.eqb_eq in H1. apply Z.eqb_eq in H2. auto.
Qed.

Lemma mark_is_new userId contentId now :
  mark_is userId contentId (mkMark userId contentId now) = true.
Proof. unfold mark_is. simpl. rewrite !Z.eqb_refl. reflexivity. Qed.

Lemma filter_nil_existsb (A : Type) (f : A -> bool) (l : list A) :
  filter f l = [] -> existsb f l = false.
Proof.
  induction l as [|x l IH]; simpl; [reflexivity|].
  destruct (f x); [discriminate|exact IH].
Qed.

(** A row that refers to a content proves that the content exists. *)
Lemma referred_content d table contentId :
  marks_refer d table = true ->
  has_content d contentId = false ->
  filter (on_content contentId) table = [].
Proof.
  unfold marks_refer. intros Href Hno.
  induction table as [|m r IH]; simpl in *; [reflexivity|].
  apply andb_prop in Href. destruct Href as [Hm Hr].
  destruct (on_content contentId m) eqn:E; [|auto].
  unfold on_content in E. apply Z.eqb_eq in E. rewrite E in Hm.
  rewrite Hno, andb_false_r in Hm. discriminate.
Qed.

Lemma marked_refers d table userId contentId :
  marks_refer d table = true ->
  existsb (mark_is userId contentId) table = true ->
  has_user d userId && has_content d contentId = true.
Proof.
  unfold marks_refer. intros Href Hex.
  apply existsb_exists in Hex. destruct Hex as (m & Hin & Hm).
  rewrite forallb_forall in Href. specialize (Href m Hin).
  apply mark_is_fields in Hm. destruct Hm as [<- <-]. exact Href.
Qed.

(** Under the primary key, exactly one row goes when a like is taken back. *)
Lemma delete_mark_count table userId contentId :
  marks_keyed table = true ->
  existsb (mark_is userId contentId) table = true ->
  List.length (filter (on_content contentId) table) =
  S (List.length (filter (on_content contentId) (delete_mark userId contentId table))).
Proof.
  unfold delete_mark.
  induction table as [|m r IH]; simpl; intros Hk Hex; [discriminate|].
  apply andb_prop in Hk. destruct Hk as [Hm Hr].
  destruct (mark_is userId contentId m) eqn:E; simpl.
  - rewrite (mark_is_on_content _ _ _ E). simpl.
    apply mark_is_fields in E. destruct E as [E1 E2]. rewrite E1, E2 in Hm.
    apply negb_true_iff in Hm. rewrite (filter_all _ _ Hm). reflexivity.
  - simpl in Hex. specialize (IH Hr Hex).
    destruct (on_content contentId m); simpl; rewrite IH; reflexivity.
Qed.

Lemma filter_app_length (A : Type) (f : A -> bool) (l : list A) x :
  f x = true -> List.length (filter f (l ++ [x])) = S (List.length (filter f l)).
Proof.
  intro H. rewrite filter_app, length_app. simpl. rewrite H. simpl. lia.
Qed.

Lemma existsb_last (A : Type) (f : A -> bool) (l : list A) x :
  f x = true -> existsb f (l ++ [x]) = true.
Proof. intro H. rewrite existsb_app. simpl. rewrite H. apply orb_true_r. Qed.

Lemma toggleLike_liked userId contentId now d :
  existsb (mark_is userId contentId) (likes d) = true ->
  snd (toggleLike userId contentId now (Some d)) =
  Some (with_likes d (delete_mark userId contentId (likes d))).
Proof. intro H. unfold toggleLike. simpl. rewrite H. reflexivity. Qed.

Lemma toggleLike_fresh userId contentId now d :
  existsb (mark_is userId contentId) (likes d) = false ->
  has_user d userId && has_content d contentId = true ->
  snd (toggleLike userId contentId now (Some d)) =
  Some (with_likes d (likes d ++ [mkMark userId contentId now])).
Proof.
  intros H Hfk. unfold toggleLike, sql_insert_like, insert_mark. simpl.
  rewrite H, Hfk. reflexivity.
Qed.

Lemma toggleLike_refused userId contentId now d :
  existsb (mark_is userId contentId) (likes d) = false ->
  has_user d userId && has_content d contentId = false ->
  toggleLike userId contentId now (Some d) = (Throws FOREIGNKEY, Some d).
Proof.
  intros H Hfk. unfold toggleLike, sql_insert_like, insert_mark. simpl.
  rewrite H, Hfk. reflexivity.
Qed.

(** C2.  In a database that satisfies its schema, two calls of
    [toggleLike] for the same user and content, one after the other,
    leave [hasUserLiked] for that pair and [getLikeCount] for that
    content as they were before the first call. *)
Theorem toggleLike_twice userId contentId now1 now2 d :
  schema_holds d = true ->
  let h1 := snd (toggleLike userId contentId now1 (Some d)) in
  let h2 := snd (toggleLike userId contentId now2 h1) in
  hasUserLiked userId contentId h2 = hasUserLiked userId contentId (Some d)
  /\ getLikeCount contentId h2 = getLikeCount contentId (Some d).
Proof.
  intro Hs. apply schema_holds_iff in Hs. destruct Hs. cbv zeta.
  destruct (existsb (mark_is userId contentId) (likes d)) eqn:Hliked.
  - (* liked: the row is deleted, then inserted again *)
    rewrite (toggleLike_liked _ _ now1 _ Hliked).
    rewrite toggleLike_fresh.
    + simpl. rewrite Hliked. split.
      * apply existsb_last, mark_is_new.
      * rewrite filter_app_length
          by (unfold on_content; simpl; apply Z.eqb_refl).
        rewrite (delete_mark_count _ _ _ likes_keyed0 Hliked). reflexivity.
    + simpl. unfold delete_mark. apply existsb_filter_out.
    + exact (marked_refers d (likes d) userId contentId likes_refer0 Hliked).
  - (* not liked: the row is inserted, if the keys allow, then deleted *)
    destruct (has_user d userId && has_content d contentId) eqn:Hfk.
    + rewrite (toggleLike_fresh _ _ now1 _ Hliked Hfk).
      rewrite toggleLike_liked
        by (simpl; apply existsb_last, mark_is_new).
      simpl. unfold delete_mark. rewrite filter_app. simpl.
      rewrite mark_is_new. simpl.
      rewrite app_nil_r, (filter_all _ _ Hliked), Hliked. auto.
    + (* FOREIGN KEY: both calls throw and change nothing *)
      rewrite (toggleLike_refused _ _ now1 _ Hliked Hfk). cbn [snd].
      rewrite (toggleLike_refused _ _ now2 _ Hliked Hfk). auto.
Qed.

Lemma toggleLike_twice_witness :
  schema_holds demo_db = true
  /\ (let h1 := snd (toggleLike 2 1 (lit "2025-09-01 10:00:00") (Some demo_db)) in
      let h2 := snd (toggleLike 2 1 (lit "2025-09-01 10:00:05") h1) in
      hasUserLiked 2 1 h2 = hasUserLiked 2 1 (Some demo_db)
      /\ getLikeCount 1 h2 = getLikeCount 1 (Some demo_db)).
Proof.
  split; [reflexivity|].
  apply (@toggleLike_twice 2 1 (lit "2025-09-01 10:00:00")
           (lit "2025-09-01 10:00:05") demo_db).
  reflexivity.
Defined.

(** ** Deleting a content *)

(** C3.  In a database that satisfies its schema, [deleteContentById]
    returns normally and afterwards no row of [likes] or [favorites]
    refers to that content: its like count is zero and no user has
    liked it or holds it as a favorite.  The rows of other contents
    stay. *)
Theorem deleteContentById_cascades id d :
  schema_holds d = true ->
  exists changes d',
    deleteContentById id (Some d) = (Returns changes, Some d')
    /\ getLikeCount id (Some d') = 0%Z
    /\ (forall userId, hasUserLiked userId id (Some d') = false)
    /\ (forall userId, isFavorite userId id (Some d') = false)
    /\ (forall m, In m (likes d') <-> In m (likes d) /\ m_content_id m <> id)
    /\ (forall m, In m (favorites d') <-> In m (favorites d) /\ m_content_id m <> id).
Proof.
  intro Hs. apply schema_holds_iff in Hs. destruct Hs.
  assert (Hnone : forall table userId,
            filter (on_content id) table = [] ->
            existsb (mark_is userId id) table = false).
  { intros table userId Hf. apply filter_nil_existsb in Hf.
    destruct (existsb (mark_is userId id) table) eqn:E; [|reflexivity].
    apply existsb_exists in E. destruct E as (m & Hin & Hm).
    apply mark_is_on_content in Hm.
    assert (existsb (on_content id) table = true)
      by (apply existsb_exists; eauto).
    congruence. }
  assert (Hkeep : forall table m,
            In m (filter (fun m => negb (on_content id m)) table) <->
            In m table /\ m_content_id m <> id).
  { intros table m. rewrite filter_In. unfold on_content.
    rewrite negb_true_iff, Z.eqb_neq. tauto. }
  assert (Hgone : forall table,
            filter (on_content id) (filter (fun m => negb (on_content id m)) table) = []).
  { intro table.
    pose proof (existsb_filter_out (on_content id) table) as H.
    apply filter_none in H. exact H. }
  assert (Hstay : forall table m,
            filter (on_content id) table = [] ->
            (In m table <-> In m table /\ m_content_id m <> id)).
  { intros table m Hf. split; [|tauto]. intro Hin. split; [exact Hin|]. intro E.
    assert (In m (filter (on_content id) table)) as Hm
      by (apply filter_In; split; [exact Hin|unfold on_content; apply Z.eqb_eq, E]).
    rewrite Hf in Hm. destruct Hm. }
  unfold deleteContentById, sql_delete_content.
  destruct (filter (fun c => Z.eqb (c_id c) id) (contents d)) as [|c hit] eqn:Hhit.
  - (* no such content: nothing refers to it *)
    assert (Hno : has_content d id = false)
      by (apply filter_nil_existsb; exact Hhit).
    pose proof (referred_content d (likes d) id likes_refer0 Hno) as Hl.
    pose proof (referred_content d (favorites d) id favorites_refer0 Hno) as Hf.
    exists 0%Z, d. cbn [run getLikeCount hasUserLiked isFavorite].
    rewrite Hl.
    split; [reflexivity|]. split; [reflexivity|].
    split; [intro; apply Hnone, Hl|].
    split; [intro; apply Hnone, Hf|].
    split; intro m; apply Hstay; assumption.
  - eexists. eexists. cbn [run getLikeCount hasUserLiked isFavorite likes favorites].
    split; [reflexivity|]. cbn [likes favorites].
    rewrite Hgone.
    split; [reflexivity|].
    split; [intro; apply Hnone, Hgone|].
    split; [intro; apply Hnone, Hgone|].
    split; intro m; apply Hkeep.
Qed.

Lemma deleteContentById_cascades_witness :
  schema_holds demo_db = true
  /\ exists changes d',
       deleteContentById 1 (Some demo_db) = (Returns changes, Some d')
       /\ getLikeCount 1 (Some d') = 0%Z
       /\ (forall userId, hasUserLiked userId 1 (Some d') = false)
       /\ (forall userId, isFavorite userId 1 (Some d') = false)
       /\ (forall m, In m (likes d') <-> In m (likes demo_db) /\ m_content_id m <> 1%Z)
       /\ (forall m, In m (favorites d') <->
                     In m (favorites demo_db) /\ m_content_id m <> 1%Z).
Proof.
  split; [reflexivity|].
  apply (@deleteContentById_cascades 1 demo_db). reflexivity.
Defined.

(** ** Users and their emails *)

Lemma upper_unit_leb z : N.leb 65 z && N.leb z 90 = true <-> upper_unit z.
Proof.
  unfold upper_unit. rewrite andb_true_iff, !N.leb_le. tauto.
Qed.

Lemma nocase_unit_cases z :
  (upper_unit z /\ nocase_unit z = (z + 32)%N) \/ (~ upper_unit z /\ nocase_unit z = z).
Proof.
  unfold nocase_unit. destruct (N.leb 65 z && N.leb z 90) eqn:E.
  - left. split; [apply upper_unit_leb, E|reflexivity].
  - right. split; [|reflexivity]. intro H. apply upper_unit_leb in H. congruence.
Qed.

Lemma same_letter_nocase x y : same_letter x y <-> nocase_unit x = nocase_unit y.
Proof.
  unfold same_letter.
  destruct (nocase_unit_cases x) as [[Hx ->]|[Hx ->]];
    destruct (nocase_unit_cases y) as [[Hy ->]|[Hy ->]];
    unfold upper_unit in *; lia.
Qed.

(** NOCASE equality is equality up to the case of the letters A to Z. *)
Lemma case_variant_nocase a b : ascii_case_variant a b <-> nocase_eqb a b = true.
Proof.
  unfold nocase_eqb, nocase, ascii_case_variant. rewrite text_eqb_eq. split.
  - induction 1 as [|x y a b Hxy _ IH]; simpl; [reflexivity|].
    apply same_letter_nocase in Hxy. congruence.
  - revert b. induction a as [|x a IH]; intros [|y b] H; simpl in H;
      try discriminate; constructor.
    + apply same_letter_nocase. congruence.
    + apply IH. congruence.
Qed.

Lemma email_taken_in rows u e e' :
  In u rows -> u_email u = Some e -> nocase_eqb e e' = true ->
  email_taken rows (Some e') = true.
Proof.
  intros Hin He Hc. simpl. apply existsb_exists. exists u.
  rewrite He. auto.
Qed.




Lemma find_unique_email rows u e :
  emails_unique rows = true ->
  In u rows -> u_email u = Some e ->
  find (fun v => column_is (u_email v) e) rows = Some u.
Proof.
  induction rows as [|v r IH]; simpl; intros Hu Hin He; [contradiction|].
  apply andb_prop in Hu. destruct Hu as [Hv Hr].
  destruct (column_is (u_email v) e) eqn:E.
  - destruct Hin as [->|Hin]; [reflexivity|].
    apply column_is_true in E. rewrite E in Hv.
    rewrite (@email_taken_in r u e e Hin He) in Hv; [discriminate|].
    unfold nocase_eqb. apply text_eqb_refl.
  - destruct Hin as [->|Hin]; [|auto].
    rewrite He in E. simpl in E. rewrite text_eqb_refl in E. discriminate.
Qed.

Lemma nocase_eqb_sym a b : nocase_eqb a b = nocase_eqb b a.
Proof.
  unfold nocase_eqb.
  destruct (text_eqb (nocase a) (nocase b)) eqn:E1;
    destruct (text_eqb (nocase b) (nocase a)) eqn:E2; try reflexivity.
  - apply text_eqb_eq in E1. apply text_eqb_neq in E2. congruence.
  - apply text_eqb_eq in E2. apply text_eqb_neq in E1. congruence.
Qed.

(** Under the unique index two stored emails that are equal up to case
    are the same string. *)
Lemma emails_unique_same rows u v e e' :
  emails_unique rows = true ->
  In u rows -> In v rows ->
  u_email u = Some e -> u_email v = Some e' ->
  nocase_eqb e e' = true -> e = e'.
Proof.
  induction rows as [|w r IH]; simpl; intros Hu Hin1 Hin2 He He' Hc; [contradiction|].
  apply andb_prop in Hu. destruct Hu as [Hw Hr].
  apply negb_true_iff in Hw.
  destruct Hin1 as [->|Hin1], Hin2 as [->|Hin2].
  - congruence.
  - rewrite He in Hw. rewrite nocase_eqb_sym in Hc.
    rewrite (@email_taken_in r v e' e Hin2 He' Hc) in Hw. discriminate.
  - rewrite He' in Hw.
    rewrite (@email_taken_in r u e e' Hin1 He Hc) in Hw. discriminate.
  - eauto.
Qed.

(** C6, as the code has it.  [getUserByEmail] compares the stored
    email with its argument exactly, case included.  In a database
    that satisfies its schema it returns the whole row of the user
    whose email is the argument, password hash included; it returns
    nothing, without throwing, when no stored email is equal to the
    argument.  So it returns nothing for an argument that differs from
    a stored email in the case of letters A to Z: the unique index,
    which folds these letters and no other, lets no such email be
    stored beside it. *)
Theorem getUserByEmail_exact d :
  schema_holds d = true ->
  (forall u e, In u (users d) -> u_email u = Some e ->
               getUserByEmail e (Some d) = Some u)
  /\ (forall e', (forall u, In u (users d) -> u_email u <> Some e') ->
                 getUserByEmail e' (Some d) = None)
  /\ (forall u e e', In u (users d) -> u_email u = Some e ->
                     ascii_case_variant e e' -> e' <> e ->
                     getUserByEmail e' (Some d) = None).
Proof.
  intro Hs. apply schema_holds_iff in Hs. destruct Hs.
  assert (Habsent : forall e', (forall u, In u (users d) -> u_email u <> Some e') ->
                               getUserByEmail e' (Some d) = None).
  { intros e' Hnone. simpl.
    destruct (find _ (users d)) as [v|] eqn:E; [|reflexivity].
    apply find_some in E. destruct E as [Hin Hv].
    apply column_is_true in Hv. elim (Hnone v Hin Hv). }
  split; [|split; [exact Habsent|]].
  - intros u e Hin He. simpl. apply find_unique_email; assumption.
  - intros u e e' Hin He Hcase Hne. apply Habsent. intros v Hv Hv'.
    apply case_variant_nocase in Hcase.
    apply Hne. symmetry.
    exact (emails_unique_same _ _ _ users_emails0 Hin Hv He Hv' Hcase).
Qed.

Lemma getUserByEmail_exact_witness :
  schema_holds demo_db = true
  /\ option_map u_password_hash (getUserByEmail (lit "max@kino.ch") (Some demo_db))
     = Some (Some (lit "$2b$11$hash"))
  /\ getUserByEmail (lit "niemand@kino.ch") (Some demo_db) = None.
Proof.
  split; [reflexivity|].
  destruct (@getUserByEmail_exact demo_db eq_refl) as (H1 & H2 & _). split.
  - rewrite (H1 (mkUser 1 (lit "Max") (lit "admin") (lit "2024-11-02 10:00:00")
                   (Some (lit "max@kino.ch")) (Some (lit "$2b$11$hash")))
                (lit "max@kino.ch")); simpl; auto.
  - apply H2. intros u Hin.
    simpl in Hin. destruct Hin as [<-|[<-|[<-|[]]]]; discriminate.
Defined.

(** Where the specification promises a match up to case, the user with
    the email max@kino.ch is not found under MAX@kino.ch. *)
Lemma getUserByEmail_case_sensitive :
  schema_holds demo_db = true
  /\ (exists u, In u (users demo_db)
                /\ u_email u = Some (lit "max@kino.ch")
                /\ ascii_case_variant (lit "max@kino.ch") (lit "MAX@kino.ch"))
  /\ getUserByEmail (lit "MAX@kino.ch") (Some demo_db) = None.
Proof.
  split; [reflexivity|]. split; [|reflexivity].
  eexists. split; [left; reflexivity|]. split; [reflexivity|].
  apply case_variant_nocase. reflexivity.
Qed.

(** ** ORDER BY *)

Lemma text_compare_refl a : text_compare a a = Eq.
Proof. induction a as [|x a IH]; simpl; [reflexivity|]. rewrite N.compare_refl. exact IH. Qed.

Lemma text_compare_eq a : forall b, text_compare a b = Eq -> a = b.
Proof.
  induction a as [|x a IH]; intros [|y b] H; simpl in H; try discriminate;
    [reflexivity|].
  destruct (N.compare x y) eqn:E; try discriminate.
  apply N.compare_eq in E. f_equal; auto.
Qed.

Lemma text_compare_antisym a : forall b, text_compare b a = CompOpp (text_compare a b).
Proof.
  induction a as [|x a IH]; intros [|y b]; simpl; try reflexivity.
  rewrite (N.compare_antisym x y).
  destruct (N.compare x y); simpl; auto.
Qed.

Lemma text_compare_lt_trans a :
  forall b c, text_compare a b = Lt -> text_compare b c = Lt -> text_compare a c = Lt.
Proof.
  induction a as [|x a IH]; intros [|y b] [|z c] H1 H2; simpl in *;
    try discriminate; try reflexivity.
  destruct (N.compare x y) eqn:Exy; try discriminate;
    destruct (N.compare y z) eqn:Eyz; try discriminate.
  - apply N.compare_eq in Exy, Eyz. subst. rewrite N.compare_refl. eauto.
  - apply N.compare_eq in Exy. subst. rewrite Eyz. reflexivity.
  - apply N.compare_eq in Eyz. subst. rewrite Exy. reflexivity.
  - rewrite N.compare_lt_iff in *.
    assert (x < z)%N as Hxz by lia. apply N.compare_lt_iff in Hxz.
    rewrite Hxz. reflexivity.
Qed.

Lemma text_compare_gt_trans a b c :
  text_compare a b = Gt -> text_compare b c = Gt -> text_compare a c = Gt.
Proof.
  intros H1 H2.
  rewrite (text_compare_antisym b a) in H1. rewrite (text_compare_antisym c b) in H2.
  rewrite (text_compare_antisym c a).
  destruct (text_compare b a) eqn:E1; try discriminate.
  destruct (text_compare c b) eqn:E2; try discriminate.
  rewrite (text_compare_lt_trans _ _ _ E2 E1). reflexivity.
Qed.

Section OrderBy.

Variable A : Type.
Variable cmp : A -> A -> comparison.

(** [x] may stand before [y]. *)
Let before (x y : A) : Prop := cmp x y <> Gt.

Lemma insert_by_perm x l : Permutation (insert_by cmp x l) (x :: l).
Proof.
  induction l as [|y l IH]; simpl; [apply Permutation_refl|].
  destruct (cmp x y); try apply Permutation_refl.
  apply Permutation_trans with (y :: x :: l).
  - apply perm_skip, IH.
  - apply perm_swap.
Qed.

Lemma order_by_perm l : Permutation (order_by cmp l) l.
Proof.
  induction l as [|x l IH]; simpl; [apply Permutation_refl|].
  apply Permutation_trans with (x :: order_by cmp l).
  - apply insert_by_perm.
  - apply perm_skip, IH.
Qed.

Hypothesis cmp_total : forall x y, cmp x y = Gt -> cmp y x <> Gt.
Hypothesis cmp_trans : forall x y z, before x y -> before y z -> before x z.

Lemma insert_by_sorted x l :
  StronglySorted before l -> StronglySorted before (insert_by cmp x l).
Proof.
  induction 1 as [|y l Hl IH Hy]; simpl.
  - constructor; constructor.
  - destruct (cmp x y) eqn:E.
    + constructor; [constructor; assumption|].
      assert (before x y) by (unfold before; congruence).
      constructor; [assumption|].
      eapply Forall_impl; [|exact Hy]. intros z Hz. eapply cmp_trans; eauto.
    + constructor; [constructor; assumption|].
      assert (before x y) by (unfold before; congruence).
      constructor; [assumption|].
      eapply Forall_impl; [|exact Hy]. intros z Hz. eapply cmp_trans; eauto.
    + constructor; [exact IH|].
      apply (Permutation_Forall (Permutation_sym (insert_by_perm x l))).
      constructor; [apply cmp_total, E|exact Hy].
Qed.

Lemma order_by_sorted l : StronglySorted before (order_by cmp l).
Proof.
  induction l as [|x l IH]; simpl; [constructor|].
  apply insert_by_sorted, IH.
Qed.

End OrderBy.

Lemma StronglySorted_map (A B : Type) (R : A -> A -> Prop) (S : B -> B -> Prop)
    (f : A -> B) (l : list A) :
  (forall x y, R x y -> S (f x) (f y)) ->
  StronglySorted R l -> StronglySorted S (map f l).
Proof.
  intro H. induction 1 as [|x l Hl IH Hx]; simpl; constructor; auto.
  apply Forall_forall. intros y Hy. apply in_map_iff in Hy.
  destruct Hy as (z & <- & Hz). apply H. rewrite Forall_forall in Hx. auto.
Qed.

(** ** Joins on a key *)

Lemma existsb_key (B : Type) (key : B -> Z) (r : list B) k :
  existsb (Z.eqb k) (map key r) = existsb (fun b => Z.eqb (key b) k) r.
Proof.
  induction r as [|b r IH]; simpl; [reflexivity|].
  rewrite IH, (Z.eqb_sym k (key b)). reflexivity.
Qed.

Lemma keys_unique_filter (B : Type) (key : B -> Z) (r : list B) k :
  keys_unique (map key r) = true ->
  filter (fun b => Z.eqb (key b) k) r =
  match find (fun b => Z.eqb (key b) k) r with
  | Some b => [b]
  | None => []
  end.
Proof.
  induction r as [|b r IH]; simpl; intro Hk; [reflexivity|].
  apply andb_prop in Hk. destruct Hk as [Hb Hr].
  destruct (Z.eqb (key b) k) eqn:E.
  - f_equal. apply filter_none. apply Z.eqb_eq in E. subst k.
    apply negb_true_iff in Hb. rewrite existsb_key in Hb. exact Hb.
  - auto.
Qed.

Lemma left_join_cons (A B : Type) (on : A -> B -> bool) a l (r : list B) :
  left_join on (a :: l) r =
  match filter (on a) r with
  | [] => [(a, None)]
  | m => map (fun b => (a, Some b)) m
  end ++ left_join on l r.
Proof. reflexivity. Qed.

Lemma left_join_on_key (A B : Type) (key : B -> Z) (k : A -> Z)
    (l : list A) (r : list B) :
  keys_unique (map key r) = true ->
  left_join (fun a b => Z.eqb (key b) (k a)) l r =
  map (fun a => (a, find (fun b => Z.eqb (key b) (k a)) r)) l.
Proof.
  intro Hk.
  induction l as [|a l IH]; [reflexivity|].
  rewrite left_join_cons, IH, (keys_unique_filter key r (k a) Hk).
  cbn [map]. destruct (find (fun b => Z.eqb (key b) (k a)) r); reflexivity.
Qed.

Lemma distinct_In l x : In x (distinct l) <-> In x l.
Proof.
  induction l as [|y l IH]; simpl; [tauto|].
  rewrite filter_In, IH, negb_true_iff, Z.eqb_neq.
  destruct (Z.eq_dec y x); intuition congruence.
Qed.

Lemma keys_unique_filter_keep (f : Z -> bool) l :
  keys_unique l = true -> keys_unique (filter f l) = true.
Proof.
  induction l as [|x l IH]; simpl; intro H; [reflexivity|].
  apply andb_prop in H. destruct H as [Hx Hl].
  destruct (f x); simpl; [|auto].
  rewrite IH by assumption. rewrite andb_true_r.
  apply negb_true_iff. apply negb_true_iff in Hx.
  destruct (existsb (Z.eqb x) (filter f l)) eqn:E; [|reflexivity].
  apply existsb_exists in E. destruct E as (y & Hy & Exy).
  apply filter_In in Hy.
  assert (existsb (Z.eqb x) l = true) by (apply existsb_exists; exists y; tauto).
  congruence.
Qed.

Lemma distinct_keys_unique l : keys_unique (distinct l) = true.
Proof.
  induction l as [|x l IH]; simpl; [reflexivity|].
  rewrite keys_unique_filter_keep by exact IH. rewrite andb_true_r.
  apply negb_true_iff.
  destruct (existsb _ _) eqn:E; [|reflexivity].
  apply existsb_exists in E. destruct E as (y & Hy & Exy).
  apply filter_In in Hy. destruct Hy as [_ Hy].
  apply Z.eqb_eq in Exy. subst y. rewrite Z.eqb_refl in Hy. discriminate.
Qed.

(** The grouped count of a content is the number of its likes, and the
    count is missing exactly when there are none. *)
Lemma like_counts_find d k :
  coalesce_count (find (fun lc => Z.eqb (fst lc) k) (like_counts d)) =
  getLikeCount k (Some d).
Proof.
  unfold like_counts, getLikeCount.
  set (cnt := fun id => Z.of_nat (List.length (filter (on_content id) (likes d)))).
  assert (Hgen : forall ks,
    coalesce_count (find (fun lc => Z.eqb (fst lc) k) (map (fun id => (id, cnt id)) ks))
    = if existsb (Z.eqb k) ks then cnt k else 0%Z).
  { induction ks as [|x ks IH]; simpl; [reflexivity|].
    rewrite (Z.eqb_sym k x).
    destruct (Z.eqb x k) eqn:E; simpl; [|exact IH].
    apply Z.eqb_eq in E. subst x. reflexivity. }
  rewrite Hgen.
  destruct (existsb (Z.eqb k) (distinct (map m_content_id (likes d)))) eqn:E;
    [reflexivity|].
  unfold cnt. rewrite filter_none; [reflexivity|].
  destruct (existsb (on_content k) (likes d)) eqn:E2; [|reflexivity].
  apply existsb_exists in E2. destruct E2 as (m & Hin & Hm).
  unfold on_content in Hm. apply Z.eqb_eq in Hm.
  assert (existsb (Z.eqb k) (distinct (map m_content_id (likes d))) = true).
  { apply existsb_exists. exists k. split; [|apply Z.eqb_refl].
    apply distinct_In. apply in_map_iff. exists m. auto. }
  congruence.
Qed.

(** ** The most-liked-first listing *)

Lemma most_liked_first_before a b :
  most_liked_first a b <> Gt <-> liked_before (filtered_item a) (filtered_item b).
Proof.
  unfold most_liked_first, newest_first, liked_before, filtered_item, created, lex.
  simpl.
  rewrite (text_compare_antisym (c_created_at (row_content a))
             (c_created_at (row_content b))).
  destruct (Z.compare_spec (row_likes b) (row_likes a)) as [El|El|El].
  - destruct (text_compare (c_created_at (row_content a))
                (c_created_at (row_content b))) eqn:Et; simpl.
    + apply text_compare_eq in Et.
      destruct (Z.compare_spec (c_id (row_content b)) (c_id (row_content a)))
        as [Ei|Ei|Ei];
        (split; intro H;
         [ first [ congruence | right; split; [lia|right; split; [assumption|lia]] ]
         | destruct H as [H|[_ [H|[_ H]]]]; solve [lia | congruence] ]).
    + split; [intros []; reflexivity|].
      intros [H|[_ [H|[H _]]]]; try lia; try discriminate.
      rewrite H, text_compare_refl in Et. discriminate.
    + split; [|discriminate]. intros _. right. split; [lia|]. left. reflexivity.
  - split; [|discriminate]. intros _. left. lia.
  - split; [intros []; reflexivity|]. intros [H|[H _]]; lia.
Qed.

Lemma liked_before_trans a b c :
  liked_before a b -> liked_before b c -> liked_before a c.
Proof.
  unfold liked_before.
  intros [H1|[E1 H1]] [H2|[E2 H2]]; try (left; lia).
  right. split; [lia|].
  destruct H1 as [H1|[T1 H1]], H2 as [H2|[T2 H2]].
  - left. eapply text_compare_gt_trans; eauto.
  - left. rewrite <- T2. exact H1.
  - left. rewrite T1. exact H2.
  - right. split; [congruence|lia].
Qed.

Lemma most_liked_first_total a b :
  most_liked_first a b = Gt -> most_liked_first b a <> Gt.
Proof.
  unfold most_liked_first, newest_first, lex.
  rewrite (Z.compare_antisym (row_likes b) (row_likes a)).
  rewrite (text_compare_antisym (c_created_at (row_content b))
             (c_created_at (row_content a))).
  rewrite (Z.compare_antisym (c_id (row_content b)) (c_id (row_content a))).
  destruct (Z.compare (row_likes b) (row_likes a)); simpl; try discriminate.
  destruct (text_compare (c_created_at (row_content b))
              (c_created_at (row_content a))); simpl; try discriminate.
  destruct (Z.compare (c_id (row_content b)) (c_id (row_content a))); simpl;
    discriminate.
Qed.

Lemma filter_true (A : Type) (l : list A) : filter (fun _ => true) l = l.
Proof. induction l; simpl; congruence. Qed.

Lemma like_counts_keys d : keys_unique (map fst (like_counts d)) = true.
Proof.
  unfold like_counts. rewrite map_map. simpl. rewrite map_id.
  apply distinct_keys_unique.
Qed.

(** The rows of the unfiltered listing before they are sorted. *)
Lemma joined_rows d :
  keys_unique (map u_id (users d)) = true ->
  map filtered_item
    (left_join (fun cu lc => Z.eqb (fst lc) (c_id (fst cu)))
       (with_owner d (contents d)) (like_counts d))
  = map (item_of d) (contents d).
Proof.
  intro Hk. unfold with_owner.
  rewrite (left_join_on_key u_id c_owner_id (contents d) (users d) Hk).
  rewrite (left_join_on_key fst (fun cu : ContentRow * option UserRow => c_id (fst cu))
             _ (like_counts d) (like_counts_keys d)).
  rewrite !map_map. apply map_ext. intro c.
  unfold filtered_item, item_of, row_likes, row_content. simpl.
  rewrite like_counts_find. reflexivity.
Qed.

(** C7.  In a database that satisfies its schema, [listContentsFiltered]
    without category and owner filter and with [sort = "likes"] returns
    one row for every content and no other row; every row carries the
    number of likes of its content; and the rows are ordered by like
    count, larger first, then by creation time, later first, then by
    id, larger first. *)
Theorem listContentsFiltered_most_liked d category ownerId :
  schema_holds d = true ->
  truthy_text category = false ->
  truthy_num ownerId = false ->
  let rows := listContentsFiltered category ownerId (lit "likes") (Some d) in
  Permutation rows (map (item_of d) (contents d))
  /\ Forall (fun r => item_likeCount r = getLikeCount (item_id r) (Some d)) rows
  /\ StronglySorted liked_before rows.
Proof.
  intros Hs Hcat Hown. apply schema_holds_iff in Hs. destruct Hs.
  unfold listContentsFiltered. rewrite Hcat, Hown.
  change (sort_key (lit "likes")) with MostLiked. cbv iota. simpl andb.
  rewrite filter_true. cbv zeta.
  assert (Hperm : Permutation
            (map filtered_item
               (order_by most_liked_first
                  (left_join (fun cu lc => Z.eqb (fst lc) (c_id (fst cu)))
                     (with_owner d (contents d)) (like_counts d))))
            (map (item_of d) (contents d))).
  { rewrite <- (joined_rows d users_keyed0).
    apply Permutation_map, order_by_perm. }
  split; [exact Hperm|]. split.
  - apply (Permutation_Forall (Permutation_sym Hperm)).
    apply Forall_forall. intros r Hr. apply in_map_iff in Hr.
    destruct Hr as (c & <- & _). reflexivity.
  - apply StronglySorted_map with (R := fun a b => most_liked_first a b <> Gt).
    + intros a b. apply most_liked_first_before.
    + apply order_by_sorted.
      * apply most_liked_first_total.
      * intros x y z Hxy Hyz. apply most_liked_first_before.
        apply most_liked_first_before in Hxy, Hyz.
        eapply liked_before_trans; eauto.
Qed.

Lemma listContentsFiltered_most_liked_witness :
  schema_holds demo_db = true
  /\ map item_id (listContentsFiltered None None (lit "likes") (Some demo_db))
     = [1; 4; 2]%Z
  /\ map item_likeCount (listContentsFiltered None None (lit "likes") (Some demo_db))
     = [2; 1; 0]%Z
  /\ (let rows := listContentsFiltered None None (lit "likes") (Some demo_db) in
      Permutation rows (map (item_of demo_db) (contents demo_db))
      /\ Forall (fun r => item_likeCount r = getLikeCount (item_id r) (Some demo_db)) rows
      /\ StronglySorted liked_before rows).
Proof.
  split; [reflexivity|]. split; [reflexivity|]. split; [reflexivity|].
  apply (@listContentsFiltered_most_liked demo_db None None); reflexivity.
Defined.

(** ** The loop of [makeUniqueContentSlug] ends *)

Lemma lit_inj s t : lit s = lit t -> s = t.
Proof.
  unfold lit. intro H.
  rewrite <- (string_of_list_ascii_of_string s), <- (string_of_list_ascii_of_string t).
  f_equal. revert H.
  generalize (list_ascii_of_string s) (list_ascii_of_string t).
  induction l as [|a l IH]; intros [|b m] H; simpl in H; try discriminate;
    [reflexivity|].
  injection H as Hab Hlm. f_equal; [|auto].
  rewrite <- (ascii_N_embedding a), <- (ascii_N_embedding b), Hab. reflexivity.
Qed.

Lemma decimal_inj i j : decimal i = decimal j -> i = j.
Proof.
  unfold decimal. intro H. apply lit_inj in H.
  assert (Some (N.to_uint i) = Some (N.to_uint j)) as E
    by (rewrite <- !NilEmpty.usu, H; reflexivity).
  injection E as E.
  rewrite <- (DecimalN.Unsigned.of_to i), <- (DecimalN.Unsigned.of_to j), E.
  reflexivity.
Qed.

Lemma suffixed_inj slug i j : suffixed slug i = suffixed slug j -> i = j.
Proof.
  unfold suffixed. intro H. apply app_inv_head in H.
  injection H as H. apply decimal_inj, H.
Qed.

Lemma slug_exists_in d s :
  slug_exists d s = true -> In (Some s) (map c_slug (contents d)).
Proof.
  unfold slug_exists. intro H. apply existsb_exists in H.
  destruct H as (c & Hin & Hc). apply column_is_true in Hc.
  apply in_map_iff. exists c. auto.
Qed.

Lemma forallb_false_witness (A : Type) (f : A -> bool) (l : list A) :
  forallb f l = false -> exists x, In x l /\ f x = false.
Proof.
  induction l as [|x l IH]; simpl; [discriminate|].
  destruct (f x) eqn:E; simpl; intro H.
  - destruct (IH H) as (y & Hy & Hf). eauto.
  - eauto.
Qed.

(** More candidates than rows: one of them is in use by no row. *)
Lemma some_candidate_unused d (candidates : list text) :
  NoDup candidates ->
  (List.length (contents d) < List.length candidates)%nat ->
  exists s, In s candidates /\ slug_exists d s = false.
Proof.
  intros Hnd Hlen.
  destruct (forallb (slug_exists d) candidates) eqn:E.
  - exfalso.
    assert (Hincl : incl (map Some candidates) (map c_slug (contents d))).
    { intros o Ho. apply in_map_iff in Ho. destruct Ho as (s & <- & Hs).
      apply slug_exists_in. rewrite forallb_forall in E. auto. }
    apply NoDup_incl_length in Hincl.
    + rewrite !length_map in Hincl. lia.
    + apply Injective_map_NoDup; [|exact Hnd]. intros x y H. congruence.
  - apply forallb_false_witness, E.
Qed.

Lemma first_free_suffix_finds d slug fuel :
  forall i,
    (exists j, (i <= j < i + N.of_nat fuel)%N
               /\ slug_exists d (suffixed slug j) = false) ->
    exists s, first_free_suffix d slug fuel i = Some s /\ slug_exists d s = false.
Proof.
  induction fuel as [|fuel IH]; intros i (j & Hj & Hfree); simpl.
  - lia.
  - destruct (slug_exists d (suffixed slug i)) eqn:E; [|eauto].
    apply IH. exists j. split; [|exact Hfree].
    assert (j <> i) by (intro; subst; congruence). lia.
Qed.

(** [makeUniqueContentSlug] always returns, and what it returns is in
    use by no row. *)
Lemma makeUniqueContentSlug_total d baseSlug :
  exists s, makeUniqueContentSlug d baseSlug = Some s /\ slug_exists d s = false.
Proof.
  unfold makeUniqueContentSlug.
  set (slug := text_or baseSlug (lit "eintrag")).
  destruct (slug_exists d slug) eqn:E; cbn [negb]; [|eauto].
  apply first_free_suffix_finds.
  set (n := List.length (contents d)).
  destruct (@some_candidate_unused d
              (map (fun k => suffixed slug (N.of_nat k)) (seq 2 (S n))))
    as (s & Hs & Hfree).
  - apply Injective_map_NoDup; [|apply seq_NoDup].
    intros x y H. apply suffixed_inj in H. lia.
  - rewrite length_map, length_seq. unfold n. lia.
  - apply in_map_iff in Hs. destruct Hs as (k & <- & Hk).
    apply in_seq in Hk. exists (N.of_nat k). split; [|exact Hfree].
    change 2%N with (N.of_nat 2). lia.
Qed.

Lemma insertContent_never_loops nfkd lower title description category imagePath
    ownerId now db :
  fst (insertContent nfkd lower title description category imagePath ownerId now db)
  <> Loops.
Proof.
  destruct db as [d|]; simpl; [|discriminate].
  destruct (makeUniqueContentSlug_total d (slugify nfkd lower title)) as (s & -> & _).
  unfold run. destruct (sql_insert_content _ _ _ _ _ _ _ _); discriminate.
Qed.

(** With a category of the fixed set and an owner that exists
    [insertContent] returns. *)
Lemma insertContent_succeeds nfkd lower title description category imagePath
    ownerId now d :
  text_in category CATEGORIES = true ->
  has_user d ownerId = true ->
  exists id d',
    insertContent nfkd lower title description category imagePath ownerId now (Some d)
    = (Returns (Some id), Some d').
Proof.
  intros Hcat Hown. unfold insertContent.
  destruct (makeUniqueContentSlug_total d (slugify nfkd lower title)) as (s & -> & Hs).
  unfold sql_insert_content. rewrite Hcat, Hs, Hown. simpl.
  eexists. eexists. reflexivity.
Qed.

(** Titles that normalize to the empty string take the base [eintrag],
    and the numbering goes on where it stands. *)
Example insertContent_fallback_base :
  let insert title h :=
    snd (insertContent nfkd_model lower_model (lit title) (lit "d") (lit "sifi")
           (lit "/uploads/x.png") 1 (lit "2025-09-01 10:00:00") h) in
  option_map (fun d => map c_slug (contents d))
    (insert "***"%string
       (insert "???"%string
          (insert "!!!"%string (Some (mkDb (users demo_db) [] [] [] 3 0)))))
  = Some [Some (lit "eintrag"); Some (lit "eintrag-2"); Some (lit "eintrag-3")].
Proof. reflexivity. Qed.

(** ** The statements keep the schema *)

Lemma forallb_impl (A : Type) (f g : A -> bool) (l : list A) :
  (forall x, In x l -> f x = true -> g x = true) ->
  forallb f l = true -> forallb g l = true.
Proof.
  intros H Hf. rewrite forallb_forall in *. auto.
Qed.

Lemma forallb_filter (A : Type) (f p : A -> bool) (l : list A) :
  forallb f l = true -> forallb f (filter p l) = true.
Proof.
  rewrite !forallb_forall. intros H x Hx. apply filter_In in Hx. apply H, Hx.
Qed.

Lemma existsb_filter_weaken (A : Type) (f p : A -> bool) (l : list A) :
  existsb f l = false -> existsb f (filter p l) = false.
Proof.
  intro H. destruct (existsb f (filter p l)) eqn:E; [|reflexivity].
  apply existsb_exists in E. destruct E as (x & Hx & Hf).
  apply filter_In in Hx.
  assert (existsb f l = true) by (apply existsb_exists; exists x; tauto).
  congruence.
Qed.

Lemma rowid_le_max ids x : In x ids -> (x <= fold_right Z.max 0 ids)%Z.
Proof.
  induction ids as [|y ids IH]; simpl; [contradiction|].
  intros [->|H]; [lia|]. specialize (IH H). lia.
Qed.

Lemma next_rowid_fresh seq ids : existsb (Z.eqb (next_rowid seq ids)) ids = false.
Proof.
  destruct (existsb _ ids) eqn:E; [|reflexivity].
  apply existsb_exists in E. destruct E as (x & Hx & Ex).
  apply Z.eqb_eq in Ex. apply rowid_le_max in Hx. unfold next_rowid in Ex. lia.
Qed.

Lemma keys_unique_app ids x :
  keys_unique ids = true -> existsb (Z.eqb x) ids = false ->
  keys_unique (ids ++ [x]) = true.
Proof.
  induction ids as [|y ids IH]; simpl; intros Hk Hx; [reflexivity|].
  apply andb_prop in Hk. destruct Hk as [Hy Hk].
  apply orb_false_elim in Hx. destruct Hx as [Hxy Hx].
  rewrite IH by assumption. rewrite andb_true_r.
  rewrite existsb_app. simpl. apply negb_true_iff in Hy.
  rewrite Hy, (Z.eqb_sym y x), Hxy. reflexivity.
Qed.

Lemma keys_unique_map_filter (B : Type) (key : B -> Z) (p : B -> bool) (l : list B) :
  keys_unique (map key l) = true -> keys_unique (map key (filter p l)) = true.
Proof.
  induction l as [|b l IH]; simpl; intro H; [reflexivity|].
  apply andb_prop in H. destruct H as [Hb Hl].
  destruct (p b); simpl; [|auto].
  rewrite IH by assumption. rewrite andb_true_r.
  apply negb_true_iff in Hb. apply negb_true_iff.
  rewrite existsb_key in *. apply existsb_filter_weaken, Hb.
Qed.

Lemma email_taken_app rows u email :
  email_taken (rows ++ [u]) email =
  email_taken rows email || email_taken [u] email.
Proof.
  destruct email as [e|]; simpl; [|reflexivity].
  rewrite existsb_app. reflexivity.
Qed.

Lemma emails_unique_app rows u :
  emails_unique rows = true -> email_taken rows (u_email u) = false ->
  emails_unique (rows ++ [u]) = true.
Proof.
  induction rows as [|v rows IH]; simpl; intros Hu Ht.
  - destruct (u_email u); reflexivity.
  - apply andb_prop in Hu. destruct Hu as [Hv Hu].
    assert (Ht1 : email_taken rows (u_email u) = false).
    { destruct (u_email u); simpl in *; [|reflexivity].
      apply orb_false_elim in Ht. apply Ht. }
    assert (Ht2 : email_taken [u] (u_email v) = false).
    { destruct (u_email v) as [e0|] eqn:Ev; [|reflexivity]. simpl.
      destruct (u_email u) as [e|] eqn:Eu; [|reflexivity].
      simpl in Ht. rewrite Ev in Ht.
      apply orb_false_elim in Ht. destruct Ht as [Hve _].
      rewrite orb_false_r, nocase_eqb_sym. exact Hve. }
    rewrite IH by assumption. rewrite andb_true_r.
    rewrite email_taken_app, Ht2, orb_false_r. exact Hv.
Qed.

Lemma slugs_unique_app rows c s :
  slugs_unique rows = true ->
  existsb (fun c' => column_is (c_slug c') s) rows = false ->
  c_slug c = Some s ->
  slugs_unique (rows ++ [c]) = true.
Proof.
  intros Hu Hs Hc.
  induction rows as [|v rows IH]; simpl in *.
  - rewrite Hc. reflexivity.
  - apply andb_prop in Hu. destruct Hu as [Hv Hu].
    apply orb_false_elim in Hs. destruct Hs as [Hvs Hs].
    rewrite IH by assumption. rewrite andb_true_r.
    destruct (c_slug v) as [t|] eqn:Ev; [|reflexivity].
    rewrite existsb_app. simpl. apply negb_true_iff in Hv.
    rewrite Hv, Hc. simpl. rewrite orb_false_r. apply negb_true_iff.
    simpl in Hvs. apply text_eqb_neq. apply text_eqb_neq in Hvs. congruence.
Qed.

Lemma slugs_unique_filter (p : ContentRow -> bool) rows :
  slugs_unique rows = true -> slugs_unique (filter p rows) = true.
Proof.
  induction rows as [|v rows IH]; simpl; intro H; [reflexivity|].
  apply andb_prop in H. destruct H as [Hv Hr].
  destruct (p v); simpl; [|auto].
  rewrite IH by assumption. rewrite andb_true_r.
  destruct (c_slug v); [|reflexivity].
  apply negb_true_iff in Hv. apply negb_true_iff.
  apply existsb_filter_weaken, Hv.
Qed.

Lemma slugs_unique_map (f : ContentRow -> ContentRow) rows :
  (forall c, c_slug (f c) = c_slug c) ->
  slugs_unique (map f rows) = slugs_unique rows.
Proof.
  intro Hf.
  assert (Hex : forall s l,
            existsb (fun c' => column_is (c_slug c') s) (map f l) =
            existsb (fun c' => column_is (c_slug c') s) l).
  { intros s l. induction l as [|w l IH]; simpl; [reflexivity|].
    rewrite IH, Hf. reflexivity. }
  induction rows as [|v rows IH]; simpl; [reflexivity|].
  rewrite IH, Hf. f_equal. destruct (c_slug v); [|reflexivity].
  rewrite Hex. reflexivity.
Qed.

Lemma marks_keyed_app table userId contentId now :
  marks_keyed table = true ->
  existsb (mark_is userId contentId) table = false ->
  marks_keyed (table ++ [mkMark userId contentId now]) = true.
Proof.
  induction table as [|m table IH]; simpl; intros Hk Hx; [reflexivity|].
  apply andb_prop in Hk. destruct Hk as [Hm Hk].
  apply orb_false_elim in Hx. destruct Hx as [Hmx Hx].
  rewrite IH by assumption. rewrite andb_true_r.
  rewrite existsb_app. simpl. apply negb_true_iff in Hm. rewrite Hm. simpl.
  rewrite orb_false_r. apply negb_true_iff.
  unfold mark_is in *. simpl.
  rewrite (Z.eqb_sym userId), (Z.eqb_sym contentId). exact Hmx.
Qed.

Lemma marks_keyed_filter (p : Mark -> bool) table :
  marks_keyed table = true -> marks_keyed (filter p table) = true.
Proof.
  induction table as [|m table IH]; simpl; intro H; [reflexivity|].
  apply andb_prop in H. destruct H as [Hm Hk].
  destruct (p m); simpl; [|auto].
  rewrite IH by assumption. rewrite andb_true_r.
  apply negb_true_iff in Hm. apply negb_true_iff.
  apply existsb_filter_weaken, Hm.
Qed.

Lemma existsb_app_l (A : Type) (f : A -> bool) (l m : list A) :
  existsb f l = true -> existsb f (l ++ m) = true.
Proof. intro H. rewrite existsb_app, H. reflexivity. Qed.

(** Rows keep their references when no user and no content goes. *)
Lemma marks_refer_grow d d' table :
  (forall x, has_user d x = true -> has_user d' x = true) ->
  (forall x, has_content d x = true -> has_content d' x = true) ->
  marks_refer d table = true -> marks_refer d' table = true.
Proof.
  intros Hu Hc. unfold marks_refer. apply forallb_impl.
  intros m _ H. apply andb_prop in H. destruct H as [H1 H2].
  rewrite (Hu _ H1), (Hc _ H2). reflexivity.
Qed.

Lemma sql_insert_user_schema name email passwordHash role now d d' id :
  sql_insert_user name email passwordHash role now d = Changed d' id ->
  Schema d -> Schema d'.
Proof.
  unfold sql_insert_user.
  destruct (text_in role ROLES) eqn:Hrole; simpl; [|discriminate].
  destruct (email_taken (users d) email) eqn:Hmail; [discriminate|].
  intro H. injection H as <- <-. intros [].
  assert (Hu : forall x, has_user d x = true ->
                         has_user (with_users d (users d ++ [mkUser
                           (next_rowid (seq_users d) (map u_id (users d)))
                           name role now email passwordHash])
                           (next_rowid (seq_users d) (map u_id (users d)))) x = true)
    by (intros x Hx; unfold has_user; simpl; apply existsb_app_l, Hx).
  constructor;
    cbn [users contents likes favorites seq_users seq_contents
         with_users with_contents with_likes with_favorites]; auto.
  - rewrite map_app. simpl. apply keys_unique_app; [assumption|].
    apply next_rowid_fresh.
  - rewrite forallb_app, users_roles0. cbn [forallb u_role]. rewrite Hrole. reflexivity.
  - apply emails_unique_app; assumption.
  - eapply forallb_impl; [|exact contents_owned0]. intros c _. apply Hu.
  - eapply marks_refer_grow; [exact Hu| |exact likes_refer0]. auto.
  - eapply marks_refer_grow; [exact Hu| |exact favorites_refer0]. auto.
Qed.

Lemma sql_insert_content_schema title description category imagePath ownerId slug
    now d d' id :
  sql_insert_content title description category imagePath ownerId slug now d
    = Changed d' id ->
  Schema d -> Schema d'.
Proof.
  unfold sql_insert_content.
  destruct (text_in category CATEGORIES) eqn:Hcat; simpl; [|discriminate].
  destruct (slug_exists d slug) eqn:Hslug; [discriminate|].
  destruct (has_user d ownerId) eqn:Hown; simpl; [|discriminate].
  intro H. injection H as <- <-. intros [].
  assert (Hc : forall x, has_content d x = true ->
                         has_content (with_contents d (contents d ++ [mkContent
                           (next_rowid (seq_contents d) (map c_id (contents d)))
                           title description category imagePath ownerId now (Some slug)])
                           (next_rowid (seq_contents d) (map c_id (contents d)))) x = true)
    by (intros x Hx; unfold has_content; simpl; apply existsb_app_l, Hx).
  constructor;
    cbn [users contents likes favorites seq_users seq_contents
         with_users with_contents with_likes with_favorites]; auto.
  - rewrite map_app. simpl. apply keys_unique_app; [assumption|].
    apply next_rowid_fresh.
  - rewrite forallb_app, contents_categories0. cbn [forallb c_category].
    rewrite Hcat. reflexivity.
  - unfold has_user in *. cbn [users with_contents]. rewrite forallb_app.
    cbn [forallb c_owner_id]. rewrite Hown, contents_owned0. reflexivity.
  - eapply slugs_unique_app; [assumption|exact Hslug|reflexivity].
  - eapply marks_refer_grow; [|exact Hc|exact likes_refer0]. auto.
  - eapply marks_refer_grow; [|exact Hc|exact favorites_refer0]. auto.
Qed.

Lemma updated_id id title description category imagePath c :
  c_id (updated id title description category imagePath c) = c_id c.
Proof. unfold updated. destruct (Z.eqb (c_id c) id); reflexivity. Qed.

Lemma sql_update_content_schema id title description category imagePath d d' n :
  sql_update_content id title description category imagePath d = Changed d' n ->
  Schema d -> Schema d'.
Proof.
  unfold sql_update_content.
  destruct (filter _ (contents d)) as [|c hit]; [intro H; injection H as <- _; auto|].
  destruct (text_in category CATEGORIES) eqn:Hcat; simpl; [|discriminate].
  intro H. injection H as <- _. intros [].
  set (f := updated id title description category imagePath).
  assert (Hids : map c_id (map f (contents d)) = map c_id (contents d)).
  { rewrite map_map. apply map_ext. intro x. apply updated_id. }
  assert (Hc : forall x, has_content d x = true ->
                         has_content (with_contents d (map f (contents d))
                                        (seq_contents d)) x = true).
  { intros x Hx. unfold has_content in *. simpl.
    rewrite <- existsb_key in *. rewrite Hids. exact Hx. }
  constructor;
    cbn [users contents likes favorites seq_users seq_contents
         with_users with_contents with_likes with_favorites]; auto.
  - rewrite Hids. assumption.
  - rewrite forallb_forall in *. intros x Hx. apply in_map_iff in Hx.
    destruct Hx as (y & <- & Hy). unfold f, updated.
    destruct (Z.eqb (c_id y) id); cbn [c_category c_owner_id]; auto.
  - rewrite forallb_forall in *. intros x Hx. apply in_map_iff in Hx.
    destruct Hx as (y & <- & Hy). specialize (contents_owned0 y Hy).
    unfold f, updated. destruct (Z.eqb (c_id y) id); cbn [c_category c_owner_id]; auto.
  - rewrite slugs_unique_map; [assumption|].
    intro x. unfold f, updated. destruct (Z.eqb (c_id x) id); reflexivity.
  - eapply marks_refer_grow; [|exact Hc|exact likes_refer0]. auto.
  - eapply marks_refer_grow; [|exact Hc|exact favorites_refer0]. auto.
Qed.

Lemma has_content_after_delete d id l f x :
  x <> id ->
  has_content d x = true ->
  has_content
    (mkDb (users d) (filter (fun c => negb (Z.eqb (c_id c) id)) (contents d)) l f
       (seq_users d) (seq_contents d)) x = true.
Proof.
  unfold has_content. simpl. intros Hne H.
  apply existsb_exists in H. destruct H as (c & Hin & Hc).
  apply existsb_exists. exists c. split; [|exact Hc].
  apply filter_In. split; [exact Hin|].
  apply Z.eqb_eq in Hc. apply negb_true_iff, Z.eqb_neq. congruence.
Qed.

Lemma sql_delete_content_schema id d d' n :
  sql_delete_content id d = Changed d' n -> Schema d -> Schema d'.
Proof.
  unfold sql_delete_content.
  destruct (filter _ (contents d)) as [|c hit]; intro H; injection H as <- _; auto.
  intros [].
  assert (Hrefer : forall table,
            marks_refer d table = true ->
            marks_refer
              (mkDb (users d) (filter (fun c => negb (Z.eqb (c_id c) id)) (contents d))
                 (filter (fun m => negb (on_content id m)) (likes d))
                 (filter (fun m => negb (on_content id m)) (favorites d))
                 (seq_users d) (seq_contents d))
              (filter (fun m => negb (on_content id m)) table) = true).
  { intros table Ht. unfold marks_refer in *. rewrite forallb_forall in *.
    intros m Hm. apply filter_In in Hm. destruct Hm as [Hin Hm].
    specialize (Ht m Hin). apply andb_prop in Ht. destruct Ht as [H1 H2].
    apply andb_true_intro. split; [exact H1|].
    apply has_content_after_delete; [|exact H2].
    unfold on_content in Hm. apply negb_true_iff, Z.eqb_neq in Hm. exact Hm. }
  constructor;
    cbn [users contents likes favorites seq_users seq_contents
         with_users with_contents with_likes with_favorites]; auto.
  - apply keys_unique_map_filter. assumption.
  - apply forallb_filter. assumption.
  - apply forallb_filter. assumption.
  - apply slugs_unique_filter. assumption.
  - apply marks_keyed_filter. assumption.
  - apply marks_keyed_filter. assumption.
Qed.

Lemma insert_mark_keeps userId contentId now d table table' :
  insert_mark userId contentId now d table = inr table' ->
  marks_keyed table = true -> marks_refer d table = true ->
  marks_keyed table' = true /\ marks_refer d table' = true.
Proof.
  unfold insert_mark.
  destruct (existsb (mark_is userId contentId) table) eqn:Hex; [discriminate|].
  destruct (has_user d userId && has_content d contentId) eqn:Hfk; simpl;
    [|discriminate].
  intro H. injection H as <-. intros Hk Hr. split.
  - apply marks_keyed_app; assumption.
  - unfold marks_refer in *. rewrite forallb_app, Hr. simpl. rewrite Hfk. reflexivity.
Qed.

Lemma delete_mark_keeps userId contentId d table :
  marks_keyed table = true -> marks_refer d table = true ->
  marks_keyed (delete_mark userId contentId table) = true
  /\ marks_refer d (delete_mark userId contentId table) = true.
Proof.
  intros Hk Hr. unfold delete_mark. split.
  - apply marks_keyed_filter, Hk.
  - apply forallb_filter, Hr.
Qed.

(** The empty database of a first start, and every database the
    exported functions make of one that satisfies the schema, satisfy
    the schema. *)
Theorem schema_is_kept d :
  schema_holds empty_db = true
  /\ (schema_holds d = true ->
      forall d',
        (forall name role now,
           snd (insertUser name role now (Some d)) = Some d' -> schema_holds d' = true)
        /\ (forall name email passwordHash role now,
              snd (createUser name email passwordHash role now (Some d)) = Some d' ->
              schema_holds d' = true)
        /\ (forall nfkd lower title description category imagePath ownerId now,
              snd (insertContent nfkd lower title description category imagePath
                     ownerId now (Some d)) = Some d' ->
              schema_holds d' = true)
        /\ (forall id title description category imagePath,
              snd (updateContent id title description category imagePath (Some d))
                = Some d' ->
              schema_holds d' = true)
        /\ (forall id,
              snd (deleteContentById id (Some d)) = Some d' -> schema_holds d' = true)
        /\ (forall userId contentId now,
              snd (toggleLike userId contentId now (Some d)) = Some d' ->
              schema_holds d' = true)
        /\ (forall userId contentId now,
              snd (toggleFavorite userId contentId now (Some d)) = Some d' ->
              schema_holds d' = true)).
Proof.
  split; [reflexivity|]. intros Hs d'.
  assert (Hrun : forall (A : Type) (x : Exec) (k : Database -> Z -> A),
            (forall d1 n, x = Changed d1 n -> Schema d1) ->
            snd (run (Some d) x k) = Some d' -> schema_holds d' = true).
  { intros A x k Hx. destruct x as [d1 n|e]; simpl; intro H; injection H as <-.
    - apply schema_holds_iff. eapply Hx. reflexivity.
    - exact Hs. }
  apply schema_holds_iff in Hs.
  repeat split.
  - intros name role now. apply Hrun. intros d1 n H.
    eapply sql_insert_user_schema; eauto.
  - intros name email passwordHash role now. apply Hrun. intros d1 n H.
    eapply sql_insert_user_schema; eauto.
  - intros nfkd lower title description category imagePath ownerId now.
    unfold insertContent. destruct (makeUniqueContentSlug d _) as [slug|].
    + apply Hrun. intros d1 n H. eapply sql_insert_content_schema; eauto.
    + simpl. intro H. injection H as <-. apply schema_holds_iff, Hs.
  - intros id title description category imagePath. unfold updateContent.
    destruct (truthy_text imagePath); apply Hrun; intros d1 n H;
      eapply sql_update_content_schema; eauto.
  - intros id. apply Hrun. intros d1 n H. eapply sql_delete_content_schema; eauto.
  - intros userId contentId now. apply Hrun. intros d1 n.
    destruct Hs. destruct (hasUserLiked userId contentId (Some d)).
    + unfold sql_delete_like. intro H. injection H as <- _.
      destruct (delete_mark_keeps userId contentId d (likes d) likes_keyed0 likes_refer0).
      constructor;
    cbn [users contents likes favorites seq_users seq_contents
         with_users with_contents with_likes with_favorites]; auto.
    + unfold sql_insert_like.
      destruct (insert_mark userId contentId now d (likes d)) as [e|l] eqn:E;
        [discriminate|].
      intro H. injection H as <- _.
      destruct (insert_mark_keeps _ _ _ _ _ E likes_keyed0 likes_refer0).
      constructor;
    cbn [users contents likes favorites seq_users seq_contents
         with_users with_contents with_likes with_favorites]; auto.
  - intros userId contentId now. apply Hrun. intros d1 n.
    destruct Hs. destruct (isFavorite userId contentId (Some d)).
    + unfold sql_delete_favorite. intro H. injection H as <- _.
      destruct (delete_mark_keeps userId contentId d (favorites d)
                  favorites_keyed0 favorites_refer0).
      constructor;
    cbn [users contents likes favorites seq_users seq_contents
         with_users with_contents with_likes with_favorites]; auto.
    + unfold sql_insert_favorite.
      destruct (insert_mark userId contentId now d (favorites d)) as [e|l] eqn:E;
        [discriminate|].
      intro H. injection H as <- _.
      destruct (insert_mark_keeps _ _ _ _ _ E favorites_keyed0 favorites_refer0).
      constructor;
    cbn [users contents likes favorites seq_users seq_contents
         with_users with_contents with_likes with_favorites]; auto.
Qed.

(** ** Creating contents *)

Lemma slug_exists_append d row seq s :
  slug_exists (with_contents d (contents d ++ [row]) seq) s =
  slug_exists d s || column_is (c_slug row) s.
Proof.
  unfold slug_exists. simpl. rewrite existsb_app. simpl.
  rewrite orb_false_r. reflexivity.
Qed.

Lemma suffix_differs (base suffix : text) : suffix <> [] -> base <> base ++ suffix.
Proof.
  intros Hs E. apply Hs.
  rewrite <- (app_nil_r base) in E at 1. apply app_inv_head in E. auto.
Qed.

Lemma makeUniqueContentSlug_unused d baseSlug :
  slug_exists d (text_or baseSlug (lit "eintrag")) = false ->
  makeUniqueContentSlug d baseSlug = Some (text_or baseSlug (lit "eintrag")).
Proof. intro H. unfold makeUniqueContentSlug. rewrite H. reflexivity. Qed.

Lemma makeUniqueContentSlug_second d baseSlug :
  slug_exists d (text_or baseSlug (lit "eintrag")) = true ->
  slug_exists d (text_or baseSlug (lit "eintrag") ++ lit "-2") = false ->
  makeUniqueContentSlug d baseSlug =
  Some (text_or baseSlug (lit "eintrag") ++ lit "-2").
Proof.
  intros H1 H2. unfold makeUniqueContentSlug. rewrite H1. simpl.
  change (suffixed (text_or baseSlug (lit "eintrag")) 2)
    with (text_or baseSlug (lit "eintrag") ++ lit "-2").
  rewrite H2. reflexivity.
Qed.

(** What a call of [insertContent] that returns has done. *)
Lemma insertContent_returns nfkd lower title description category imagePath
    ownerId now d id d' :
  insertContent nfkd lower title description category imagePath ownerId now (Some d)
    = (Returns (Some id), Some d') ->
  exists slug,
    makeUniqueContentSlug d (slugify nfkd lower title) = Some slug
    /\ slug_exists d slug = false
    /\ d' = with_contents d
              (contents d ++
                 [mkContent id title description category imagePath ownerId now
                    (Some slug)]) id.
Proof.
  unfold insertContent.
  destruct (makeUniqueContentSlug d (slugify nfkd lower title)) as [slug|];
    [|discriminate].
  unfold sql_insert_content.
  destruct (negb (text_in category CATEGORIES)); [discriminate|].
  destruct (slug_exists d slug) eqn:Hs; [discriminate|].
  destruct (negb (has_user d ownerId)); [discriminate|].
  simpl. intro H. injection H as <- <-. exists slug. auto.
Qed.

(** C1.  Two titles with the same normalized form are inserted one
    after the other, and both calls return.  The base slug is the
    normalized title, or [eintrag] when that is empty.  When neither
    the base slug nor the base slug followed by [-2] is in use before
    the first call, the first row gets the base slug and the second
    row gets the base slug followed by [-2]; the two differ, each was
    in use by no row when its call began, and slugs that were unique
    before are unique afterwards. *)
Theorem insertContent_same_title nfkd lower d title1 title2
    description1 category1 imagePath1 ownerId1 now1
    description2 category2 imagePath2 ownerId2 now2 id1 d1 id2 d2 :
  slugify nfkd lower title1 = slugify nfkd lower title2 ->
  let base := text_or (slugify nfkd lower title1) (lit "eintrag") in
  slug_exists d base = false ->
  slug_exists d (base ++ lit "-2") = false ->
  insertContent nfkd lower title1 description1 category1 imagePath1 ownerId1 now1
    (Some d) = (Returns (Some id1), Some d1) ->
  insertContent nfkd lower title2 description2 category2 imagePath2 ownerId2 now2
    (Some d1) = (Returns (Some id2), Some d2) ->
  exists row1 row2,
    contents d1 = contents d ++ [row1]
    /\ contents d2 = contents d ++ [row1; row2]
    /\ c_id row1 = id1 /\ c_id row2 = id2
    /\ c_title row1 = title1 /\ c_title row2 = title2
    /\ c_slug row1 = Some base
    /\ c_slug row2 = Some (base ++ lit "-2")
    /\ c_slug row1 <> c_slug row2
    /\ slug_exists d base = false
    /\ slug_exists d1 (base ++ lit "-2") = false
    /\ (slugs_unique (contents d) = true -> slugs_unique (contents d2) = true).
Proof.
  intros Hsame base Hbase Hsecond Hfirst Hnext.
  apply insertContent_returns in Hfirst. destruct Hfirst as (s1 & Hm1 & _ & ->).
  rewrite (makeUniqueContentSlug_unused _ _ Hbase) in Hm1. injection Hm1 as <-.
  apply insertContent_returns in Hnext. destruct Hnext as (s2 & Hm2 & _ & ->).
  assert (Hdiff : base <> base ++ lit "-2") by (apply suffix_differs; discriminate).
  assert (Hfree : forall row seq,
            c_slug row = Some base ->
            slug_exists (with_contents d (contents d ++ [row]) seq) (base ++ lit "-2")
            = false).
  { intros row seq Hrow. rewrite slug_exists_append, Hsecond, Hrow. simpl.
    apply text_eqb_neq. exact Hdiff. }
  rewrite <- Hsame in Hm2. fold base in Hm2.
  rewrite makeUniqueContentSlug_second in Hm2.
  - injection Hm2 as <-. eexists. eexists. simpl contents.
    split; [reflexivity|].
    split; [rewrite <- app_assoc; reflexivity|].
    simpl. repeat split; auto.
    + intro E. injection E as E. exact (Hdiff E).
    + intro Hu.
      eapply slugs_unique_app; [|apply (Hfree _ id1); reflexivity|reflexivity].
      eapply slugs_unique_app; [exact Hu|exact Hbase|reflexivity].
  - rewrite slug_exists_append. simpl. fold base.
    rewrite text_eqb_refl. apply orb_true_r.
  - apply Hfree. reflexivity.
Qed.

Lemma insertContent_same_title_witness :
  exists row1 row2,
    insertContent nfkd_model lower_model (lit "Der Pate") (lit "Mafia") (lit "krimi")
      (lit "/uploads/p1.png") 2 (lit "2025-09-01 10:00:00") (Some demo_db)
      = (Returns (Some 5%Z), Some demo_db_1)
    /\ insertContent nfkd_model lower_model (lit "DER PATE!") (lit "Nochmal")
         (lit "krimi") (lit "/uploads/p2.png") 3 (lit "2025-09-01 11:00:00")
         (Some demo_db_1)
       = (Returns (Some 6%Z), Some demo_db_2)
    /\ contents demo_db_1 = contents demo_db ++ [row1]
    /\ contents demo_db_2 = contents demo_db ++ [row1; row2]
    /\ c_id row1 = 5%Z /\ c_id row2 = 6%Z
    /\ c_title row1 = lit "Der Pate" /\ c_title row2 = lit "DER PATE!"
    /\ c_slug row1 = Some (lit "der-pate")
    /\ c_slug row2 = Some (lit "der-pate-2")
    /\ c_slug row1 <> c_slug row2
    /\ slug_exists demo_db (lit "der-pate") = false
    /\ slug_exists demo_db_1 (lit "der-pate-2") = false
    /\ (slugs_unique (contents demo_db) = true ->
        slugs_unique (contents demo_db_2) = true).
Proof.
  assert (H1 : insertContent nfkd_model lower_model (lit "Der Pate") (lit "Mafia")
                 (lit "krimi") (lit "/uploads/p1.png") 2 (lit "2025-09-01 10:00:00")
                 (Some demo_db) = (Returns (Some 5%Z), Some demo_db_1))
    by reflexivity.
  assert (H2 : insertContent nfkd_model lower_model (lit "DER PATE!") (lit "Nochmal")
                 (lit "krimi") (lit "/uploads/p2.png") 3 (lit "2025-09-01 11:00:00")
                 (Some demo_db_1) = (Returns (Some 6%Z), Some demo_db_2))
    by reflexivity.
  destruct (@insertContent_same_title nfkd_model lower_model demo_db
              (lit "Der Pate") (lit "DER PATE!") _ _ _ _ _ _ _ _ _ _ _ _ _ _
              eq_refl eq_refl eq_refl H1 H2) as (row1 & row2 & H).
  exists row1, row2. split; [exact H1|]. split; [exact H2|]. exact H.
Defined.

(** * Further properties *)

(** ** The slug helper, further *)

Lemma is_dash_not_alnum c : is_dash c = true -> is_alnum c = false.
Proof.
  unfold is_dash, DASH. intro H. apply N.eqb_eq in H. subst c. reflexivity.
Qed.

Lemma well_dashed_alphabet s :
  forall b, well_dashed b s = true ->
  Forall (fun c => is_alnum c = true \/ c = DASH) s.
Proof.
  induction s as [|c r IH]; intros b H; simpl in H; constructor.
  - destruct (is_dash c) eqn:Hd.
    + right. apply N.eqb_eq, Hd.
    + left. apply andb_prop in H. apply H.
  - destruct (is_dash c); apply andb_prop in H; destruct H as [_ H]; eauto.
Qed.

Lemma well_dashed_no_pair l :
  forall b r, well_dashed b (l ++ DASH :: DASH :: r) = false.
Proof.
  induction l as [|c l IH]; intros b r; simpl.
  - apply andb_false_r.
  - destruct (is_dash c); rewrite IH; apply andb_false_r.
Qed.

Lemma drop_trailing_length s :
  (List.length (drop_trailing_dashes s) <= List.length s)%nat.
Proof.
  induction s as [|c r IH]; simpl; [lia|].
  destruct (drop_trailing_dashes r); [destruct (is_dash c)|]; simpl in *; lia.
Qed.

Lemma drop_trailing_last l :
  drop_trailing_dashes (l ++ [DASH]) = drop_trailing_dashes l.
Proof.
  induction l as [|c l IH]; simpl; [reflexivity|]. rewrite IH. reflexivity.
Qed.

(** X1.  Whatever the title and whatever the two built-ins do, the
    slug consists of the characters a-z, 0-9 and the dash only, does
    not begin or end with a dash and has no two dashes in a row. *)
Theorem slugify_url_safe normalizeNFKD toLowerCase s :
  let slug := slugify normalizeNFKD toLowerCase s in
  Forall (fun c => is_alnum c = true \/ c = DASH) slug
  /\ (forall r, slug <> DASH :: r)
  /\ (forall l, slug <> l ++ [DASH])
  /\ (forall l r, slug <> l ++ DASH :: DASH :: r).
Proof.
  cbv zeta. destruct (slugify_is_slug normalizeNFKD toLowerCase s) as [Hw Ht].
  split; [eapply well_dashed_alphabet; exact Hw|]. split; [|split].
  - intros r E. rewrite E in Hw. discriminate.
  - intros l E. rewrite E in Ht. rewrite drop_trailing_last in Ht.
    pose proof (drop_trailing_length l) as Hl. rewrite Ht in Hl.
    rewrite length_app in Hl. simpl in Hl. lia.
  - intros l r E. rewrite E, well_dashed_no_pair in Hw. discriminate.
Qed.

Lemma replace_non_alnum_keeps s :
  forall b, filter is_alnum (replace_non_alnum b s) = filter is_alnum s.
Proof.
  induction s as [|c r IH]; intro b; simpl; [reflexivity|].
  destruct (is_alnum c) eqn:Ha; simpl.
  - rewrite Ha, IH. reflexivity.
  - destruct b; simpl; auto.
Qed.

Lemma drop_leading_keeps s :
  filter is_alnum (drop_leading_dashes s) = filter is_alnum s.
Proof.
  induction s as [|c r IH]; simpl; [reflexivity|].
  destruct (is_dash c) eqn:Hd; [|reflexivity].
  rewrite (is_dash_not_alnum _ Hd). exact IH.
Qed.

Lemma drop_trailing_keeps s :
  filter is_alnum (drop_trailing_dashes s) = filter is_alnum s.
Proof.
  induction s as [|c r IH]; simpl; [reflexivity|].
  destruct (drop_trailing_dashes r) as [|d r'] eqn:E.
  - simpl in IH. rewrite <- IH.
    destruct (is_dash c) eqn:Hd; simpl.
    + rewrite (is_dash_not_alnum _ Hd). reflexivity.
    + destruct (is_alnum c); reflexivity.
  - change (filter is_alnum (c :: d :: r') = filter is_alnum (c :: r)).
    cbn [filter] in *. rewrite IH. reflexivity.
Qed.

Lemma collapse_dashes_keeps s :
  forall b, filter is_alnum (collapse_dashes b s) = filter is_alnum s.
Proof.
  induction s as [|c r IH]; intro b; simpl; [reflexivity|].
  destruct (is_dash c) eqn:Hd.
  - rewrite (is_dash_not_alnum _ Hd). destruct b; simpl; rewrite ?(is_dash_not_alnum _ Hd); auto.
  - simpl. rewrite IH. reflexivity.
Qed.

Lemma well_dashed_without_alnum s :
  well_dashed true s = true -> filter is_alnum s = [] -> s = [].
Proof.
  destruct s as [|c r]; simpl; [reflexivity|].
  destruct (is_dash c); simpl; [discriminate|].
  intro H. apply andb_prop in H. destruct H as [-> _]. discriminate.
Qed.

(** X2.  The letters and digits of the slug are those of the title
    after decomposition, removal of the marks, lower-casing and the
    replacement of [&], in the same order: [slugify] drops and merges
    other characters only.  So the slug is empty exactly when the title
    is empty or has no letter or digit left. *)
Theorem slugify_keeps_alnum normalizeNFKD toLowerCase :
  let prepared s :=
    replace_ampersand (toLowerCase (remove_combining (normalizeNFKD s))) in
  (forall s, s <> [] ->
     filter is_alnum (slugify normalizeNFKD toLowerCase s)
     = filter is_alnum (prepared s))
  /\ (forall s, slugify normalizeNFKD toLowerCase s = [] <->
                s = [] \/ filter is_alnum (prepared s) = []).
Proof.
  cbv zeta.
  assert (Hkeep : forall s, s <> [] ->
            filter is_alnum (slugify normalizeNFKD toLowerCase s)
            = filter is_alnum
                (replace_ampersand (toLowerCase (remove_combining (normalizeNFKD s))))).
  { intros s Hs. unfold slugify, trim_dashes. destruct s as [|c r]; [contradiction|].
    rewrite collapse_dashes_keeps, drop_trailing_keeps, drop_leading_keeps,
      replace_non_alnum_keeps. reflexivity. }
  split; [exact Hkeep|].
  intro s. split.
  - intro E. destruct s as [|c r]; [left; reflexivity|]. right.
    rewrite <- Hkeep by discriminate. rewrite E. reflexivity.
  - intros [->|E]; [reflexivity|].
    destruct s as [|c r]; [reflexivity|].
    rewrite <- Hkeep in E by discriminate.
    destruct (slugify_is_slug normalizeNFKD toLowerCase (c :: r)) as [Hw _].
    apply well_dashed_without_alnum; assumption.
Qed.

(** ** The loop of [makeUniqueContentSlug], further *)

Lemma first_free_suffix_least d slug fuel :
  forall i s,
    first_free_suffix d slug fuel i = Some s ->
    exists k, (i <= k)%N /\ s = suffixed slug k
              /\ slug_exists d s = false
              /\ forall j, (i <= j < k)%N -> slug_exists d (suffixed slug j) = true.
Proof.
  induction fuel as [|fuel IH]; intros i s H; simpl in H; [discriminate|].
  destruct (slug_exists d (suffixed slug i)) eqn:E.
  - destruct (IH _ _ H) as (k & Hk & Hs & Hfree & Hused).
    exists k. repeat split; auto; try lia.
    intros j Hj. destruct (N.eq_dec j i) as [->|Hne]; [exact E|].
    apply Hused. lia.
  - injection H as <-. exists i. repeat split; auto; lia.
Qed.

(** X3.  [makeUniqueContentSlug] always returns, and returns a slug no
    row has: the base ([eintrag] for an empty one) when no row has it,
    and otherwise the base followed by [-i] for the least [i] from 2 on
    that is free. *)
Theorem makeUniqueContentSlug_least d baseSlug :
  let base := text_or baseSlug (lit "eintrag") in
  exists s,
    makeUniqueContentSlug d baseSlug = Some s
    /\ slug_exists d s = false
    /\ ((slug_exists d base = false /\ s = base)
        \/ (slug_exists d base = true
            /\ exists i, (2 <= i)%N /\ s = suffixed base i
                 /\ forall j, (2 <= j < i)%N ->
                              slug_exists d (suffixed base j) = true)).
Proof.
  cbv zeta.
  destruct (makeUniqueContentSlug_total d baseSlug) as (s & Hs & Hfree).
  exists s. split; [exact Hs|]. split; [exact Hfree|].
  unfold makeUniqueContentSlug in Hs.
  destruct (slug_exists d (text_or baseSlug (lit "eintrag"))) eqn:E; cbn [negb] in Hs.
  - right. split; [reflexivity|].
    apply first_free_suffix_least in Hs. destruct Hs as (k & Hk & Hsk & _ & Hused).
    exists k. auto.
  - left. injection Hs as <-. auto.
Qed.

(** ** Contents: insert, look up, update, delete *)

Lemma getContentBySlug_find slug d :
  getContentBySlug slug (Some d) =
  option_map
    (fun c => detail_of (c, find (fun u => Z.eqb (u_id u) (c_owner_id c)) (users d)))
    (find (fun c => column_is (c_slug c) slug) (contents d)).
Proof.
  unfold getContentBySlug, with_owner.
  rewrite head_left_join, head_filter_find.
  destruct (find _ (contents d)); reflexivity.
Qed.

Lemma find_absent (A : Type) (p : A -> bool) (l : list A) :
  existsb p l = false -> find p l = None.
Proof.
  induction l as [|x l IH]; simpl; [reflexivity|].
  destruct (p x); simpl; [discriminate|exact IH].
Qed.

Lemma find_last (A : Type) (p : A -> bool) (l : list A) x :
  existsb p l = false -> p x = true -> find p (l ++ [x]) = Some x.
Proof.
  induction l as [|y l IH]; simpl; intros H Hx.
  - rewrite Hx. reflexivity.
  - destruct (p y); simpl in *; [discriminate|auto].
Qed.

Lemma find_present (A : Type) (p : A -> bool) (l : list A) :
  existsb p l = true -> exists x, find p l = Some x.
Proof.
  induction l as [|y l IH]; simpl; [discriminate|].
  destruct (p y); simpl; eauto.
Qed.

Lemma next_rowid_above seq ids x : In x ids -> (x < next_rowid seq ids)%Z.
Proof. intro H. apply rowid_le_max in H. unfold next_rowid. lia. Qed.

(** What [insertContent] does in each case. *)
Lemma insertContent_cases nfkd lower title description category imagePath
    ownerId now d :
  exists slug,
    makeUniqueContentSlug d (slugify nfkd lower title) = Some slug
    /\ slug_exists d slug = false
    /\ insertContent nfkd lower title description category imagePath ownerId now
         (Some d)
       = if negb (text_in category CATEGORIES) then (Throws CHECK, Some d)
         else if negb (has_user d ownerId) then (Throws FOREIGNKEY, Some d)
         else
           let id := next_rowid (seq_contents d) (map c_id (contents d)) in
           (Returns (Some id),
            Some (with_contents d
                    (contents d ++
                       [mkContent id title description category imagePath ownerId
                          now (Some slug)]) id)).
Proof.
  destruct (makeUniqueContentSlug_total d (slugify nfkd lower title)) as (s & Hs & Hfree).
  exists s. split; [exact Hs|]. split; [exact Hfree|].
  unfold insertContent, sql_insert_content. rewrite Hs, Hfree.
  destruct (text_in category CATEGORIES); simpl; [|reflexivity].
  destruct (has_user d ownerId); reflexivity.
Qed.

(** X4.  [insertContent] throws CHECK for a category outside the fixed
    set, throws FOREIGNKEY for an owner that is no user, in both cases
    without writing, and returns otherwise.  It never fails on the
    unique index of the slugs, and the id it returns is larger than
    the id of every row the table holds. *)
Theorem insertContent_outcome nfkd lower title description category imagePath
    ownerId now d :
  let call :=
    insertContent nfkd lower title description category imagePath ownerId now
      (Some d) in
  (text_in category CATEGORIES = false -> call = (Throws CHECK, Some d))
  /\ (text_in category CATEGORIES = true -> has_user d ownerId = false ->
      call = (Throws FOREIGNKEY, Some d))
  /\ (text_in category CATEGORIES = true -> has_user d ownerId = true ->
      exists id d',
        call = (Returns (Some id), Some d')
        /\ forall c, In c (contents d) -> (c_id c < id)%Z).
Proof.
  cbv zeta.
  destruct (insertContent_cases nfkd lower title description category imagePath
              ownerId now d) as (slug & _ & _ & ->).
  repeat split.
  - intros ->. reflexivity.
  - intros -> ->. reflexivity.
  - intros -> ->. simpl. eexists. eexists. split; [reflexivity|].
    intros c Hc. apply next_rowid_above. apply in_map, Hc.
Qed.

Lemma insertContent_outcome_witness :
  insertContent nfkd_model lower_model (lit "Alien") (lit "Im Weltraum") (lit "drama")
    (lit "/uploads/x.png") 1 (lit "2025-09-01 10:00:00") (Some demo_db)
  = (Throws CHECK, Some demo_db)
  /\ insertContent nfkd_model lower_model (lit "Alien") (lit "Im Weltraum") (lit "sifi")
       (lit "/uploads/x.png") 9 (lit "2025-09-01 10:00:00") (Some demo_db)
     = (Throws FOREIGNKEY, Some demo_db)
  /\ exists id d',
       insertContent nfkd_model lower_model (lit "Alien") (lit "Im Weltraum")
         (lit "sifi") (lit "/uploads/x.png") 1 (lit "2025-09-01 10:00:00")
         (Some demo_db) = (Returns (Some id), Some d')
       /\ forall c, In c (contents demo_db) -> (c_id c < id)%Z.
Proof.
  split; [|split].
  - apply (insertContent_outcome nfkd_model lower_model (lit "Alien")
             (lit "Im Weltraum") (lit "drama") (lit "/uploads/x.png") 1
             (lit "2025-09-01 10:00:00") demo_db). reflexivity.
  - apply (insertContent_outcome nfkd_model lower_model (lit "Alien")
             (lit "Im Weltraum") (lit "sifi") (lit "/uploads/x.png") 9
             (lit "2025-09-01 10:00:00") demo_db); reflexivity.
  - apply (insertContent_outcome nfkd_model lower_model (lit "Alien")
             (lit "Im Weltraum") (lit "sifi") (lit "/uploads/x.png") 1
             (lit "2025-09-01 10:00:00") demo_db); reflexivity.
Defined.

(** X5.  A content [insertContent] has stored is found again, by the
    id the call returned and by the slug it was given, with the
    title, description, category, image and owner of the call, the
    name of the owner and the time of the call; before the call
    neither lookup found anything. *)
Theorem insertContent_then_lookup nfkd lower title description category imagePath
    ownerId now d id d' :
  insertContent nfkd lower title description category imagePath ownerId now (Some d)
    = (Returns (Some id), Some d') ->
  exists slug owner,
    In owner (users d) /\ u_id owner = ownerId
    /\ getContentById id (Some d) = None
    /\ getContentBySlug slug (Some d) = None
    /\ getContentById id (Some d')
       = Some (mkDetail id title description category imagePath (Some slug)
                 ownerId (Some (u_name owner)) (NewDate now))
    /\ getContentBySlug slug (Some d')
       = Some (mkDetail id title description category imagePath (Some slug)
                 ownerId (Some (u_name owner)) (NewDate now)).
Proof.
  destruct (insertContent_cases nfkd lower title description category imagePath
              ownerId now d) as (slug & _ & Hfree & ->).
  destruct (text_in category CATEGORIES); cbn [negb]; [|discriminate].
  destruct (has_user d ownerId) eqn:Hown; cbn [negb]; [|discriminate].
  cbv zeta. intro H. injection H as <- <-.
  destruct (find_present _ _ Hown) as (owner & Howner).
  pose proof (find_some _ _ Howner) as [Hin Hid]. apply Z.eqb_eq in Hid.
  pose proof (next_rowid_fresh (seq_contents d) (map c_id (contents d))) as Hnew.
  rewrite existsb_key in Hnew.
  exists slug, owner.
  split; [exact Hin|]. split; [exact Hid|].
  rewrite !getContentById_find, !getContentBySlug_find.
  cbn [contents users with_contents].
  rewrite (find_absent _ _ Hnew).
  unfold slug_exists in Hfree. rewrite (find_absent _ _ Hfree).
  rewrite (find_last _ _ _ Hnew) by (simpl; apply Z.eqb_refl).
  rewrite (find_last _ _ _ Hfree) by (simpl; apply text_eqb_refl).
  unfold detail_of. simpl. rewrite Howner. auto.
Qed.

Lemma insertContent_then_lookup_witness :
  exists slug owner,
    In owner (users demo_db) /\ u_id owner = 2%Z
    /\ getContentById 5 (Some demo_db) = None
    /\ getContentBySlug slug (Some demo_db) = None
    /\ getContentById 5 (Some demo_db_1)
       = Some (mkDetail 5 (lit "Der Pate") (lit "Mafia") (lit "krimi")
                 (lit "/uploads/p1.png") (Some slug) 2 (Some (u_name owner))
                 (NewDate (lit "2025-09-01 10:00:00")))
    /\ getContentBySlug slug (Some demo_db_1)
       = Some (mkDetail 5 (lit "Der Pate") (lit "Mafia") (lit "krimi")
                 (lit "/uploads/p1.png") (Some slug) 2 (Some (u_name owner))
                 (NewDate (lit "2025-09-01 10:00:00"))).
Proof.
  apply (@insertContent_then_lookup nfkd_model lower_model (lit "Der Pate")
           (lit "Mafia") (lit "krimi") (lit "/uploads/p1.png") 2
           (lit "2025-09-01 10:00:00") demo_db 5 demo_db_1).
  reflexivity.
Defined.

Lemma find_by_key (B : Type) (key : B -> Z) (l : list B) b :
  keys_unique (map key l) = true -> In b l ->
  find (fun x => Z.eqb (key x) (key b)) l = Some b.
Proof.
  induction l as [|x l IH]; simpl; intros Hk Hin; [contradiction|].
  apply andb_prop in Hk. destruct Hk as [Hx Hk].
  destruct Hin as [->|Hin]; [rewrite Z.eqb_refl; reflexivity|].
  destruct (Z.eqb (key x) (key b)) eqn:E; [|auto].
  apply Z.eqb_eq in E. apply negb_true_iff in Hx. rewrite existsb_key in Hx.
  assert (existsb (fun y => Z.eqb (key y) (key x)) l = true) as Hy.
  { apply existsb_exists. exists b. split; [exact Hin|]. apply Z.eqb_eq. auto. }
  congruence.
Qed.

Lemma find_by_slug rows c s :
  slugs_unique rows = true -> In c rows -> c_slug c = Some s ->
  find (fun x => column_is (c_slug x) s) rows = Some c.
Proof.
  induction rows as [|x rows IH]; simpl; intros Hu Hin Hs; [contradiction|].
  apply andb_prop in Hu. destruct Hu as [Hx Hu].
  destruct Hin as [->|Hin].
  - rewrite Hs. simpl. rewrite text_eqb_refl. reflexivity.
  - destruct (column_is (c_slug x) s) eqn:E; [|auto].
    apply column_is_true in E. rewrite E in Hx. apply negb_true_iff in Hx.
    assert (existsb (fun c' => column_is (c_slug c') s) rows = true) as Hy.
    { apply existsb_exists. exists c. split; [exact Hin|].
      apply column_is_true, Hs. }
    congruence.
Qed.

(** X6.  In a database that satisfies its schema the lookup by slug
    and the lookup by id agree: what [getContentBySlug] finds is what
    [getContentById] finds under its id, and what [getContentById]
    finds is what [getContentBySlug] finds under its slug. *)
Theorem lookups_agree d :
  schema_holds d = true ->
  (forall slug x, getContentBySlug slug (Some d) = Some x ->
                  detail_slug x = Some slug
                  /\ getContentById (detail_id x) (Some d) = Some x)
  /\ (forall id x slug, getContentById id (Some d) = Some x ->
                        detail_slug x = Some slug ->
                        detail_id x = id
                        /\ getContentBySlug slug (Some d) = Some x).
Proof.
  intro Hs. apply schema_holds_iff in Hs. destruct Hs. split.
  - intros slug x. rewrite getContentBySlug_find, getContentById_find.
    destruct (find _ (contents d)) as [c|] eqn:E; [|discriminate].
    simpl. intro H. injection H as <-. simpl.
    apply find_some in E. destruct E as [Hin Hc]. apply column_is_true in Hc.
    split; [exact Hc|].
    rewrite (find_by_key c_id (contents d) c contents_keyed0 Hin). reflexivity.
  - intros id x slug. rewrite getContentBySlug_find, getContentById_find.
    destruct (find _ (contents d)) as [c|] eqn:E; [|discriminate].
    simpl. intro H. injection H as <-. simpl. intro Hslug.
    apply find_some in E. destruct E as [Hin Hc]. apply Z.eqb_eq in Hc.
    split; [exact Hc|].
    rewrite (find_by_slug (contents d) c contents_slugs0 Hin Hslug). reflexivity.
Qed.

Lemma lookups_agree_witness :
  schema_holds demo_db = true
  /\ (forall slug x, getContentBySlug slug (Some demo_db) = Some x ->
                     detail_slug x = Some slug
                     /\ getContentById (detail_id x) (Some demo_db) = Some x)
  /\ (forall id x slug, getContentById id (Some demo_db) = Some x ->
                        detail_slug x = Some slug ->
                        detail_id x = id
                        /\ getContentBySlug slug (Some demo_db) = Some x).
Proof.
  split; [reflexivity|]. apply (lookups_agree demo_db). reflexivity.
Defined.

Lemma find_filter_keep (A : Type) (p q : A -> bool) (l : list A) :
  (forall x, p x = true -> q x = true) ->
  find p (filter q l) = find p l.
Proof.
  intro H. induction l as [|x l IH]; simpl; [reflexivity|].
  destruct (q x) eqn:Eq; simpl.
  - destruct (p x); auto.
  - destruct (p x) eqn:Ep; [|exact IH]. rewrite (H x Ep) in Eq. discriminate.
Qed.

Lemma find_filter_out (A : Type) (p q : A -> bool) (l : list A) :
  (forall x, In x l -> p x = true -> q x = false) ->
  find p (filter q l) = None.
Proof.
  induction l as [|x l IH]; simpl; intro H; [reflexivity|].
  destruct (q x) eqn:Eq; simpl; [|auto].
  destruct (p x) eqn:Ep; [|auto]. rewrite (H x (or_introl eq_refl) Ep) in Eq.
  discriminate.
Qed.

(** X7.  In a database that satisfies its schema [deleteContentById]
    of a content that exists returns 1; afterwards the content is
    found neither under its id nor under its slug, while every other
    content is found as before.  For an id without content it returns
    0 and writes nothing. *)
Theorem deleteContentById_lookup id d :
  schema_holds d = true ->
  (forall x, getContentById id (Some d) = Some x ->
     exists d',
       deleteContentById id (Some d) = (Returns 1%Z, Some d')
       /\ getContentById id (Some d') = None
       /\ (forall slug, detail_slug x = Some slug ->
                        getContentBySlug slug (Some d') = None)
       /\ (forall id', id' <> id ->
                       getContentById id' (Some d') = getContentById id' (Some d)))
  /\ (getContentById id (Some d) = None ->
      deleteContentById id (Some d) = (Returns 0%Z, Some d)).
Proof.
  intro Hs. apply schema_holds_iff in Hs. destruct Hs. split.
  - intros x. rewrite getContentById_find.
    destruct (find _ (contents d)) as [c|] eqn:E; [|discriminate].
    cbn [option_map]. intro H. injection H as <-.
    pose proof (find_some _ _ E) as [Hin Hc]. apply Z.eqb_eq in Hc.
    unfold deleteContentById, sql_delete_content.
    rewrite (keys_unique_filter c_id (contents d) id contents_keyed0), E.
    eexists. split; [reflexivity|].
    split; [|split].
    + rewrite getContentById_find. cbn [contents users].
      rewrite find_filter_out; [reflexivity|].
      intros y _ Hy. rewrite Hy. reflexivity.
    + intros slug Hslug. simpl in Hslug.
      rewrite getContentBySlug_find. cbn [contents users].
      rewrite find_filter_out; [reflexivity|].
      intros y Hy Hys. apply column_is_true in Hys.
      pose proof (find_by_slug (contents d) y contents_slugs0 Hy Hys) as F1.
      pose proof (find_by_slug (contents d) c contents_slugs0 Hin Hslug) as F2.
      rewrite F1 in F2. injection F2 as ->.
      rewrite Hc, Z.eqb_refl. reflexivity.
    + intros id' Hne. rewrite !getContentById_find. cbn [contents users].
      rewrite find_filter_keep; [reflexivity|].
      intros y Hy. apply Z.eqb_eq in Hy. apply negb_true_iff, Z.eqb_neq. congruence.
  - rewrite getContentById_find.
    destruct (find _ (contents d)) as [c|] eqn:E; [discriminate|]. intros _.
    unfold deleteContentById, sql_delete_content.
    rewrite (keys_unique_filter c_id (contents d) id contents_keyed0), E.
    reflexivity.
Qed.

Lemma deleteContentById_lookup_witness :
  schema_holds demo_db = true
  /\ (exists d',
        deleteContentById 1 (Some demo_db) = (Returns 1%Z, Some d')
        /\ getContentById 1 (Some d') = None
        /\ getContentBySlug (lit "die-zeitmaschine") (Some d') = None
        /\ getContentById 2 (Some d') = getContentById 2 (Some demo_db))
  /\ deleteContentById 3 (Some demo_db) = (Returns 0%Z, Some demo_db).
Proof.
  split; [reflexivity|].
  destruct (@deleteContentById_lookup 1 demo_db eq_refl) as [H1 _].
  destruct (@deleteContentById_lookup 3 demo_db eq_refl) as [_ H2].
  split; [|apply H2; reflexivity].
  destruct (H1 _ eq_refl) as (d' & Hdel & Hid & Hslug & Hother).
  exists d'. split; [exact Hdel|]. split; [exact Hid|].
  split; [apply Hslug; reflexivity|]. apply Hother. discriminate.
Defined.

(** X8.  In a database that satisfies its schema [updateContent]
    returns 0 and writes nothing for an id without content, whatever
    the other arguments are; for a content that exists it returns 1
    when the category is one of the fixed set, and throws CHECK and
    writes nothing when it is not. *)
Theorem updateContent_outcome id title description category imagePath d :
  schema_holds d = true ->
  let call := updateContent id title description category imagePath (Some d) in
  (getContentById id (Some d) = None -> call = (Returns 0%Z, Some d))
  /\ (getContentById id (Some d) <> None -> text_in category CATEGORIES = true ->
      exists d', call = (Returns 1%Z, Some d'))
  /\ (getContentById id (Some d) <> None -> text_in category CATEGORIES = false ->
      call = (Throws CHECK, Some d)).
Proof.
  intro Hs. apply schema_holds_iff in Hs. destruct Hs. cbv zeta.
  rewrite getContentById_find.
  assert (Hgen : forall img,
    run (Some d) (sql_update_content id title description category img d)
      (fun _ changes => changes)
    = match find (fun c => Z.eqb (c_id c) id) (contents d) with
      | None => (Returns 0%Z, Some d)
      | Some _ =>
          if text_in category CATEGORIES
          then (Returns 1%Z,
                Some (with_contents d
                        (map (updated id title description category img) (contents d))
                        (seq_contents d)))
          else (Throws CHECK, Some d)
      end).
  { intro img. unfold sql_update_content.
    rewrite (keys_unique_filter c_id (contents d) id contents_keyed0).
    destruct (find _ (contents d)); [|reflexivity].
    destruct (text_in category CATEGORIES); reflexivity. }
  assert (Hcall : exists img,
    updateContent id title description category imagePath (Some d)
    = run (Some d) (sql_update_content id title description category img d)
        (fun _ changes => changes)).
  { unfold updateContent. destruct (truthy_text imagePath); eauto. }
  destruct Hcall as (img & ->). rewrite Hgen.
  destruct (find _ (contents d)); simpl.
  - split; [discriminate|]. split.
    + intros _ ->. eauto.
    + intros _ ->. reflexivity.
  - split; [reflexivity|]. split; intro H; elim H; reflexivity.
Qed.

Lemma updateContent_outcome_witness :
  schema_holds demo_db = true
  /\ updateContent 3 (lit "T") (lit "D") (lit "drama") (Some (lit "/uploads/n.png"))
       (Some demo_db) = (Returns 0%Z, Some demo_db)
  /\ (exists d',
        updateContent 4 (lit "T") (lit "D") (lit "horror") None (Some demo_db)
        = (Returns 1%Z, Some d'))
  /\ updateContent 4 (lit "T") (lit "D") (lit "drama") None (Some demo_db)
     = (Throws CHECK, Some demo_db).
Proof.
  split; [reflexivity|]. split; [|split].
  - apply (@updateContent_outcome 3 (lit "T") (lit "D") (lit "drama")
             (Some (lit "/uploads/n.png")) demo_db eq_refl). reflexivity.
  - apply (@updateContent_outcome 4 (lit "T") (lit "D") (lit "horror") None
             demo_db eq_refl); [discriminate|reflexivity].
  - apply (@updateContent_outcome 4 (lit "T") (lit "D") (lit "drama") None
             demo_db eq_refl); [discriminate|reflexivity].
Defined.

(** ** Users: register, then look up *)

Lemma exact_is_nocase (col : option text) e :
  column_is col e = true ->
  match col with Some e0 => nocase_eqb e0 e | None => false end = true.
Proof.
  intro H. apply column_is_true in H. subst col.
  unfold nocase_eqb. apply text_eqb_refl.
Qed.

Lemma email_free_exact rows e :
  email_taken rows (Some e) = false ->
  existsb (fun u => column_is (u_email u) e) rows = false.
Proof.
  simpl. intro H.
  destruct (existsb (fun u => column_is (u_email u) e) rows) eqn:E; [|reflexivity].
  apply existsb_exists in E. destruct E as (u & Hin & Hu).
  apply exact_is_nocase in Hu.
  assert (existsb (fun u => match u_email u with
                            | Some e0 => nocase_eqb e0 e
                            | None => false
                            end) rows = true) by (apply existsb_exists; eauto).
  congruence.
Qed.

Lemma find_app_first (A : Type) (p : A -> bool) (l m : list A) x :
  find p l = Some x -> find p (l ++ m) = Some x.
Proof.
  induction l as [|y l IH]; simpl; [discriminate|].
  destruct (p y); auto.
Qed.

(** X9.  A user [createUser] has stored with an email is found by
    [getUserByEmail] under that email, with the id the call returned,
    the name, the role and the password hash of the call; nobody was
    found under the email before, whoever was found under another
    email is found as before, and the new id is larger than every id
    of the table. *)
Theorem createUser_then_lookup name email passwordHash role now d id d' :
  createUser name (Some email) passwordHash role now (Some d)
    = (Returns (Some id), Some d') ->
  getUserByEmail email (Some d) = None
  /\ getUserByEmail email (Some d')
     = Some (mkUser id name (match role with Some r => r | None => lit "user" end)
               now (Some email) passwordHash)
  /\ (forall e u, getUserByEmail e (Some d) = Some u ->
                  getUserByEmail e (Some d') = Some u)
  /\ (forall u, In u (users d) -> (u_id u < id)%Z).
Proof.
  unfold createUser, sql_insert_user.
  destruct (text_in _ ROLES); cbn [negb]; [|discriminate].
  destruct (email_taken (users d) (Some email)) eqn:Hfree; [discriminate|].
  cbv zeta. unfold run. intro H. injection H as <- <-.
  apply email_free_exact in Hfree.
  unfold getUserByEmail. cbn [users with_users].
  split; [apply find_absent, Hfree|]. split; [|split].
  - apply find_last; [exact Hfree|]. simpl. apply text_eqb_refl.
  - intros e u. apply find_app_first.
  - intros u Hu. apply next_rowid_above, in_map, Hu.
Qed.

Lemma createUser_then_lookup_witness :
  exists d',
    createUser (lit "Eva") (Some (lit "eva@kino.ch")) (Some (lit "$2b$11$eva")) None
      (lit "2025-09-01 10:00:00") (Some demo_db) = (Returns (Some 4%Z), Some d')
    /\ getUserByEmail (lit "eva@kino.ch") (Some demo_db) = None
    /\ getUserByEmail (lit "eva@kino.ch") (Some d')
       = Some (mkUser 4 (lit "Eva") (lit "user") (lit "2025-09-01 10:00:00")
                 (Some (lit "eva@kino.ch")) (Some (lit "$2b$11$eva")))
    /\ (forall e u, getUserByEmail e (Some demo_db) = Some u ->
                    getUserByEmail e (Some d') = Some u)
    /\ (forall u, In u (users demo_db) -> (u_id u < 4)%Z).
Proof.
  eexists. split; [reflexivity|].
  apply (@createUser_then_lookup (lit "Eva") (lit "eva@kino.ch")
           (Some (lit "$2b$11$eva")) None (lit "2025-09-01 10:00:00") demo_db 4).
  reflexivity.
Defined.

(** ** Likes and favorites, further *)

Lemma mark_is_other userId contentId u c m :
  (u, c) <> (userId, contentId) ->
  mark_is u c m = true -> mark_is userId contentId m = false.
Proof.
  intros Hne H. apply mark_is_fields in H. destruct H as [H1 H2].
  unfold mark_is. rewrite H1, H2.
  destruct (Z.eqb u userId) eqn:E1; [|reflexivity].
  destruct (Z.eqb c contentId) eqn:E2; [|reflexivity].
  apply Z.eqb_eq in E1, E2. subst. elim Hne. reflexivity.
Qed.

Lemma existsb_filter_same (A : Type) (p q : A -> bool) (l : list A) :
  (forall x, p x = true -> q x = true) ->
  existsb p (filter q l) = existsb p l.
Proof.
  intro H. induction l as [|x l IH]; simpl; [reflexivity|].
  destruct (q x) eqn:Eq; simpl; rewrite IH; [reflexivity|].
  destruct (p x) eqn:Ep; [|reflexivity]. rewrite (H x Ep) in Eq. discriminate.
Qed.

Lemma filter_filter_same (A : Type) (p q : A -> bool) (l : list A) :
  (forall x, p x = true -> q x = true) ->
  filter p (filter q l) = filter p l.
Proof.
  intro H. induction l as [|x l IH]; simpl; [reflexivity|].
  destruct (q x) eqn:Eq; simpl; rewrite IH; [reflexivity|].
  destruct (p x) eqn:Ep; [|reflexivity]. rewrite (H x Ep) in Eq. discriminate.
Qed.

(** Another pair keeps its row when a row is deleted or inserted. *)
Lemma delete_mark_other userId contentId u c table :
  (u, c) <> (userId, contentId) ->
  existsb (mark_is u c) (delete_mark userId contentId table)
  = existsb (mark_is u c) table.
Proof.
  intro Hne. unfold delete_mark. apply existsb_filter_same.
  intros m Hm. rewrite (@mark_is_other userId contentId u c m Hne Hm). reflexivity.
Qed.

Lemma append_mark_other userId contentId now u c table :
  (u, c) <> (userId, contentId) ->
  existsb (mark_is u c) (table ++ [mkMark userId contentId now])
  = existsb (mark_is u c) table.
Proof.
  intro Hne. rewrite existsb_app. simpl.
  destruct (mark_is u c (mkMark userId contentId now)) eqn:E.
  - apply (@mark_is_other userId contentId u c _ Hne) in E.
    rewrite mark_is_new in E. discriminate.
  - rewrite !orb_false_r. reflexivity.
Qed.

Lemma delete_mark_other_content userId contentId c table :
  c <> contentId ->
  filter (on_content c) (delete_mark userId contentId table)
  = filter (on_content c) table.
Proof.
  intro Hne. unfold delete_mark. apply filter_filter_same.
  intros m Hm. unfold on_content in Hm. apply Z.eqb_eq in Hm.
  unfold mark_is. destruct (Z.eqb (m_content_id m) contentId) eqn:E.
  - apply Z.eqb_eq in E. congruence.
  - rewrite andb_false_r. reflexivity.
Qed.

Lemma append_mark_other_content userId contentId now c table :
  c <> contentId ->
  filter (on_content c) (table ++ [mkMark userId contentId now])
  = filter (on_content c) table.
Proof.
  intro Hne. rewrite filter_app. simpl. unfold on_content at 2. simpl.
  destruct (Z.eqb contentId c) eqn:E.
  - apply Z.eqb_eq in E. congruence.
  - apply app_nil_r.
Qed.

(** X10.  In a database that satisfies its schema [toggleLike] either
    throws FOREIGNKEY and writes nothing, which it does exactly when
    the pair is not liked and the user or the content does not exist,
    or returns the new state: [liked] is the opposite of what
    [hasUserLiked] said before and what it says afterwards, [count] is
    [getLikeCount] afterwards and differs from the count before by
    one; no other pair, no other count and no favorite changes. *)
Theorem toggleLike_outcome userId contentId now d :
  schema_holds d = true ->
  let before := hasUserLiked userId contentId (Some d) in
  let exist := has_user d userId && has_content d contentId in
  (before = false /\ exist = false
   /\ toggleLike userId contentId now (Some d) = (Throws FOREIGNKEY, Some d))
  \/ ((before = true \/ exist = true)
      /\ exists d',
           toggleLike userId contentId now (Some d)
           = (Returns (mkLikeToggle (negb before) (getLikeCount contentId (Some d'))),
              Some d')
           /\ hasUserLiked userId contentId (Some d') = negb before
           /\ getLikeCount contentId (Some d')
              = (getLikeCount contentId (Some d) + (if before then -1 else 1))%Z
           /\ (forall u c, (u, c) <> (userId, contentId) ->
                 hasUserLiked u c (Some d') = hasUserLiked u c (Some d))
           /\ (forall c, c <> contentId ->
                 getLikeCount c (Some d') = getLikeCount c (Some d))
           /\ favorites d' = favorites d
           /\ users d' = users d /\ contents d' = contents d).
Proof.
  intro Hs. apply schema_holds_iff in Hs. destruct Hs. cbv zeta.
  unfold toggleLike. cbn [hasUserLiked].
  destruct (existsb (mark_is userId contentId) (likes d)) eqn:Hliked.
  - right. split; [left; reflexivity|].
    unfold sql_delete_like, run. eexists. split; [reflexivity|].
    cbn [hasUserLiked getLikeCount likes favorites users contents with_likes negb].
    split; [unfold delete_mark; apply existsb_filter_out|].
    split; [rewrite (delete_mark_count _ _ _ likes_keyed0 Hliked); lia|].
    split; [intros u c Hne; apply delete_mark_other, Hne|].
    split; [intros c Hne; rewrite delete_mark_other_content by exact Hne;
            reflexivity|].
    auto.
  - unfold sql_insert_like, insert_mark. rewrite Hliked.
    destruct (has_user d userId && has_content d contentId) eqn:Hfk; cbn [negb].
    + right. split; [right; reflexivity|].
      unfold run. eexists. split; [reflexivity|].
      cbn [hasUserLiked getLikeCount likes favorites users contents with_likes].
      split; [apply existsb_last, mark_is_new|].
      split; [rewrite filter_app_length
                by (unfold on_content; simpl; apply Z.eqb_refl); lia|].
      split; [intros u c Hne; apply append_mark_other, Hne|].
      split; [intros c Hne; rewrite append_mark_other_content by exact Hne;
              reflexivity|].
      auto.
    + left. auto.
Qed.

Lemma toggleLike_outcome_witness :
  schema_holds demo_db = true
  /\ toggleLike 2 3 (lit "2025-09-01 10:00:00") (Some demo_db)
     = (Throws FOREIGNKEY, Some demo_db)
  /\ fst (toggleLike 1 1 (lit "2025-09-01 10:00:00") (Some demo_db))
     = Returns (mkLikeToggle false 1)
  /\ fst (toggleLike 2 1 (lit "2025-09-01 10:00:00") (Some demo_db))
     = Returns (mkLikeToggle true 3).
Proof.
  split; [reflexivity|].
  pose proof (@toggleLike_outcome 2 3 (lit "2025-09-01 10:00:00") demo_db eq_refl) as H1.
  pose proof (@toggleLike_outcome 1 1 (lit "2025-09-01 10:00:00") demo_db eq_refl) as H2.
  pose proof (@toggleLike_outcome 2 1 (lit "2025-09-01 10:00:00") demo_db eq_refl) as H3.
  cbv zeta in H1, H2, H3.
  split; [|split].
  - destruct H1 as [(_ & _ & H)|([H|H] & _)]; [exact H|discriminate H|discriminate H].
  - destruct H2 as [(H & _)|(_ & d' & H & _ & Hc & _)]; [discriminate H|].
    rewrite H. cbn [fst]. rewrite Hc. reflexivity.
  - destruct H3 as [(_ & H & _)|(_ & d' & H & _ & Hc & _)]; [discriminate H|].
    rewrite H. cbn [fst]. rewrite Hc. reflexivity.
Defined.

(** X11.  In a database that satisfies its schema [toggleFavorite]
    either throws FOREIGNKEY and writes nothing, exactly when the pair
    is no favorite and the user or the content does not exist, or
    returns the opposite of what [isFavorite] said before, which is
    what it says afterwards.  No other pair and no like changes, and a
    second call for the same pair brings the first state back. *)
Theorem toggleFavorite_outcome userId contentId now d :
  schema_holds d = true ->
  let before := isFavorite userId contentId (Some d) in
  let exist := has_user d userId && has_content d contentId in
  (before = false /\ exist = false
   /\ toggleFavorite userId contentId now (Some d) = (Throws FOREIGNKEY, Some d))
  \/ ((before = true \/ exist = true)
      /\ exists d',
           toggleFavorite userId contentId now (Some d)
           = (Returns (negb before), Some d')
           /\ isFavorite userId contentId (Some d') = negb before
           /\ (forall u c, (u, c) <> (userId, contentId) ->
                 isFavorite u c (Some d') = isFavorite u c (Some d))
           /\ likes d' = likes d
           /\ users d' = users d /\ contents d' = contents d
           /\ forall now',
                exists d'',
                  toggleFavorite userId contentId now' (Some d')
                  = (Returns before, Some d'')
                  /\ forall u c, isFavorite u c (Some d'') = isFavorite u c (Some d)).
Proof.
  intro Hs. apply schema_holds_iff in Hs. destruct Hs. cbv zeta.
  unfold toggleFavorite at 1 2. cbn [isFavorite].
  destruct (existsb (mark_is userId contentId) (favorites d)) eqn:Hfav.
  - right. split; [left; reflexivity|].
    pose proof (marked_refers d (favorites d) userId contentId favorites_refer0 Hfav)
      as Hfk.
    unfold sql_delete_favorite, run. eexists. split; [reflexivity|].
    cbn [isFavorite likes favorites users contents with_favorites negb].
    assert (Hgone : existsb (mark_is userId contentId)
                      (delete_mark userId contentId (favorites d)) = false)
      by (unfold delete_mark; apply existsb_filter_out).
    split; [exact Hgone|].
    split; [intros u c Hne; apply delete_mark_other, Hne|].
    split; [reflexivity|]. split; [reflexivity|]. split; [reflexivity|].
    intro now'. unfold toggleFavorite. cbn [isFavorite favorites with_favorites].
    rewrite Hgone. unfold sql_insert_favorite, insert_mark.
    cbn [favorites with_favorites]. rewrite Hgone.
    change (has_user (with_favorites d (delete_mark userId contentId (favorites d)))
              userId) with (has_user d userId).
    change (has_content (with_favorites d (delete_mark userId contentId (favorites d)))
              contentId) with (has_content d contentId).
    rewrite Hfk. cbn [negb run]. eexists. split; [reflexivity|].
    intros u c. cbn [isFavorite favorites with_favorites].
    destruct (Z.eq_dec u userId) as [->|Hu];
      [destruct (Z.eq_dec c contentId) as [->|Hc]|].
    + rewrite Hfav. apply existsb_last, mark_is_new.
    + rewrite append_mark_other, delete_mark_other by congruence. reflexivity.
    + rewrite append_mark_other, delete_mark_other by congruence. reflexivity.
  - unfold sql_insert_favorite, insert_mark. rewrite Hfav.
    destruct (has_user d userId && has_content d contentId) eqn:Hfk; cbn [negb].
    + right. split; [right; reflexivity|].
      unfold run. eexists. split; [reflexivity|].
      cbn [isFavorite likes favorites users contents with_favorites].
      assert (Hnew : existsb (mark_is userId contentId)
                       (favorites d ++ [mkMark userId contentId now]) = true)
        by (apply existsb_last, mark_is_new).
      split; [exact Hnew|].
      split; [intros u c Hne; apply append_mark_other, Hne|].
      split; [reflexivity|]. split; [reflexivity|]. split; [reflexivity|].
      intro now'. unfold toggleFavorite. cbn [isFavorite favorites with_favorites].
      rewrite Hnew. unfold sql_delete_favorite, run. eexists.
      split; [reflexivity|].
      intros u c. cbn [isFavorite favorites with_favorites].
      unfold delete_mark. rewrite filter_app. simpl. rewrite mark_is_new. simpl.
      rewrite app_nil_r, (filter_all _ _ Hfav). reflexivity.
    + left. auto.
Qed.

Lemma toggleFavorite_outcome_witness :
  schema_holds demo_db = true
  /\ toggleFavorite 1 3 (lit "2025-09-01 10:00:00") (Some demo_db)
     = (Throws FOREIGNKEY, Some demo_db)
  /\ fst (toggleFavorite 1 4 (lit "2025-09-01 10:00:00") (Some demo_db))
     = Returns false.
Proof.
  split; [reflexivity|].
  pose proof (@toggleFavorite_outcome 1 3 (lit "2025-09-01 10:00:00") demo_db eq_refl)
    as H1.
  pose proof (@toggleFavorite_outcome 1 4 (lit "2025-09-01 10:00:00") demo_db eq_refl)
    as H2.
  cbv zeta in H1, H2. split.
  - destruct H1 as [(_ & _ & H)|([H|H] & _)]; [exact H|discriminate H|discriminate H].
  - destruct H2 as [(H & _)|(_ & d' & H & _)]; [discriminate H|].
    rewrite H. reflexivity.
Defined.

Lemma distinct_NoDup l : NoDup (distinct l).
Proof.
  induction l as [|x l IH]; simpl; constructor.
  - intro H. apply filter_In in H. destruct H as [_ H].
    rewrite Z.eqb_refl in H. discriminate.
  - apply NoDup_filter, IH.
Qed.

(** X12.  [getUserLikedIds] lists exactly the contents the user has
    liked, each once: an id is in the result if and only if
    [hasUserLiked] holds for it. *)
Theorem getUserLikedIds_hasUserLiked userId db :
  NoDup (getUserLikedIds userId db)
  /\ forall contentId,
       In contentId (getUserLikedIds userId db)
       <-> hasUserLiked userId contentId db = true.
Proof.
  destruct db as [d|]; simpl.
  - split; [apply distinct_NoDup|]. intro c.
    rewrite distinct_In, in_map_iff, existsb_exists. split.
    + intros (m & Hc & Hm). apply filter_In in Hm. destruct Hm as [Hin Hu].
      exists m. split; [exact Hin|]. unfold mark_is. rewrite Hu, Hc.
      rewrite Z.eqb_refl. reflexivity.
    + intros (m & Hin & Hm). pose proof (mark_is_fields _ _ _ Hm) as [Hu Hc].
      exists m. split; [exact Hc|]. apply filter_In. split; [exact Hin|].
      apply Z.eqb_eq, Hu.
  - split; [constructor|]. intro c. split; [contradiction|discriminate].
Qed.

(** ** Listings *)

Lemma text_eqb_sym a b : text_eqb a b = text_eqb b a.
Proof.
  destruct (text_eqb a b) eqn:E1; destruct (text_eqb b a) eqn:E2; try reflexivity.
  - apply text_eqb_eq in E1. apply text_eqb_neq in E2. congruence.
  - apply text_eqb_eq in E2. apply text_eqb_neq in E1. congruence.
Qed.

Lemma text_compare_ge_trans a b c :
  text_compare a b <> Lt -> text_compare b c <> Lt -> text_compare a c <> Lt.
Proof.
  intros H1 H2.
  destruct (text_compare a b) eqn:E1; [|congruence|].
  - apply text_compare_eq in E1. subst. exact H2.
  - destruct (text_compare b c) eqn:E2; [|congruence|].
    + apply text_compare_eq in E2. subst. congruence.
    + rewrite (text_compare_gt_trans _ _ _ E1 E2). discriminate.
Qed.

Lemma text_compare_le_trans a b c :
  text_compare a b <> Gt -> text_compare b c <> Gt -> text_compare a c <> Gt.
Proof.
  intros H1 H2.
  rewrite (text_compare_antisym b a) in H1. rewrite (text_compare_antisym c b) in H2.
  rewrite (text_compare_antisym c a).
  assert (text_compare c a <> Lt) as H.
  { apply text_compare_ge_trans with b.
    - destruct (text_compare c b); simpl in H2; congruence.
    - destruct (text_compare b a); simpl in H1; congruence. }
  destruct (text_compare c a); simpl; congruence.
Qed.

Lemma filter_map_commute (A B : Type) (f : A -> B) (p : B -> bool) (l : list A) :
  filter p (map f l) = map f (filter (fun x => p (f x)) l).
Proof.
  induction l as [|x l IH]; simpl; [reflexivity|].
  destruct (p (f x)); simpl; rewrite IH; reflexivity.
Qed.

Lemma insert_by_map (A B : Type) (g : A -> B) (cmp : A -> A -> comparison)
    (cmp' : B -> B -> comparison) x (l : list A) :
  (forall a b, cmp' (g a) (g b) = cmp a b) ->
  insert_by cmp' (g x) (map g l) = map g (insert_by cmp x l).
Proof.
  intro H. induction l as [|y l IH]; simpl; [reflexivity|].
  rewrite H. destruct (cmp x y); simpl; rewrite ?IH; reflexivity.
Qed.

Lemma order_by_map (A B : Type) (g : A -> B) (cmp : A -> A -> comparison)
    (cmp' : B -> B -> comparison) (l : list A) :
  (forall a b, cmp' (g a) (g b) = cmp a b) ->
  order_by cmp' (map g l) = map g (order_by cmp l).
Proof.
  intro H. induction l as [|x l IH]; simpl; [reflexivity|].
  rewrite IH. apply insert_by_map, H.
Qed.

(** The rows of the two joins of [listContentsFiltered], one for each
    content when the ids of the users are unique. *)
Lemma joined_as_map d :
  keys_unique (map u_id (users d)) = true ->
  left_join (fun (cu : ContentRow * option UserRow) (lc : Z * Z) =>
               Z.eqb (fst lc) (c_id (fst cu)))
    (with_owner d (contents d)) (like_counts d)
  = map (fun c =>
           (c, find (fun u => Z.eqb (u_id u) (c_owner_id c)) (users d),
            find (fun lc : Z * Z => Z.eqb (fst lc) (c_id c)) (like_counts d)))
      (contents d).
Proof.
  intro Hk. unfold with_owner.
  rewrite (left_join_on_key u_id c_owner_id (contents d) (users d) Hk).
  rewrite (left_join_on_key fst (fun cu : ContentRow * option UserRow => c_id (fst cu))
             _ (like_counts d) (like_counts_keys d)).
  rewrite map_map. reflexivity.
Qed.

Lemma newest_first_before a b :
  newest_first a b <> Gt <-> newer_before (filtered_item a) (filtered_item b).
Proof.
  unfold newest_first, newer_before, filtered_item, created, lex. simpl.
  rewrite (text_compare_antisym (c_created_at (row_content a))
             (c_created_at (row_content b))).
  destruct (text_compare (c_created_at (row_content a))
              (c_created_at (row_content b))) eqn:Et; simpl.
  - apply text_compare_eq in Et.
    destruct (Z.compare_spec (c_id (row_content b)) (c_id (row_content a)))
      as [Ei|Ei|Ei];
      (split; intro H;
       [ first [ congruence | right; split; [assumption|lia] ]
       | destruct H as [H|[_ H]]; solve [lia | congruence] ]).
  - split; [intros []; reflexivity|].
    intros [H|[H _]]; [discriminate|].
    rewrite H, text_compare_refl in Et. discriminate.
  - split; [|discriminate]. intros _. left. reflexivity.
Qed.

Lemma newer_before_trans a b c :
  newer_before a b -> newer_before b c -> newer_before a c.
Proof.
  unfold newer_before.
  intros [H1|[T1 H1]] [H2|[T2 H2]].
  - left. eapply text_compare_gt_trans; eauto.
  - left. rewrite <- T2. exact H1.
  - left. rewrite T1. exact H2.
  - right. split; [congruence|lia].
Qed.

Lemma newest_first_total a b : newest_first a b = Gt -> newest_first b a <> Gt.
Proof.
  unfold newest_first, lex.
  rewrite (text_compare_antisym (c_created_at (row_content b))
             (c_created_at (row_content a))).
  rewrite (Z.compare_antisym (c_id (row_content b)) (c_id (row_content a))).
  destruct (text_compare (c_created_at (row_content b))
              (c_created_at (row_content a))); simpl; try discriminate.
  destruct (Z.compare (c_id (row_content b)) (c_id (row_content a))); simpl;
    discriminate.
Qed.

(** The filter of [listContentsFiltered] on a row is [selected_by] on
    its content. *)
Lemma filter_is_selected_by category ownerId (c : ContentRow) :
  (if truthy_text category then column_is category (c_category c) else true)
  && (if truthy_num ownerId
      then match ownerId with
           | Some o => Z.eqb (c_owner_id c) o
           | None => false
           end
      else true)
  = selected_by category ownerId c.
Proof.
  unfold selected_by. f_equal.
  - destruct category as [[|x cat]|]; try reflexivity.
    apply (text_eqb_sym (x :: cat) (c_category c)).
  - destruct ownerId as [o|]; simpl; [|reflexivity].
    destruct (Z.eqb o 0); reflexivity.
Qed.

(** [listContentsFiltered] before its rows are made objects. *)
Lemma listContentsFiltered_sorted_rows d category ownerId sort :
  keys_unique (map u_id (users d)) = true ->
  exists cmp rows,
    cmp = match sort_key sort with MostLiked => most_liked_first | Newest => newest_first end
    /\ listContentsFiltered category ownerId sort (Some d)
       = map filtered_item (order_by cmp rows)
    /\ map filtered_item rows
       = map (item_of d) (filter (selected_by category ownerId) (contents d)).
Proof.
  intro Hk. eexists. eexists. split; [reflexivity|].
  unfold listContentsFiltered. cbv zeta.
  rewrite (joined_as_map d Hk), filter_map_commute.
  split; [reflexivity|].
  rewrite map_map. unfold row_content. cbn [fst snd].
  erewrite filter_ext by (intro c; apply filter_is_selected_by).
  apply map_ext. intro c.
  unfold filtered_item, item_of, row_likes, row_content. simpl.
  rewrite like_counts_find. reflexivity.
Qed.

(** X13.  In a database that satisfies its schema
    [listContentsFiltered] returns one row for every content that
    passes the filters, with the name of its owner and the number of
    its likes, and no other row.  A non-empty category lets through the
    contents of that category and a non-zero owner the contents of
    that owner; both at once, both must hold.  With [sort] equal to
    ["likes"] the rows are ordered by likes, then time, then id, all
    descending, and with any other [sort] by time, then id. *)
Theorem listContentsFiltered_selects d category ownerId sort :
  schema_holds d = true ->
  let rows := listContentsFiltered category ownerId sort (Some d) in
  Permutation rows
    (map (item_of d) (filter (selected_by category ownerId) (contents d)))
  /\ (sort = lit "likes" -> StronglySorted liked_before rows)
  /\ (sort <> lit "likes" -> StronglySorted newer_before rows).
Proof.
  intro Hs. apply schema_holds_iff in Hs. destruct Hs. cbv zeta.
  destruct (listContentsFiltered_sorted_rows d category ownerId sort users_keyed0)
    as (cmp & rows & Hcmp & -> & Hrows).
  split; [|split].
  - rewrite <- Hrows. apply Permutation_map, order_by_perm.
  - intros ->. change (sort_key (lit "likes")) with MostLiked in Hcmp. subst cmp.
    apply StronglySorted_map with (R := fun a b => most_liked_first a b <> Gt).
    + intros a b. apply most_liked_first_before.
    + apply order_by_sorted.
      * apply most_liked_first_total.
      * intros x y z Hxy Hyz. apply most_liked_first_before.
        apply most_liked_first_before in Hxy, Hyz.
        eapply liked_before_trans; eauto.
  - intro Hsort. unfold sort_key in Hcmp.
    apply text_eqb_neq in Hsort. rewrite Hsort in Hcmp. subst cmp.
    apply StronglySorted_map with (R := fun a b => newest_first a b <> Gt).
    + intros a b. apply newest_first_before.
    + apply order_by_sorted.
      * apply newest_first_total.
      * intros x y z Hxy Hyz. apply newest_first_before.
        apply newest_first_before in Hxy, Hyz.
        eapply newer_before_trans; eauto.
Qed.

Lemma listContentsFiltered_selects_witness :
  schema_holds demo_db = true
  /\ map item_id
       (listContentsFiltered None (Some 2%Z) (lit "newest") (Some demo_db))
     = [4; 1]%Z
  /\ map item_id
       (listContentsFiltered (Some (lit "krimi")) (Some 2%Z) (lit "likes")
          (Some demo_db))
     = []
  /\ (let rows := listContentsFiltered None (Some 2%Z) (lit "newest") (Some demo_db) in
      Permutation rows
        (map (item_of demo_db) (filter (selected_by None (Some 2%Z)) (contents demo_db)))
      /\ (lit "newest" = lit "likes" -> StronglySorted liked_before rows)
      /\ (lit "newest" <> lit "likes" -> StronglySorted newer_before rows)).
Proof.
  split; [reflexivity|]. split; [reflexivity|]. split; [reflexivity|].
  apply (@listContentsFiltered_selects demo_db None (Some 2%Z) (lit "newest")).
  reflexivity.
Defined.

(** X14.  In a database that satisfies its schema [listContents]
    returns one row for every content, with the name of its owner and
    the number of its likes, later creation times first; these are the
    rows [listContentsFiltered] returns without filters, whatever its
    order. *)
Theorem listContents_rows d sort :
  schema_holds d = true ->
  Permutation (listContents (Some d)) (map (item_of d) (contents d))
  /\ StronglySorted (fun a b => text_compare (created a) (created b) <> Lt)
       (listContents (Some d))
  /\ Permutation (listContents (Some d))
       (listContentsFiltered None None sort (Some d)).
Proof.
  intro Hs. apply schema_holds_iff in Hs. destruct Hs.
  set (mk := fun r : ContentRow * option UserRow =>
               mkItem (c_id (fst r)) (c_title (fst r)) (c_description (fst r))
                 (c_category (fst r)) (c_image_path (fst r)) (c_slug (fst r))
                 (c_owner_id (fst r)) (owner_name (snd r))
                 (Z.of_nat (List.length (filter (on_content (c_id (fst r))) (likes d))))
                 (NewDate (c_created_at (fst r)))).
  set (cmp := fun a b : ContentRow * option UserRow =>
                text_compare (c_created_at (fst b)) (c_created_at (fst a))).
  assert (Hlist : listContents (Some d) = map mk (order_by cmp (with_owner d (contents d))))
    by reflexivity.
  assert (Hall : map mk (with_owner d (contents d)) = map (item_of d) (contents d)).
  { unfold with_owner.
    rewrite (left_join_on_key u_id c_owner_id (contents d) (users d) users_keyed0).
    rewrite map_map. reflexivity. }
  assert (Hperm : Permutation (listContents (Some d)) (map (item_of d) (contents d))).
  { rewrite Hlist, <- Hall. apply Permutation_map, order_by_perm. }
  split; [exact Hperm|]. split.
  - rewrite Hlist.
    apply StronglySorted_map with (R := fun a b => cmp a b <> Gt).
    + intros a b. unfold cmp, mk, created. simpl.
      rewrite (text_compare_antisym (c_created_at (fst a)) (c_created_at (fst b))).
      destruct (text_compare (c_created_at (fst a)) (c_created_at (fst b)));
        simpl; congruence.
    + apply order_by_sorted.
      * intros x y. unfold cmp.
        rewrite (text_compare_antisym (c_created_at (fst x)) (c_created_at (fst y))).
        destruct (text_compare (c_created_at (fst x)) (c_created_at (fst y)));
          simpl; congruence.
      * intros x y z. unfold cmp. intros H1 H2.
        eapply text_compare_le_trans; eauto.
  - eapply Permutation_trans; [exact Hperm|]. apply Permutation_sym.
    destruct (listContentsFiltered_sorted_rows d None None sort users_keyed0)
      as (c & rows & _ & -> & Hrows).
    eapply Permutation_trans; [apply Permutation_map, order_by_perm|].
    rewrite Hrows. unfold selected_by. simpl. rewrite filter_true.
    apply Permutation_refl.
Qed.

Lemma listContents_rows_witness :
  schema_holds demo_db = true
  /\ map item_id (listContents (Some demo_db)) = [2; 4; 1]%Z
  /\ Permutation (listContents (Some demo_db)) (map (item_of demo_db) (contents demo_db))
  /\ StronglySorted (fun a b => text_compare (created a) (created b) <> Lt)
       (listContents (Some demo_db))
  /\ Permutation (listContents (Some demo_db))
       (listContentsFiltered None None (lit "likes") (Some demo_db)).
Proof.
  split; [reflexivity|]. split; [reflexivity|].
  apply (@listContents_rows demo_db (lit "likes")). reflexivity.
Defined.

(** X15.  With a database [getAllUsers] returns one object for every
    user, built from its id, name, role and creation time, in
    ascending order of the ids; an email that is null or the empty
    string is reported as null, so no object has an empty email. *)
Theorem getAllUsers_rows d :
  Permutation (getAllUsers (Some d)) (map user_of (users d))
  /\ StronglySorted (fun a b => (user_id a <= user_id b)%Z) (getAllUsers (Some d))
  /\ Forall (fun u => user_email u <> Some []) (getAllUsers (Some d)).
Proof.
  assert (Hlist : getAllUsers (Some d)
                  = map user_of
                      (order_by (fun a b => Z.compare (u_id a) (u_id b)) (users d))).
  { unfold getAllUsers. apply map_ext. intro r. unfold user_of.
    destruct (u_email r) as [[|x e]|]; reflexivity. }
  assert (Hperm : Permutation (getAllUsers (Some d)) (map user_of (users d))).
  { rewrite Hlist. apply Permutation_map, order_by_perm. }
  split; [exact Hperm|]. split.
  - rewrite Hlist.
    apply StronglySorted_map
      with (R := fun a b : UserRow => Z.compare (u_id a) (u_id b) <> Gt).
    + intros a b H. simpl. apply Z.compare_le_iff. exact H.
    + apply order_by_sorted.
      * intros x y H. rewrite Z.compare_antisym, H. discriminate.
      * intros x y z H1 H2. apply Z.compare_le_iff.
        assert (u_id x <= u_id y)%Z by exact H1.
        assert (u_id y <= u_id z)%Z by exact H2. lia.
  - apply (Permutation_Forall (Permutation_sym Hperm)).
    apply Forall_forall. intros u Hu. apply in_map_iff in Hu.
    destruct Hu as (r & <- & _). unfold user_of. simpl.
    destruct (u_email r) as [[|x e]|]; discriminate.
Qed.

Lemma nocase_unit_zero x : nocase_unit x = 0%N <-> x = 0%N.
Proof.
  unfold nocase_unit. destruct (N.leb 65 x && N.leb x 90) eqn:E.
  - apply andb_prop in E. destruct E as [E _]. apply N.leb_le in E. lia.
  - tauto.
Qed.

(** [sqlite3_strnicmp] reads both strings up to the first NUL byte. *)
Lemma strnicmp_key a :
  forall b,
    match strnicmp a b with
    | Eq => Nat.compare (List.length a) (List.length b)
    | c => c
    end
    = lex (text_compare (nocase (c_string a)) (nocase (c_string b)))
        (Nat.compare (List.length a) (List.length b)).
Proof.
  induction a as [|x a IH]; intros [|y b]; cbn [strnicmp c_string].
  - reflexivity.
  - destruct (N.eqb y 0); reflexivity.
  - destruct (N.eqb x 0); reflexivity.
  - destruct (N.eqb x 0) eqn:Ex.
    + apply N.eqb_eq in Ex. subst x. cbn [nocase map text_compare].
      destruct (N.eqb y 0) eqn:Ey.
      * apply N.eqb_eq in Ey. subst y. reflexivity.
      * apply N.eqb_neq in Ey.
        assert (nocase_unit y <> 0%N) as Hy by (rewrite nocase_unit_zero; exact Ey).
        replace (nocase_unit 0) with 0%N by reflexivity.
        destruct (N.compare_spec 0 (nocase_unit y)) as [H|H|H];
          [congruence|reflexivity|lia].
    + apply N.eqb_neq in Ex.
      assert (nocase_unit x <> 0%N) as Hx by (rewrite nocase_unit_zero; exact Ex).
      destruct (N.eqb y 0) eqn:Ey.
      * apply N.eqb_eq in Ey. subst y. cbn [nocase map text_compare].
        replace (nocase_unit 0) with 0%N by reflexivity.
        destruct (N.compare_spec (nocase_unit x) 0) as [H|H|H];
          [congruence|lia|reflexivity].
      * cbn [nocase map text_compare]. fold (nocase (c_string a)).
        fold (nocase (c_string b)).
        destruct (N.compare (nocase_unit x) (nocase_unit y)); try reflexivity.
        exact (IH b).
Qed.

Lemma nocase_compare_key s t :
  nocase_compare s t
  = lex (text_compare (nocase_key s) (nocase_key t))
      (Nat.compare (List.length (utf8 s)) (List.length (utf8 t))).
Proof. unfold nocase_compare, nocase_key. apply strnicmp_key. Qed.

Lemma nocase_compare_before a b : nocase_compare a b <> Gt <-> nocase_before a b.
Proof.
  rewrite nocase_compare_key. unfold nocase_before, lex.
  destruct (text_compare (nocase_key a) (nocase_key b)) eqn:E.
  - apply text_compare_eq in E. rewrite E.
    destruct (Nat.compare_spec (List.length (utf8 a)) (List.length (utf8 b)))
      as [H|H|H].
    + split; [right; split; [reflexivity|lia]|discriminate].
    + split; [right; split; [reflexivity|lia]|discriminate].
    + split; [congruence|]. intros [H1|[_ H1]]; [discriminate|lia].
  - split; [left; reflexivity|discriminate].
  - split; [congruence|]. intros [H|[H _]]; [discriminate|].
    rewrite H, text_compare_refl in E. discriminate.
Qed.

Lemma nocase_before_total a b : nocase_before a b \/ nocase_before b a.
Proof.
  unfold nocase_before.
  rewrite (text_compare_antisym (nocase_key a) (nocase_key b)).
  destruct (text_compare (nocase_key a) (nocase_key b)) eqn:E; simpl.
  - apply text_compare_eq in E.
    destruct (Nat.le_ge_cases (List.length (utf8 a)) (List.length (utf8 b)));
      [left|right]; right; split; auto.
  - auto.
  - auto.
Qed.

Lemma nocase_before_trans a b c :
  nocase_before a b -> nocase_before b c -> nocase_before a c.
Proof.
  unfold nocase_before. intros [H1|[H1 L1]] [H2|[H2 L2]].
  - left. eapply text_compare_lt_trans; eauto.
  - left. rewrite <- H2. exact H1.
  - left. rewrite H1. exact H2.
  - right. split; [congruence|lia].
Qed.

(** Two emails the unique index of the model takes for the same are
    the same to the collation of SQLite. *)
Lemma nocase_unit_same x y :
  nocase_unit x = nocase_unit y -> x = y \/ ((x < 128)%N /\ (y < 128)%N).
Proof.
  destruct (nocase_unit_cases x) as [[Hx ->]|[Hx ->]];
    destruct (nocase_unit_cases y) as [[Hy ->]|[Hy ->]];
    unfold upper_unit in *; intro H; lia.
Qed.

Lemma surrogate_same x y :
  nocase_unit x = nocase_unit y ->
  is_high_surrogate x = is_high_surrogate y
  /\ is_low_surrogate x = is_low_surrogate y
  /\ (is_high_surrogate x || is_low_surrogate x = true -> x = y).
Proof.
  intro H. destruct (nocase_unit_same _ _ H) as [->|[Hx Hy]]; [auto|].
  assert (forall z, (z < 128)%N ->
                    is_high_surrogate z = false /\ is_low_surrogate z = false) as Hz.
  { intros z Hlt. unfold is_high_surrogate, is_low_surrogate. split.
    - apply andb_false_intro1. apply N.leb_gt. lia.
    - apply andb_false_intro1. apply N.leb_gt. lia. }
  destruct (Hz x Hx) as [-> ->]. destruct (Hz y Hy) as [-> ->].
  split; [reflexivity|]. split; [reflexivity|discriminate].
Qed.

Lemma code_points_same n :
  forall a b,
    (List.length a <= n)%nat ->
    Forall2 (fun x y => nocase_unit x = nocase_unit y) a b ->
    Forall2 (fun x y => nocase_unit x = nocase_unit y) (code_points a) (code_points b).
Proof.
  induction n as [|n IH]; intros a b Hn H.
  - destruct H; [constructor|simpl in Hn; lia].
  - destruct H as [|x y a b Hxy H]; [constructor|].
    simpl in Hn. cbn [code_points].
    destruct (surrogate_same _ _ Hxy) as (Hh & Hl & Hs). rewrite <- Hh, <- Hl.
    destruct (is_high_surrogate x) eqn:Eh.
    + destruct H as [|x2 y2 a b Hxy2 H]; [constructor; [reflexivity|constructor]|].
      destruct (surrogate_same _ _ Hxy2) as (_ & Hl2 & Hs2). cbv iota.
      rewrite <- Hl2.
      destruct (is_low_surrogate x2) eqn:El2.
      * assert (x = y) by (apply Hs; reflexivity).
        assert (x2 = y2) by (apply Hs2, orb_true_r). subst y y2.
        constructor; [reflexivity|]. apply IH; [simpl in Hn; lia|exact H].
      * constructor; [reflexivity|].
        apply IH; [simpl in Hn |- *; lia|constructor; assumption].
    + destruct (is_low_surrogate x).
      * constructor; [reflexivity|]. apply IH; [lia|exact H].
      * constructor; [exact Hxy|]. apply IH; [lia|exact H].
Qed.

Lemma utf8_same a b :
  Forall2 (fun x y => nocase_unit x = nocase_unit y) a b ->
  Forall2 (fun x y => nocase_unit x = nocase_unit y) (utf8 a) (utf8 b).
Proof.
  intro H. apply (code_points_same (le_n (List.length a))) in H. unfold utf8.
  induction H as [|x y l l' Hxy H IH]; simpl; [constructor|].
  apply Forall2_app; [|exact IH].
  destruct (nocase_unit_same _ _ Hxy) as [->|[Hx Hy]].
  - clear. induction (utf8_of_code_point y); constructor; auto.
  - unfold utf8_of_code_point.
    apply N.ltb_lt in Hx. apply N.ltb_lt in Hy. rewrite Hx, Hy.
    constructor; [exact Hxy|constructor].
Qed.

Lemma strnicmp_same a b :
  Forall2 (fun x y => nocase_unit x = nocase_unit y) a b -> strnicmp a b = Eq.
Proof.
  induction 1 as [|x y a b Hxy H IH]; cbn [strnicmp]; [reflexivity|].
  rewrite Hxy, N.compare_refl. destruct (N.eqb x 0); [reflexivity|exact IH].
Qed.

Lemma nocase_eqb_collates a b : nocase_eqb a b = true -> nocase_compare a b = Eq.
Proof.
  intro H. apply case_variant_nocase in H.
  assert (Forall2 (fun x y => nocase_unit x = nocase_unit y) a b) as Hf.
  { eapply Forall2_impl; [|exact H]. intros x y. apply same_letter_nocase. }
  apply utf8_same in Hf. unfold nocase_compare.
  rewrite (strnicmp_same Hf), (Forall2_length Hf). apply Nat.compare_refl.
Qed.

(** X16.  With a database [listAuthors] returns the id and the name of
    every user, once each, in the order of NOCASE: by the UTF-8 bytes
    of the name before its first NUL byte, the letters A to Z taken
    for a to z and a name that is the beginning of another first, and
    names that agree in this by the number of their bytes. *)
Theorem listAuthors_rows d :
  Permutation (listAuthors (Some d)) (map (fun u => (u_id u, u_name u)) (users d))
  /\ StronglySorted (fun a b => nocase_before (snd a) (snd b)) (listAuthors (Some d)).
Proof.
  split.
  - apply Permutation_map, order_by_perm.
  - unfold listAuthors.
    apply StronglySorted_map
      with (R := fun a b : UserRow => nocase_compare (u_name a) (u_name b) <> Gt).
    + intros a b H. apply nocase_compare_before. exact H.
    + apply order_by_sorted.
      * intros x y H. apply nocase_compare_before.
        destruct (nocase_before_total (u_name x) (u_name y)) as [Hb|Hb]; [|exact Hb].
        apply nocase_compare_before in Hb. congruence.
      * intros x y z H1 H2. apply nocase_compare_before.
        apply nocase_compare_before in H1. apply nocase_compare_before in H2.
        eapply nocase_before_trans; eauto.
Qed.

(** ** The favorites of a user *)

Lemma inner_join_on_key (A B : Type) (key : B -> Z) (k : A -> Z) (dflt : B)
    (l : list A) (r : list B) :
  keys_unique (map key r) = true ->
  forallb (fun a => existsb (fun b => Z.eqb (key b) (k a)) r) l = true ->
  inner_join (fun a b => Z.eqb (key b) (k a)) l r =
  map (fun a => (a, match find (fun b => Z.eqb (key b) (k a)) r with
                    | Some b => b
                    | None => dflt
                    end)) l.
Proof.
  intros Hk. induction l as [|a l IH]; intro Hall; [reflexivity|].
  simpl in Hall. apply andb_prop in Hall. destruct Hall as [Ha Hall].
  change (inner_join (fun a b => Z.eqb (key b) (k a)) (a :: l) r)
    with (map (fun b => (a, b)) (filter (fun b => Z.eqb (key b) (k a)) r)
          ++ inner_join (fun a b => Z.eqb (key b) (k a)) l r).
  rewrite (IH Hall), (keys_unique_filter key r (k a) Hk).
  destruct (find_present _ _ Ha) as (b & Hb). cbn [map]. rewrite Hb. reflexivity.
Qed.

Lemma Forall2_map_in (A B : Type) (R : A -> B -> Prop) (f : A -> B) (l : list A) :
  (forall x, In x l -> R x (f x)) -> Forall2 R l (map f l).
Proof.
  induction l as [|x l IH]; intro H; simpl; constructor.
  - apply H. left. reflexivity.
  - apply IH. intros y Hy. apply H. right. exact Hy.
Qed.

(** X17.  In a database that satisfies its schema
    [listFavoritesOfUser] returns one row for every favorite of the
    user, those marked later first, and each row shows the content
    [getContentById] finds under the id of the favorite.  So a content
    is listed if and only if [isFavorite] holds for it. *)
Theorem listFavoritesOfUser_rows userId d :
  schema_holds d = true ->
  exists marks,
    Permutation marks
      (filter (fun m => Z.eqb (m_user_id m) userId) (favorites d))
    /\ StronglySorted
         (fun a b => text_compare (m_created_at a) (m_created_at b) <> Lt) marks
    /\ Forall2
         (fun m r =>
            exists x,
              getContentById (m_content_id m) (Some d) = Some x
              /\ r = mkFavorite (detail_id x) (detail_title x) (detail_description x)
                       (detail_category x) (detail_imagePath x) (detail_slug x)
                       (detail_ownerName x) (detail_createdAt x))
         marks (listFavoritesOfUser userId (Some d))
    /\ forall contentId,
         In contentId (map fav_id (listFavoritesOfUser userId (Some d)))
         <-> isFavorite userId contentId (Some d) = true.
Proof.
  intro Hs. apply schema_holds_iff in Hs. destruct Hs.
  set (dflt := mkContent 0 [] [] [] [] 0 [] None).
  set (pick := fun f : Mark =>
                 match find (fun c => Z.eqb (c_id c) (m_content_id f)) (contents d) with
                 | Some c => c
                 | None => dflt
                 end).
  set (owner := fun c : ContentRow =>
                  find (fun u => Z.eqb (u_id u) (c_owner_id c)) (users d)).
  set (G := fun f : Mark => (f, pick f, owner (pick f))).
  set (mk := fun r : Mark * ContentRow * option UserRow =>
               mkFavorite (c_id (snd (fst r))) (c_title (snd (fst r)))
                 (c_description (snd (fst r))) (c_category (snd (fst r)))
                 (c_image_path (snd (fst r))) (c_slug (snd (fst r)))
                 (owner_name (snd r)) (NewDate (c_created_at (snd (fst r))))).
  set (cmp0 := fun a b : Mark => text_compare (m_created_at b) (m_created_at a)).
  set (mine := filter (fun m => Z.eqb (m_user_id m) userId) (favorites d)).
  assert (Hhave : forallb (fun f => existsb (fun c => Z.eqb (c_id c) (m_content_id f))
                                      (contents d)) (favorites d) = true).
  { eapply forallb_impl; [|exact favorites_refer0].
    intros m _ H. apply andb_prop in H. apply H. }
  assert (Hlist : listFavoritesOfUser userId (Some d)
                  = map (fun f => mk (G f)) (order_by cmp0 mine)).
  { unfold listFavoritesOfUser.
    rewrite (inner_join_on_key c_id m_content_id dflt (favorites d) (contents d)
               contents_keyed0 Hhave).
    rewrite (left_join_on_key u_id (fun fc : Mark * ContentRow => c_owner_id (snd fc))
               _ (users d) users_keyed0).
    rewrite map_map. fold pick. cbn [snd]. fold G.
    change (map (fun x : Mark => (x, pick x, find (fun b => Z.eqb (u_id b)
                                                      (c_owner_id (pick x))) (users d)))
              (favorites d)) with (map G (favorites d)).
    rewrite filter_map_commute. cbn [fst].
    rewrite (order_by_map G cmp0) by reflexivity.
    rewrite map_map. reflexivity. }
  assert (Hperm : Permutation (order_by cmp0 mine) mine) by apply order_by_perm.
  assert (Hfound : forall m, In m (favorites d) ->
            exists c, find (fun c => Z.eqb (c_id c) (m_content_id m)) (contents d) = Some c
                      /\ c_id c = m_content_id m).
  { intros m Hm. rewrite forallb_forall in Hhave.
    destruct (find_present _ _ (Hhave m Hm)) as (c & Hc). exists c.
    split; [exact Hc|]. apply find_some in Hc. apply Z.eqb_eq, Hc. }
  assert (Hmine : forall m, In m (order_by cmp0 mine) ->
                            In m (favorites d) /\ m_user_id m = userId).
  { intros m Hm. apply (Permutation_in _ Hperm) in Hm.
    apply filter_In in Hm. rewrite Z.eqb_eq in Hm. exact Hm. }
  exists (order_by cmp0 mine).
  split; [exact Hperm|]. split; [|split].
  - assert (Hsorted : StronglySorted (fun a b => cmp0 a b <> Gt) (order_by cmp0 mine)).
    { apply order_by_sorted.
      - intros x y. unfold cmp0.
        rewrite (text_compare_antisym (m_created_at x) (m_created_at y)).
        destruct (text_compare (m_created_at x) (m_created_at y)); simpl; congruence.
      - intros x y z. unfold cmp0. intros H1 H2.
        eapply text_compare_le_trans; eauto. }
    apply StronglySorted_map with (f := fun m : Mark => m)
      (S := fun a b => text_compare (m_created_at a) (m_created_at b) <> Lt) in Hsorted.
    + rewrite map_id in Hsorted. exact Hsorted.
    + intros a b. unfold cmp0.
      rewrite (text_compare_antisym (m_created_at a) (m_created_at b)).
      destruct (text_compare (m_created_at a) (m_created_at b)); simpl; congruence.
  - rewrite Hlist. apply Forall2_map_in. intros m Hm.
    destruct (Hmine m Hm) as [Hin _].
    destruct (Hfound m Hin) as (c & Hc & _).
    rewrite getContentById_find, Hc. eexists. split; [reflexivity|].
    unfold mk, G, pick, owner, detail_of. rewrite Hc. reflexivity.
  - intro c. rewrite Hlist, map_map, in_map_iff. unfold isFavorite.
    rewrite existsb_exists. split.
    + intros (m & Hc & Hm). destruct (Hmine m Hm) as [Hin Hu].
      destruct (Hfound m Hin) as (c0 & Hc0 & Hid).
      exists m. split; [exact Hin|].
      unfold mk, G, pick in Hc. rewrite Hc0 in Hc. simpl in Hc.
      unfold mark_is. rewrite Hu, <- Hid, Hc, !Z.eqb_refl. reflexivity.
    + intros (m & Hin & Hm). apply mark_is_fields in Hm. destruct Hm as [Hu Hc].
      exists m. split.
      * destruct (Hfound m Hin) as (c0 & Hc0 & Hid).
        unfold mk, G, pick. rewrite Hc0. simpl. congruence.
      * apply (Permutation_in _ (Permutation_sym Hperm)).
        apply filter_In. split; [exact Hin|]. apply Z.eqb_eq, Hu.
Qed.

Lemma listFavoritesOfUser_rows_witness :
  schema_holds demo_db = true
  /\ map fav_id (listFavoritesOfUser 1 (Some demo_db)) = [4%Z]
  /\ exists marks,
       Permutation marks
         (filter (fun m => Z.eqb (m_user_id m) 1) (favorites demo_db))
       /\ StronglySorted
            (fun a b => text_compare (m_created_at a) (m_created_at b) <> Lt) marks
       /\ Forall2
            (fun m r =>
               exists x,
                 getContentById (m_content_id m) (Some demo_db) = Some x
                 /\ r = mkFavorite (detail_id x) (detail_title x) (detail_description x)
                          (detail_category x) (detail_imagePath x) (detail_slug x)
                          (detail_ownerName x) (detail_createdAt x))
            marks (listFavoritesOfUser 1 (Some demo_db))
       /\ forall contentId,
            In contentId (map fav_id (listFavoritesOfUser 1 (Some demo_db)))
            <-> isFavorite 1 contentId (Some demo_db) = true.
Proof.
  split; [reflexivity|]. split; [reflexivity|].
  apply (@listFavoritesOfUser_rows 1 demo_db). reflexivity.
Defined.

(** ** The slug backfill of [migrate] *)

Lemma sql_trim_starts c r : is_space c = false -> sql_trim (c :: r) <> [].
Proof.
  intro H. unfold sql_trim. cbn [drop_leading_spaces]. rewrite H.
  cbn [drop_trailing_spaces].
  destruct (drop_trailing_spaces r); [rewrite H|]; discriminate.
Qed.

Lemma alnum_not_space c : is_alnum c = true -> is_space c = false.
Proof.
  unfold is_alnum, is_space. intro H. apply N.eqb_neq. intros ->.
  vm_compute in H. discriminate.
Qed.

(** The slug [makeUniqueContentSlug] makes from a slugified title is
    not blank. *)
Lemma unique_slug_not_blank nfkd lower d t s :
  makeUniqueContentSlug d (slugify nfkd lower t) = Some s -> sql_trim s <> [].
Proof.
  intro H.
  assert (Hbase : exists c r, text_or (slugify nfkd lower t) (lit "eintrag") = c :: r
                              /\ is_space c = false).
  { destruct (slugify_is_slug nfkd lower t) as [Hw _].
    destruct (slugify nfkd lower t) as [|c r].
    - exists 101%N. eexists. split; reflexivity.
    - exists c, r. split; [reflexivity|]. simpl in Hw.
      destruct (is_dash c); [discriminate|].
      apply andb_prop in Hw. apply alnum_not_space, Hw. }
  destruct Hbase as (c & r & Hbase & Hc).
  unfold makeUniqueContentSlug in H. cbv zeta in H. rewrite Hbase in H.
  destruct (slug_exists d (c :: r)); cbn [negb] in H.
  - apply first_free_suffix_least in H. destruct H as (k & _ & -> & _).
    unfold suffixed. simpl. apply sql_trim_starts, Hc.
  - injection H as <-. apply sql_trim_starts, Hc.
Qed.

Lemma reslugged_other s id l :
  existsb (Z.eqb id) (map c_id l) = false -> map (reslugged s id) l = l.
Proof.
  induction l as [|c l IH]; simpl; intro H; [reflexivity|].
  apply orb_false_elim in H. destruct H as [Hc Hl].
  rewrite (IH Hl). unfold reslugged. rewrite Z.eqb_sym, Hc. reflexivity.
Qed.

Lemma slugged_has_slug c : slugged c = true -> exists s, c_slug c = Some s.
Proof.
  unfold slugged, needs_slug. destruct (c_slug c) as [s|]; [eauto|discriminate].
Qed.

Lemma slugged_with_slug c s : sql_trim s <> [] -> slugged (with_slug c s) = true.
Proof.
  unfold slugged, needs_slug, with_slug. simpl.
  destruct (sql_trim s); [congruence|reflexivity].
Qed.

Lemma slugs_unique_tail c l :
  slugs_unique (filter slugged (c :: l)) = true ->
  slugs_unique (filter slugged l) = true.
Proof.
  simpl. destruct (slugged c); [|auto]. simpl. intro H.
  apply andb_prop in H. apply H.
Qed.

(** One [UPDATE contents SET slug = ? WHERE id = ?] with an unused slug
    keeps the slugs unique. *)
Lemma slugs_after_update s id l :
  keys_unique (map c_id l) = true ->
  slugs_unique (filter slugged l) = true ->
  existsb (fun c => column_is (c_slug c) s) l = false ->
  sql_trim s <> [] ->
  slugs_unique (filter slugged (map (reslugged s id) l)) = true.
Proof.
  intros Hk Hu Hfree Hs. induction l as [|c l IH]; [reflexivity|].
  cbn [map c_id keys_unique] in Hk. apply andb_prop in Hk. destruct Hk as [Hc Hk].
  apply negb_true_iff in Hc.
  cbn [existsb] in Hfree. apply orb_false_elim in Hfree. destruct Hfree as [Hcs Hfree].
  pose proof (slugs_unique_tail _ _ Hu) as Hu'.
  specialize (IH Hk Hu' Hfree).
  cbn [map]. unfold reslugged at 1. destruct (Z.eqb (c_id c) id) eqn:E.
  - apply Z.eqb_eq in E. subst id. rewrite (@reslugged_other s (c_id c) l Hc).
    cbn [filter]. fold (with_slug c s). rewrite (@slugged_with_slug c s Hs).
    cbn [slugs_unique with_slug c_slug]. rewrite Hu', andb_true_r.
    apply negb_true_iff. apply existsb_filter_weaken, Hfree.
  - cbn [filter]. destruct (slugged c) eqn:Hsl; [|exact IH].
    cbn [slugs_unique]. rewrite IH, andb_true_r.
    destruct (slugged_has_slug _ Hsl) as (s0 & Hs0). rewrite Hs0.
    apply negb_true_iff.
    destruct (existsb _ (filter slugged (map (reslugged s id) l))) eqn:Ex;
      [|reflexivity].
    exfalso. apply existsb_exists in Ex. destruct Ex as (x & Hx & Hxs).
    apply filter_In in Hx. destruct Hx as [Hx Hxsl].
    apply in_map_iff in Hx. destruct Hx as (y & <- & Hy).
    unfold reslugged in Hxs, Hxsl. destruct (Z.eqb (c_id y) id).
    + simpl in Hxs. apply text_eqb_eq in Hxs. subst s0.
      rewrite Hs0 in Hcs. simpl in Hcs. rewrite text_eqb_refl in Hcs. discriminate.
    + cbn [filter] in Hu. rewrite Hsl in Hu. cbn [slugs_unique] in Hu.
      rewrite Hs0 in Hu. apply andb_prop in Hu. destruct Hu as [Hu _].
      apply negb_true_iff in Hu.
      assert (existsb (fun c' => column_is (c_slug c') s0) (filter slugged l) = true).
      { apply existsb_exists. exists y. split; [|exact Hxs].
        apply filter_In. split; assumption. }
      congruence.
Qed.

Lemma Forall2_map_l (A B C : Type) (f : A -> B) (R : B -> C -> Prop) l l' :
  Forall2 R (map f l) l' -> Forall2 (fun x y => R (f x) y) l l'.
Proof.
  revert l'. induction l as [|x l IH]; intros l' H; inversion H; subst;
    constructor; auto.
Qed.

Lemma Forall2_impl_in (A B : Type) (R S : A -> B -> Prop) l l' :
  (forall x y, In x l -> R x y -> S x y) -> Forall2 R l l' -> Forall2 S l l'.
Proof.
  intros H HR. induction HR as [|x y l l' Hxy HR IH]; constructor.
  - apply H; [left; reflexivity|exact Hxy].
  - apply IH. intros a b Ha. apply H. right. exact Ha.
Qed.

Lemma Forall2_in_r (A B : Type) (R : A -> B -> Prop) l l' :
  Forall2 R l l' -> forall y, In y l' -> exists x, In x l /\ R x y.
Proof.
  induction 1 as [|x y l l' Hxy HR IH]; intros z Hz; [contradiction|].
  destruct Hz as [<-|Hz].
  - exists x. split; [left; reflexivity|exact Hxy].
  - destruct (IH z Hz) as (w & Hw & Hr). exists w. split; [right; exact Hw|exact Hr].
Qed.

Lemma keys_unique_same (B : Type) (key : B -> Z) (l : list B) x y :
  keys_unique (map key l) = true -> In x l -> In y l -> key x = key y -> x = y.
Proof.
  intros Hk Hx Hy E.
  pose proof (find_by_key key l x Hk Hx) as H1.
  pose proof (find_by_key key l y Hk Hy) as H2.
  rewrite E in H1. congruence.
Qed.

Section Backfill.

Variable normalizeNFKD : text -> text.
Variable toLowerCase : text -> text.

(** What the transaction of the backfill has done to a row when it is
    over: a row it was given has a slug that is not blank, another
    row is as before. *)
Let rewritten (rows : list (Z * text)) (c c' : ContentRow) : Prop :=
  (~ In (c_id c) (map fst rows) /\ c' = c)
  \/ (In (c_id c) (map fst rows) /\ exists s, sql_trim s <> [] /\ c' = with_slug c s).

Lemma backfill_returns indexed rows :
  forall d,
    keys_unique (map c_id (contents d)) = true ->
    slugs_unique (filter slugged (contents d)) = true ->
    exists d',
      backfill normalizeNFKD toLowerCase indexed rows d = Returns d'
      /\ users d' = users d /\ likes d' = likes d /\ favorites d' = favorites d
      /\ seq_users d' = seq_users d /\ seq_contents d' = seq_contents d
      /\ slugs_unique (filter slugged (contents d')) = true
      /\ Forall2 (rewritten rows) (contents d) (contents d').
Proof.
  induction rows as [|[id title] rows IH]; intros d Hk Hu.
  - exists d. repeat (split; [reflexivity|]). split; [exact Hu|].
    rewrite <- (map_id (contents d)) at 2. apply Forall2_map_in.
    intros x _. left. split; [intros []|reflexivity].
  - cbn [backfill].
    destruct (makeUniqueContentSlug_total d
                (slugify normalizeNFKD toLowerCase (text_or title [])))
      as (s & Hs & Hfree).
    rewrite Hs. pose proof (unique_slug_not_blank _ _ _ _ Hs) as Hnb.
    unfold slug_exists in Hfree.
    assert (Hupd : sql_update_slug indexed s id d
                   = Changed (with_contents d (map (reslugged s id) (contents d))
                                (seq_contents d))
                       (Z.of_nat (List.length
                                    (filter (fun c => Z.eqb (c_id c) id) (contents d))))).
    { unfold sql_update_slug. cbv zeta.
      replace (existsb (fun c => negb (Z.eqb (c_id c) id) && column_is (c_slug c) s)
                 (contents d)) with false.
      - rewrite (keys_unique_filter c_id (contents d) id Hk).
        destruct (find _ (contents d)); simpl; rewrite andb_false_r; reflexivity.
      - symmetry.
        destruct (existsb (fun c => negb (Z.eqb (c_id c) id) && column_is (c_slug c) s)
                    (contents d)) eqn:E; [|reflexivity].
        apply existsb_exists in E. destruct E as (x & Hx & Hc).
        apply andb_prop in Hc.
        assert (existsb (fun c => column_is (c_slug c) s) (contents d) = true)
          by (apply existsb_exists; exists x; tauto).
        congruence. }
    rewrite Hupd.
    set (d1 := with_contents d (map (reslugged s id) (contents d)) (seq_contents d)).
    assert (Hk1 : keys_unique (map c_id (contents d1)) = true).
    { unfold d1. simpl. rewrite map_map.
      rewrite (map_ext (fun x => c_id (reslugged s id x)) c_id); [exact Hk|].
      intro x. unfold reslugged. destruct (Z.eqb (c_id x) id); reflexivity. }
    assert (Hu1 : slugs_unique (filter slugged (contents d1)) = true)
      by (apply slugs_after_update; assumption).
    destruct (IH d1 Hk1 Hu1) as (d' & Hret & H1 & H2 & H3 & H4 & H5 & H6 & H7).
    exists d'. split; [exact Hret|].
    repeat (split; [assumption|]).
    simpl in H7. apply Forall2_map_l in H7.
    eapply Forall2_impl_in; [|exact H7].
    intros x y _ Hxy. unfold rewritten in *. cbn [map fst In].
    unfold reslugged in Hxy. destruct (Z.eqb (c_id x) id) eqn:E.
    + apply Z.eqb_eq in E. right. split; [left; congruence|].
      simpl in Hxy. destruct Hxy as [[_ ->]|[_ (s' & Hs' & ->)]].
      * exists s. split; [exact Hnb|reflexivity].
      * exists s'. split; [exact Hs'|reflexivity].
    + apply Z.eqb_neq in E.
      destruct Hxy as [[Hn ->]|[Hi Hex]].
      * left. split; [|reflexivity]. intros [H|H]; [congruence|tauto].
      * right. split; [right; exact Hi|exact Hex].
Qed.

End Backfill.

(** X18.  The slug backfill of [migrate], whether the unique index on
    the slug exists already or not: in a table with unique ids whose
    slugs, as far as they are not blank, are unique, it returns, gives
    every row without slug one that is not blank, leaves every other
    row and every other column as it is, and the slugs are unique
    afterwards, so that the index can be built. *)
Theorem migrate_slugs_backfills normalizeNFKD toLowerCase indexed d :
  keys_unique (map c_id (contents d)) = true ->
  slugs_unique (filter slugged (contents d)) = true ->
  exists d',
    migrate_slugs normalizeNFKD toLowerCase indexed d = (Returns tt, d')
    /\ users d' = users d /\ likes d' = likes d /\ favorites d' = favorites d
    /\ Forall2
         (fun c c' =>
            if needs_slug c
            then exists s, sql_trim s <> [] /\ c' = with_slug c s
            else c' = c)
         (contents d) (contents d')
    /\ forallb slugged (contents d') = true
    /\ slugs_unique (contents d') = true.
Proof.
  intros Hk Hu. unfold migrate_slugs. cbv zeta.
  destruct (backfill_returns normalizeNFKD toLowerCase indexed
              (map (fun c => (c_id c, c_title c)) (filter needs_slug (contents d)))
              d Hk Hu)
    as (d' & Hret & H1 & H2 & H3 & _ & _ & Hu' & Hrows).
  rewrite Hret.
  assert (Hrel : Forall2
                   (fun c c' =>
                      if needs_slug c
                      then exists s, sql_trim s <> [] /\ c' = with_slug c s
                      else c' = c)
                   (contents d) (contents d')).
  { eapply Forall2_impl_in; [|exact Hrows].
    intros x y Hx Hxy. cbv beta zeta in Hxy. rewrite map_map in Hxy. cbn [fst] in Hxy.
    destruct (needs_slug x) eqn:En.
    - destruct Hxy as [[Hn _]|[_ Hex]]; [|exact Hex].
      exfalso. apply Hn. apply in_map, filter_In. split; assumption.
    - destruct Hxy as [[_ ->]|[Hi _]]; [reflexivity|].
      exfalso. apply in_map_iff in Hi. destruct Hi as (z & Hid & Hz).
      apply filter_In in Hz. destruct Hz as [Hz Hzn].
      assert (z = x) by (eapply keys_unique_same; eauto). congruence. }
  assert (Hall : forallb slugged (contents d') = true).
  { apply forallb_forall. intros y Hy.
    destruct (Forall2_in_r Hrel y Hy) as (x & _ & Hxy).
    destruct (needs_slug x) eqn:En.
    - destruct Hxy as (s & Hs & ->). apply slugged_with_slug, Hs.
    - subst y. unfold slugged. rewrite En. reflexivity. }
  assert (Hunique : slugs_unique (contents d') = true).
  { rewrite <- Hu'. f_equal. symmetry.
    clear - Hall. induction (contents d') as [|c l IH]; [reflexivity|].
    simpl in *. apply andb_prop in Hall. destruct Hall as [-> Hl].
    f_equal. auto. }
  exists d'. unfold sql_create_slug_index. rewrite Hunique, orb_true_r.
  split; [reflexivity|]. repeat (split; [assumption|]). reflexivity.
Qed.

Lemma migrate_slugs_backfills_witness :
  keys_unique (map c_id (contents legacy_db)) = true
  /\ slugs_unique (filter slugged (contents legacy_db)) = true
  /\ map c_slug (contents (snd (migrate_slugs nfkd_model lower_model false legacy_db)))
     = [Some (lit "tatort"); Some (lit "tatort-2"); Some (lit "es");
        Some (lit "eintrag")]
  /\ exists d',
       migrate_slugs nfkd_model lower_model false legacy_db = (Returns tt, d')
       /\ users d' = users legacy_db /\ likes d' = likes legacy_db
       /\ favorites d' = favorites legacy_db
       /\ Forall2
            (fun c c' =>
               if needs_slug c
               then exists s, sql_trim s <> [] /\ c' = with_slug c s
               else c' = c)
            (contents legacy_db) (contents d')
       /\ forallb slugged (contents d') = true
       /\ slugs_unique (contents d') = true.
Proof.
  split; [reflexivity|]. split; [reflexivity|]. split; [vm_compute; reflexivity|].
  apply (@migrate_slugs_backfills nfkd_model lower_model false legacy_db);
    reflexivity.
Defined.

(** ** The demo seed *)

Lemma seed_user_adds name role now inst :
  text_in role ROLES = true ->
  seed_user name role now inst =
  inr (mkInstance
         (with_users (data inst)
            (users (data inst)
               ++ [mkUser (next_rowid (seq_users (data inst))
                             (map u_id (users (data inst))))
                     name role now None None])
            (next_rowid (seq_users (data inst)) (map u_id (users (data inst)))))
         (app_meta inst)).
Proof.
  intro H. unfold seed_user, sql_insert_user. rewrite H. reflexivity.
Qed.

Lemma seed_user_schema name role now inst inst' :
  seed_user name role now inst = inr inst' ->
  Schema (data inst) -> Schema (data inst').
Proof.
  unfold seed_user.
  destruct (sql_insert_user name None None role now (data inst)) as [d n|e] eqn:E;
    [|discriminate].
  intro H. injection H as <-. simpl. eapply sql_insert_user_schema. exact E.
Qed.

(** X19.  [seedDemoOnce] never throws.  On an instance without the
    seed marker it appends the users Max (admin), Erika (user) and Sam
    (editor), without email and password and with fresh ids, sets the
    marker and touches nothing else; on an instance with the marker it
    changes nothing.  So a second call changes nothing, and the schema
    is kept. *)
Theorem seedDemoOnce_once now1 now2 now3 iso inst :
  exists inst',
    seedDemoOnce now1 now2 now3 iso inst = (Returns tt, inst')
    /\ (meta_exists DEMO_SEED_KEY inst = true -> inst' = inst)
    /\ (meta_exists DEMO_SEED_KEY inst = false ->
        exists id1 id2 id3,
          users (data inst') =
            users (data inst)
              ++ [mkUser id1 (lit "Max") (lit "admin") now1 None None;
                  mkUser id2 (lit "Erika") (lit "user") now2 None None;
                  mkUser id3 (lit "Sam") (lit "editor") now3 None None]
          /\ (forall u, In u (users (data inst)) -> u_id u < id1)%Z
          /\ (id1 < id2 < id3)%Z
          /\ contents (data inst') = contents (data inst)
          /\ likes (data inst') = likes (data inst)
          /\ favorites (data inst') = favorites (data inst)
          /\ app_meta inst' = app_meta inst ++ [(DEMO_SEED_KEY, iso)])
    /\ (forall now1' now2' now3' iso',
          seedDemoOnce now1' now2' now3' iso' inst' = (Returns tt, inst'))
    /\ (schema_holds (data inst) = true -> schema_holds (data inst') = true).
Proof.
  unfold seedDemoOnce. destruct (meta_exists DEMO_SEED_KEY inst) eqn:Hm.
  - exists inst. split; [reflexivity|]. split; [reflexivity|].
    split; [discriminate|]. split; [|auto].
    intros. rewrite Hm. reflexivity.
  - pose proof (@seed_user_adds (lit "Max") (lit "admin") now1 inst eq_refl) as E1.
    match type of E1 with _ = inr ?i => set (i1 := i) in E1 end.
    pose proof (@seed_user_adds (lit "Erika") (lit "user") now2 i1 eq_refl) as E2.
    match type of E2 with _ = inr ?i => set (i2 := i) in E2 end.
    pose proof (@seed_user_adds (lit "Sam") (lit "editor") now3 i2 eq_refl) as E3.
    match type of E3 with _ = inr ?i => set (i3 := i) in E3 end.
    rewrite E1, E2, E3.
    pose proof (fun H : Schema (data inst) =>
                  @seed_user_schema _ _ _ _ _ E3
                    (@seed_user_schema _ _ _ _ _ E2
                       (@seed_user_schema _ _ _ _ _ E1 H))) as Hkeep.
    clear E1 E2 E3. subst i3 i2 i1.
    cbn [data app_meta with_users users seq_users contents likes favorites
         seq_contents] in Hkeep.
    cbn [data app_meta with_users users seq_users contents likes favorites
         seq_contents].
    unfold sql_insert_meta. cbn [app_meta data]. 
    replace (meta_exists DEMO_SEED_KEY (mkInstance _ (app_meta inst))) with false
      by (symmetry; exact Hm).
    set (s := seq_users (data inst)). set (us := users (data inst)).
    set (id1 := next_rowid s (map u_id us)).
    set (id2 := next_rowid id1 (map u_id (us ++ [mkUser id1 (lit "Max") (lit "admin")
                                                   now1 None None]))).
    set (id3 := next_rowid id2 _).
    eexists. split; [reflexivity|]. cbn [data app_meta users contents likes favorites].
    split; [discriminate|]. split; [|split].
    + intros _. exists id1, id2, id3.
      rewrite <- !app_assoc. cbn [app]. split; [reflexivity|].
      split.
      { intros u Hu. apply next_rowid_above. apply in_map, Hu. }
      split; [|repeat split; reflexivity].
      assert (Hnext : forall q ids, (q < next_rowid q ids)%Z)
        by (intros; unfold next_rowid; lia).
      split; [apply Hnext|apply Hnext].
    + intros. unfold meta_exists. cbn [app_meta]. rewrite existsb_app.
      cbn [existsb fst]. rewrite text_eqb_refl, orb_true_r. reflexivity.
    + intro Hs. apply schema_holds_iff. apply schema_holds_iff in Hs.
      exact (Hkeep Hs).
Qed.

(** ** Sequences of calls *)

Lemma run_handle (A : Type) d (x : Exec) (k : Database -> Z -> A) :
  exists d', snd (run (Some d) x k) = Some d'
             /\ (d' = d \/ exists n, x = Changed d' n).
Proof. destruct x as [d1 n|e]; simpl; eauto. Qed.

Lemma perform_open nfkd lower c d :
  exists d', perform nfkd lower c (Some d) = Some d'.
Proof.
  assert (Hrun : forall (A : Type) (x : Exec) (k : Database -> Z -> A),
            exists d', snd (run (Some d) x k) = Some d').
  { intros A x k. destruct (run_handle d x k) as (d' & H & _). eauto. }
  destruct c; cbn [perform].
  - apply Hrun.
  - apply Hrun.
  - unfold insertContent. destruct (makeUniqueContentSlug d _); [|simpl; eauto].
    apply Hrun.
  - unfold updateContent. destruct (truthy_text imagePath); apply Hrun.
  - apply Hrun.
  - apply Hrun.
  - apply Hrun.
Qed.

Lemma replay_keeps_open nfkd lower calls :
  forall d, exists d', replay nfkd lower calls (Some d) = Some d'.
Proof.
  unfold replay. induction calls as [|c calls IH]; intro d; simpl; [eauto|].
  destruct (perform_open nfkd lower c d) as (d1 & ->). apply IH.
Qed.

Lemma perform_schema nfkd lower c d d' :
  schema_holds d = true -> perform nfkd lower c (Some d) = Some d' ->
  schema_holds d' = true.
Proof.
  intros Hs H. destruct (schema_is_kept d) as [_ Hkept].
  destruct (Hkept Hs d') as (K1 & K2 & K3 & K4 & K5 & K6 & K7).
  destruct c; cbn [perform] in H; eauto.
Qed.

(** X20.  Whatever calls of the exported functions that write are made
    one after the other, and whether they return or throw, a database
    that satisfied the constraints [migrate] declares satisfies them
    afterwards. *)
Theorem replay_keeps_schema nfkd lower calls :
  forall d,
    schema_holds d = true ->
    exists d', replay nfkd lower calls (Some d) = Some d' /\ schema_holds d' = true.
Proof.
  unfold replay. induction calls as [|c calls IH]; intros d Hs; simpl.
  - eauto.
  - destruct (perform_open nfkd lower c d) as (d1 & H1). rewrite H1.
    apply IH. eapply perform_schema; eauto.
Qed.

Lemma replay_keeps_schema_witness :
  schema_holds demo_db = true
  /\ exists d',
       replay nfkd_model lower_model
         [CallToggleLike 2 1 (lit "2025-09-01 10:00:00");
          CallDeleteContentById 4;
          CallCreateUser (lit "Eva") (Some (lit "MAX@kino.ch")) None None
            (lit "2025-09-01 10:05:00");
          CallInsertContent (lit "Es") (lit "Neu") (lit "horror") (lit "/uploads/d.png")
            3 (lit "2025-09-01 10:10:00")]
         (Some demo_db) = Some d'
       /\ schema_holds d' = true.
Proof.
  split; [reflexivity|].
  apply (@replay_keeps_schema nfkd_model lower_model _ demo_db). reflexivity.
Defined.

Lemma perform_seq_contents nfkd lower c d d' :
  perform nfkd lower c (Some d) = Some d' -> (seq_contents d <= seq_contents d')%Z.
Proof.
  assert (Hrun : forall (A : Type) (x : Exec) (k : Database -> Z -> A),
            (forall d1 n, x = Changed d1 n -> (seq_contents d <= seq_contents d1)%Z) ->
            snd (run (Some d) x k) = Some d' -> (seq_contents d <= seq_contents d')%Z).
  { intros A x k Hx H. destruct (run_handle d x k) as (d1 & E & [->|(n & Hn)]).
    - rewrite E in H. injection H as <-. lia.
    - rewrite E in H. injection H as <-. eauto. }
  destruct c; cbn [perform].
  - unfold insertUser. apply Hrun. unfold sql_insert_user. intros d1 n H.
    destruct (negb _); [discriminate|]. destruct (email_taken _ _); [discriminate|].
    injection H as <- _. simpl. lia.
  - unfold createUser. apply Hrun. unfold sql_insert_user. intros d1 n H.
    destruct (negb _); [discriminate|]. destruct (email_taken _ _); [discriminate|].
    injection H as <- _. simpl. lia.
  - unfold insertContent. destruct (makeUniqueContentSlug d _);
      [|simpl; intro H; injection H as <-; lia].
    apply Hrun. unfold sql_insert_content. intros d1 n H.
    destruct (negb _); [discriminate|]. destruct (slug_exists _ _); [discriminate|].
    destruct (negb _); [discriminate|].
    injection H as <- _. simpl. unfold next_rowid. lia.
  - unfold updateContent. destruct (truthy_text imagePath); apply Hrun;
      unfold sql_update_content; intros d1 n H;
      (destruct (filter _ (contents d)); [injection H as <- _; lia|]);
      (destruct (negb _); [discriminate|]); injection H as <- _; simpl; lia.
  - unfold deleteContentById. apply Hrun. unfold sql_delete_content. intros d1 n H.
    destruct (filter _ (contents d)); injection H as <- _; simpl; lia.
  - unfold toggleLike. apply Hrun. intros d1 n H.
    destruct (hasUserLiked userId contentId (Some d)).
    + unfold sql_delete_like in H. injection H as <- _. simpl. lia.
    + unfold sql_insert_like in H. destruct (insert_mark _ _ _ _ _); [discriminate|].
      injection H as <- _. simpl. lia.
  - unfold toggleFavorite. apply Hrun. intros d1 n H.
    destruct (isFavorite userId contentId (Some d)).
    + unfold sql_delete_favorite in H. injection H as <- _. simpl. lia.
    + unfold sql_insert_favorite in H. destruct (insert_mark _ _ _ _ _); [discriminate|].
      injection H as <- _. simpl. lia.
Qed.

Lemma replay_seq_contents nfkd lower calls :
  forall d d',
    replay nfkd lower calls (Some d) = Some d' ->
    (seq_contents d <= seq_contents d')%Z.
Proof.
  unfold replay. induction calls as [|c calls IH]; intros d d' H; simpl in H.
  - injection H as <-. lia.
  - destruct (perform_open nfkd lower c d) as (d1 & H1). rewrite H1 in H.
    apply perform_seq_contents in H1. apply IH in H. lia.
Qed.

Lemma insertContent_id nfkd lower title description category imagePath ownerId now
    d id h :
  insertContent nfkd lower title description category imagePath ownerId now (Some d)
    = (Returns (Some id), h) ->
  exists d', h = Some d' /\ seq_contents d' = id /\ (seq_contents d < id)%Z
             /\ forall c, In c (contents d) -> (c_id c < id)%Z.
Proof.
  unfold insertContent.
  destruct (makeUniqueContentSlug d (slugify nfkd lower title)) as [slug|];
    [|discriminate].
  unfold sql_insert_content.
  destruct (negb (text_in category CATEGORIES)); [discriminate|].
  destruct (slug_exists d slug); [discriminate|].
  destruct (negb (has_user d ownerId)); [discriminate|].
  simpl. intro H. injection H as <- <-. eexists. split; [reflexivity|].
  split; [reflexivity|]. split; [unfold next_rowid; lia|].
  intros c Hc. apply next_rowid_above. apply in_map, Hc.
Qed.

(** X21.  The id of a content is never given out again: a content
    inserted later, whatever was inserted, changed or deleted in
    between, gets a larger id than one inserted before. *)
Theorem content_ids_not_reused nfkd lower calls
    title1 description1 category1 imagePath1 ownerId1 now1
    title2 description2 category2 imagePath2 ownerId2 now2 d id1 h1 id2 h2 :
  insertContent nfkd lower title1 description1 category1 imagePath1 ownerId1 now1
    (Some d) = (Returns (Some id1), h1) ->
  insertContent nfkd lower title2 description2 category2 imagePath2 ownerId2 now2
    (replay nfkd lower calls h1) = (Returns (Some id2), h2) ->
  (id1 < id2)%Z.
Proof.
  intros H1 H2.
  apply insertContent_id in H1. destruct H1 as (d1 & -> & Hseq & _).
  destruct (replay_keeps_open nfkd lower calls d1) as (dn & Hn).
  rewrite Hn in H2. apply replay_seq_contents in Hn.
  apply insertContent_id in H2. destruct H2 as (_ & _ & _ & Hlt & _). lia.
Qed.

Lemma content_ids_not_reused_witness :
  insertContent nfkd_model lower_model (lit "Der Pate") (lit "Mafia") (lit "krimi")
    (lit "/uploads/p1.png") 2 (lit "2025-09-01 10:00:00") (Some demo_db)
  = (Returns (Some 5%Z), Some demo_db_1)
  /\ insertContent nfkd_model lower_model (lit "Der Pate") (lit "Mafia") (lit "krimi")
       (lit "/uploads/p1.png") 2 (lit "2025-09-02 10:00:00")
       (replay nfkd_model lower_model [CallDeleteContentById 5] (Some demo_db_1))
     = (Returns (Some 6%Z),
        snd (insertContent nfkd_model lower_model (lit "Der Pate") (lit "Mafia")
               (lit "krimi") (lit "/uploads/p1.png") 2 (lit "2025-09-02 10:00:00")
               (replay nfkd_model lower_model [CallDeleteContentById 5]
                  (Some demo_db_1))))
  /\ (5 < 6)%Z.
Proof.
  assert (H1 : insertContent nfkd_model lower_model (lit "Der Pate") (lit "Mafia")
                 (lit "krimi") (lit "/uploads/p1.png") 2 (lit "2025-09-01 10:00:00")
                 (Some demo_db)
               = (Returns (Some 5%Z), Some demo_db_1)) by (vm_compute; reflexivity).
  assert (H2 : insertContent nfkd_model lower_model (lit "Der Pate") (lit "Mafia")
                 (lit "krimi") (lit "/uploads/p1.png") 2 (lit "2025-09-02 10:00:00")
                 (replay nfkd_model lower_model [CallDeleteContentById 5]
                    (Some demo_db_1))
               = (Returns (Some 6%Z),
                  snd (insertContent nfkd_model lower_model (lit "Der Pate")
                         (lit "Mafia") (lit "krimi") (lit "/uploads/p1.png") 2
                         (lit "2025-09-02 10:00:00")
                         (replay nfkd_model lower_model [CallDeleteContentById 5]
                            (Some demo_db_1))))) by (vm_compute; reflexivity).
  split; [exact H1|]. split; [exact H2|].
  exact (@content_ids_not_reused nfkd_model lower_model [CallDeleteContentById 5]
           _ _ _ _ _ _ _ _ _ _ _ _ _ _ _ _ _ H1 H2).
Defined.

(** ** app.js: who may edit and delete *)

(** X22.  The middleware [requireOwnerOrAdmin] lets through everyone
    for whom the template helper [canEdit] shows the edit buttons.  For
    a content that exists it lets through nobody else: a visitor who is
    not logged in is sent to the login page and a user who is neither
    admin nor owner gets the answer 403. *)
Theorem requireOwnerOrAdmin_canEdit (A : Type) item user (deny : Response -> A)
    (next : A) :
  (canEdit item user = true -> requireOwnerOrAdmin item user deny next = next)
  /\ (forall i, item = Some i -> canEdit item user = false ->
        requireOwnerOrAdmin item user deny next
        = deny (match user with None => ToLogin | Some _ => Forbidden end)).
Proof.
  unfold canEdit, requireOwnerOrAdmin. split.
  - destruct user as [u|]; [|discriminate].
    destruct item as [i|]; [|discriminate]. intros ->. reflexivity.
  - intros i ->. destruct user as [u|]; [|reflexivity]. intros ->. reflexivity.
Qed.

(** X23.  The handler of POST /content/:slug/delete in a database that
    satisfies its schema: a visitor who is not logged in is sent to the
    login page, an unknown slug is answered with 404, and a user who
    is neither admin nor owner of the content with 403, and in these
    cases nothing is written.  The admin and the owner are redirected,
    the content is deleted and its slug finds nothing afterwards.  The
    read of [res.locals.item.id] never fails. *)
Theorem post_content_delete_guard slug user d :
  schema_holds d = true ->
  fst (post_content_delete slug user (Some d)) <> TypeError
  /\ (user = None -> post_content_delete slug user (Some d) = (ToLogin, Some d))
  /\ (user <> None -> getContentBySlug slug (Some d) = None ->
      post_content_delete slug user (Some d) = (NotFound, Some d))
  /\ (forall item,
        user <> None -> getContentBySlug slug (Some d) = Some item ->
        canEdit (Some item) user = false ->
        post_content_delete slug user (Some d) = (Forbidden, Some d))
  /\ (forall item,
        getContentBySlug slug (Some d) = Some item ->
        canEdit (Some item) user = true ->
        post_content_delete slug user (Some d)
        = (Redirected, snd (deleteContentById (detail_id item) (Some d)))
        /\ getContentBySlug slug (snd (post_content_delete slug user (Some d))) = None
        /\ getContentById (detail_id item)
             (snd (post_content_delete slug user (Some d))) = None).
Proof.
  intro Hs. apply schema_holds_iff in Hs. destruct Hs.
  assert (Hsame : forall item, getContentBySlug slug (Some d) = Some item ->
            getContentById (detail_id item) (Some d) = Some item
            /\ exists c, In c (contents d) /\ c_slug c = Some slug
                         /\ c_id c = detail_id item).
  { intro item. rewrite getContentBySlug_find, getContentById_find.
    destruct (find _ (contents d)) as [c|] eqn:E; [|discriminate].
    simpl. intro H. injection H as <-. simpl.
    apply find_some in E. destruct E as [Hin Hc]. apply column_is_true in Hc.
    rewrite (find_by_key c_id (contents d) c contents_keyed0 Hin).
    split; [reflexivity|]. exists c. auto. }
  unfold post_content_delete.
  destruct user as [u|].
  2:{ split; [discriminate|]. split; [reflexivity|].
      split; [congruence|]. split; [congruence|]. intros item _ H. discriminate. }
  destruct (getContentBySlug slug (Some d)) as [item|] eqn:Eslug.
  2:{ split; [discriminate|]. split; [discriminate|]. split; [reflexivity|].
      split; intros; discriminate. }
  destruct (Hsame item eq_refl) as (Hid & c & Hin & Hslug & Hcid).
  rewrite Hid. unfold requireOwnerOrAdmin, canEdit.
  destruct (text_eqb (su_role u) (lit "admin") || Z.eqb (detail_ownerId item) (su_id u))
    eqn:Ok.
  - split; [discriminate|]. split; [discriminate|]. split; [discriminate|].
    split.
    + intros item' _ H. injection H as <-. rewrite Ok. discriminate.
    + intros item' H _. injection H as <-. split; [reflexivity|].
      cbn [snd]. unfold deleteContentById, sql_delete_content.
      rewrite (keys_unique_filter c_id (contents d) (detail_id item) contents_keyed0).
      rewrite <- Hcid.
      rewrite (find_by_key c_id (contents d) c contents_keyed0 Hin).
      cbn [run snd]. rewrite getContentBySlug_find, getContentById_find.
      cbn [contents users]. rewrite !find_filter_out; [split; reflexivity| |].
      * intros y _ Hy. rewrite Hy. reflexivity.
      * intros y Hy Hys. apply column_is_true in Hys.
        pose proof (find_by_slug (contents d) y contents_slugs0 Hy Hys) as F1.
        pose proof (find_by_slug (contents d) c contents_slugs0 Hin Hslug) as F2.
        rewrite F1 in F2. injection F2 as ->. rewrite Z.eqb_refl. reflexivity.
  - split; [discriminate|]. split; [discriminate|]. split; [discriminate|].
    split.
    + intros item' _ H _. reflexivity.
    + intros item' H. injection H as <-. rewrite Ok. discriminate.
Qed.

Lemma post_content_delete_guard_witness :
  schema_holds demo_db = true
  /\ fst (post_content_delete (lit "tatort") (Some (mkSessionUser 2 (lit "user")))
            (Some demo_db)) = Forbidden
  /\ fst (post_content_delete (lit "tatort") (Some (mkSessionUser 1 (lit "user")))
            (Some demo_db)) = Redirected
  /\ fst (post_content_delete (lit "tatort") (Some (mkSessionUser 1 (lit "user")))
            (Some demo_db)) <> TypeError.
Proof.
  split; [reflexivity|]. split; [reflexivity|]. split; [reflexivity|].
  apply (@post_content_delete_guard (lit "tatort") (Some (mkSessionUser 1 (lit "user")))
           demo_db).
  reflexivity.
Defined.

(** ** app.js: the home page *)

Lemma StronglySorted_app_inv (A : Type) (R : A -> A -> Prop) (l1 l2 : list A) :
  StronglySorted R (l1 ++ l2) ->
  StronglySorted R l1 /\ forall a b, In a l1 -> In b l2 -> R a b.
Proof.
  induction l1 as [|x l1 IH]; simpl; intro H.
  - split; [constructor|]. intros a b [].
  - inversion H as [|? ? Hs Hx]; subst. destruct (IH Hs) as [H1 H2]. split.
    + constructor; [exact H1|]. apply Forall_forall. intros y Hy.
      rewrite Forall_forall in Hx. apply Hx, in_or_app. left. exact Hy.
    + intros a b [<-|Ha] Hb.
      * rewrite Forall_forall in Hx. apply Hx, in_or_app. right. exact Hb.
      * apply H2; assumption.
Qed.

(** X24.  The top rated contents of the home page are three of the
    contents, or all of them if there are fewer, with the most likes
    first, and none of the contents left out has more likes than one
    of those shown. *)
Theorem home_topRated_best allItems :
  List.length (home_topRated allItems) = Nat.min 3 (List.length allItems)
  /\ StronglySorted (fun a b => (item_likeCount b <= item_likeCount a)%Z)
       (home_topRated allItems)
  /\ exists rest,
       Permutation (home_topRated allItems ++ rest) allItems
       /\ forall a b, In a (home_topRated allItems) -> In b rest ->
                      (item_likeCount b <= item_likeCount a)%Z.
Proof.
  unfold home_topRated.
  set (cmp := fun a b : ContentItem => Z.compare (item_likeCount b) (item_likeCount a)).
  assert (Hperm : Permutation (order_by cmp allItems) allItems) by apply order_by_perm.
  assert (Hsorted : StronglySorted (fun a b => cmp a b <> Gt) (order_by cmp allItems)).
  { apply order_by_sorted.
    - intros x y. unfold cmp. intros H1 H2.
      apply Z.compare_gt_iff in H1. apply Z.compare_gt_iff in H2. lia.
    - intros x y z. unfold cmp. intros H1 H2.
      change (item_likeCount y <= item_likeCount x)%Z in H1.
      change (item_likeCount z <= item_likeCount y)%Z in H2.
      change (item_likeCount z <= item_likeCount x)%Z. lia. }
  rewrite <- (firstn_skipn 3 (order_by cmp allItems)) in Hsorted.
  apply StronglySorted_app_inv in Hsorted. destruct Hsorted as [Hs Hcut].
  split; [|split].
  - rewrite length_firstn, (Permutation_length Hperm). reflexivity.
  - eapply StronglySorted_map with (f := fun i : ContentItem => i) in Hs.
    + rewrite map_id in Hs. exact Hs.
    + intros x y H. exact H.
  - exists (skipn 3 (order_by cmp allItems)). split.
    + rewrite firstn_skipn. exact Hperm.
    + intros a b Ha Hb. exact (Hcut a b Ha Hb).
Qed.

(** X25.  The groups of the home page: a category has a group if and
    only if it is one of the four categories and a content has it, no
    category has two groups, and a group shows one to three contents,
    all of its category. *)
Theorem home_groups_shape allItems :
  (forall cat,
     In cat (map fst (home_groups allItems))
     <-> In cat CATEGORIES /\ exists i, In i allItems /\ item_category i = cat)
  /\ NoDup (map fst (home_groups allItems))
  /\ forall cat items,
       In (cat, items) (home_groups allItems) ->
       (1 <= List.length items <= 3)%nat
       /\ forall i, In i items -> In i allItems /\ item_category i = cat.
Proof.
  unfold home_groups.
  set (group := fun cat : text =>
                  (cat, firstn 3 (filter (fun i => text_eqb (item_category i) cat)
                                    allItems))).
  set (shown := fun g : text * list ContentItem =>
                  match snd g with [] => false | _ :: _ => true end).
  assert (Hshown : forall cat,
            shown (group cat) = true
            <-> exists i, In i allItems /\ item_category i = cat).
  { intro cat. unfold shown, group. cbn [snd].
    destruct (filter (fun i => text_eqb (item_category i) cat) allItems)
      as [|i l] eqn:E.
    - split; [discriminate|]. intros (i & Hi & Hc).
      assert (In i (filter (fun i => text_eqb (item_category i) cat) allItems)) as H.
      { apply filter_In. split; [exact Hi|]. apply text_eqb_eq, Hc. }
      rewrite E in H. destruct H.
    - split; [|reflexivity]. intros _. exists i.
      assert (In i (filter (fun i => text_eqb (item_category i) cat) allItems)) as H
        by (rewrite E; left; reflexivity).
      apply filter_In in H. destruct H as [Hi Hc]. apply text_eqb_eq in Hc. auto. }
  split; [|split].
  - intro cat. rewrite in_map_iff. split.
    + intros ([cat' items] & Hfst & Hin). simpl in Hfst. subst cat'.
      apply filter_In in Hin. destruct Hin as [Hin Hsh].
      apply in_map_iff in Hin. destruct Hin as (cat' & Hg & Hcat).
      unfold group in Hg. injection Hg as -> <-.
      split; [exact Hcat|]. apply Hshown. exact Hsh.
    + intros [Hcat Hex]. exists (group cat). split; [reflexivity|].
      apply filter_In. split; [apply in_map, Hcat|]. apply Hshown, Hex.
  - assert (Hsub : forall cats, NoDup cats ->
              NoDup (map fst (filter shown (map group cats)))).
    { induction cats as [|c cats IH]; intro Hn; simpl; [constructor|].
      inversion Hn as [|? ? Hc Hn']; subst.
      destruct (shown (group c)); [|auto]. simpl. constructor; [|auto].
      intro H. apply Hc. apply in_map_iff in H.
      destruct H as ([c' items] & Hfst & Hin). simpl in Hfst. subst c'.
      apply filter_In in Hin. destruct Hin as [Hin _].
      apply in_map_iff in Hin. destruct Hin as (c' & Hg & Hc').
      unfold group in Hg. injection Hg as -> _. exact Hc'. }
    apply Hsub. unfold CATEGORIES.
    repeat (constructor; [simpl; intros H; repeat (destruct H as [H|H]; [discriminate H|]);
                          exact H|]).
    constructor.
  - intros cat items Hin. apply filter_In in Hin. destruct Hin as [Hin Hsh].
    apply in_map_iff in Hin. destruct Hin as (cat' & Hg & _).
    unfold group in Hg. injection Hg as -> Hitems.
    change (firstn 3 (filter (fun i => text_eqb (item_category i) cat) allItems) = items)
      in Hitems.
    unfold shown in Hsh. cbn [snd] in Hsh. split.
    + split.
      * destruct items; [discriminate|simpl; lia].
      * rewrite <- Hitems. apply firstn_le_length.
    + intros i Hi. rewrite <- Hitems in Hi.
      assert (In i (filter (fun i => text_eqb (item_category i) cat) allItems)) as H.
      { rewrite <- (firstn_skipn 3 (filter _ allItems)). apply in_or_app. left. exact Hi. }
      apply filter_In in H. destruct H as [H1 H2]. apply text_eqb_eq in H2. auto.
Qed.
